(** * Tech & Electronics Billing System: persistence, invoices and cart

    A shallow embedding of [db.py], [invoice.py] and the event handlers of
    [gui.py], followed by the properties the specification states about
    them.

    Conventions of the embedding:
    - a Python [str] is the list of its Unicode code points;
    - a Python [int] is a [Z]; a Python [float] is an IEEE 754 binary64
      value, computed with the [SpecFloat] operations at precision 53;
    - a function that may raise returns a [result];
    - the SQLite file, the file system and the dialogs shown to the user
      are explicit state. *)

From Stdlib Require Import ZArith NArith List String Ascii Lia.
From Stdlib Require Import DecimalString DecimalPos DecimalZ.
From Stdlib Require Import Floats.SpecFloat.
From stdpp Require Import gmap list sorting.

Local Open Scope Z_scope.

(** ** Exceptions and results *)

Inductive exn :=
  | ValueError
  | OverflowError
  | OperationalError   (* sqlite3: no such table *)
  | DatabaseFull
  | UnicodeEncodeError.      (* sqlite3: SQLITE_FULL, no rowid left *)

Inductive result (A : Type) :=
  | Ok (a : A)
  | Raise (e : exn).
Arguments Ok {A} a.
Arguments Raise {A} e.

(** [result] is used with the monad notations [x ← r; k] of stdpp. *)
#[global] Instance result_ret : MRet result := λ A a, Ok a.
#[global] Instance result_bind : MBind result := λ A B k r,
  match r with
  | Ok a => k a
  | Raise e => Raise e
  end.

Definition is_ok {A} (r : result A) : bool :=
  match r with Ok _ => true | Raise _ => false end.

(** ** Python strings *)

Module Py.

Definition pystr := list N.

(** A literal of the source, whose characters are all ASCII. *)
Definition str (s : string) : pystr :=
  map N_of_ascii (list_ascii_of_string s).

Definition in_ranges (tbl : list (N * N)) (c : N) : bool :=
  existsb (λ r, (fst r <=? c)%N && (c <=? snd r)%N) tbl.

(** Code points for which [str.isspace] holds (Unicode 14). *)
Definition whitespace_ranges : list (N * N) :=
  [ (0x9, 0xd); (0x1c, 0x20); (0x85, 0x85); (0xa0, 0xa0);
    (0x1680, 0x1680); (0x2000, 0x200a); (0x2028, 0x2029);
    (0x202f, 0x202f); (0x205f, 0x205f); (0x3000, 0x3000) ]%N.

(** First code point (the zero) of every run of decimal digits,
    category Nd (Unicode 14): the characters [str.isdecimal] accepts and
    [int] converts. *)
Definition decimal_zeros : list N :=
  [ 0x30; 0x660; 0x6f0; 0x7c0; 0x966; 0x9e6; 0xa66; 0xae6; 0xb66; 0xbe6;
    0xc66; 0xce6; 0xd66; 0xde6; 0xe50; 0xed0; 0xf20; 0x1040; 0x1090;
    0x17e0; 0x1810; 0x1946; 0x19d0; 0x1a80; 0x1a90; 0x1b50; 0x1bb0;
    0x1c40; 0x1c50; 0xa620; 0xa8d0; 0xa900; 0xa9d0; 0xa9f0; 0xaa50;
    0xabf0; 0xff10; 0x104a0; 0x10d30; 0x11066; 0x110f0; 0x11136;
    0x111d0; 0x112f0; 0x11450; 0x114d0; 0x11650; 0x116c0; 0x11730;
    0x118e0; 0x11950; 0x11c50; 0x11d50; 0x11da0; 0x16a60; 0x16ac0;
    0x16b50; 0x1d7ce; 0x1d7d8; 0x1d7e2; 0x1d7ec; 0x1d7f6; 0x1e140;
    0x1e2f0; 0x1e950; 0x1fbf0 ]%N.

(** Characters with Numeric_Type=Digit that are not decimal: superscripts,
    subscripts, circled digits and the like (Unicode 14). [str.isdigit]
    accepts them, [int] does not. *)
Definition other_digit_ranges : list (N * N) :=
  [ (0xb2, 0xb3); (0xb9, 0xb9); (0x1369, 0x1371); (0x19da, 0x19da);
    (0x2070, 0x2070); (0x2074, 0x2079); (0x2080, 0x2089);
    (0x2460, 0x2468); (0x2474, 0x247c); (0x2488, 0x2490);
    (0x24ea, 0x24ea); (0x24f5, 0x24fd); (0x24ff, 0x24ff);
    (0x2776, 0x277e); (0x2780, 0x2788); (0x278a, 0x2792);
    (0x10a40, 0x10a43); (0x10e60, 0x10e68); (0x11052, 0x1105a);
    (0x1f100, 0x1f10a) ]%N.

Definition isspace_char (c : N) : bool := in_ranges whitespace_ranges c.

(** Value of a decimal digit character, if it is one. *)
Definition decimal_value (c : N) : option Z :=
  match List.find (λ z, (z <=? c)%N && (c <=? z + 9)%N) decimal_zeros with
  | Some z => Some (Z.of_N (c - z))
  | None => None
  end.

Definition isdecimal_char (c : N) : bool :=
  match decimal_value c with Some _ => true | None => false end.

Definition isdigit_char (c : N) : bool :=
  isdecimal_char c || in_ranges other_digit_ranges c.

(** [s.isdigit()]: every character is a digit and there is at least one. *)
Definition isdigit (s : pystr) : bool :=
  match s with
  | [] => false
  | _ => forallb isdigit_char s
  end.

Fixpoint lstrip (s : pystr) : pystr :=
  match s with
  | c :: r => if isspace_char c then lstrip r else s
  | [] => []
  end.

(** [s.strip()] *)
Definition strip (s : pystr) : pystr := rev (lstrip (rev (lstrip s))).

(** The white space [int] and [float] skip around a number: what
    [str.isspace] accepts, less the four separators U+001C to U+001F. *)
Definition isspace_number (c : N) : bool :=
  isspace_char c && negb ((0x1c <=? c)%N && (c <=? 0x1f)%N).

Fixpoint lstrip_number (s : pystr) : pystr :=
  match s with
  | c :: r => if isspace_number c then lstrip_number r else s
  | [] => []
  end.

Definition strip_number (s : pystr) : pystr :=
  rev (lstrip_number (rev (lstrip_number s))).

(** Digits of an [int] literal in base 10: decimal characters, single
    underscores allowed between two digits. [acc] is the value read so
    far, [prev] tells whether the previous character was a digit. *)
Fixpoint int_digits (s : pystr) (acc : Z) (prev : bool) : result Z :=
  match s with
  | [] => if prev then Ok acc else Raise ValueError
  | c :: r =>
      match decimal_value c with
      | Some d => int_digits r (10 * acc + d) true
      | None =>
          if (c =? 0x5f)%N && prev
          then match r with
               | [] => Raise ValueError
               | _ => int_digits r acc false
               end
          else Raise ValueError
      end
  end.

(** The limit on the number of digits of a decimal literal, as the
    interpreter starts with ([sys.get_int_max_str_digits()]). *)
Definition max_str_digits : nat := 4300.

Definition digit_count (s : pystr) : nat :=
  length (List.filter isdecimal_char s).

(** The digits of [int(s)], after the sign: more than [max_str_digits] of
    them are refused. *)
Definition int_literal (r : pystr) : result Z :=
  if (max_str_digits <? digit_count r)%nat then Raise ValueError
  else int_digits r 0 false.

(** [int(s)] for a string [s]: surrounding white space and one sign are
    allowed. *)
Definition int (s : pystr) : result Z :=
  match strip_number s with
  | 0x2b%N :: r => int_literal r
  | 0x2d%N :: r => n ← int_literal r; Ok (- n)
  | r => int_literal r
  end.

(** A text that can be encoded in UTF-8: it holds no surrogate, U+D800 to
    U+DFFF. *)
Definition encodable (s : pystr) : bool :=
  forallb (λ c, negb ((0xd800 <=? c)%N && (c <=? 0xdfff)%N)) s.

(** The text of an [int], its sign and its digits. *)
Definition str_of_int (n : Z) : pystr :=
  str (NilZero.string_of_int (Z.to_int n)).

(** The number of digits of that text. *)
Definition digits_of (n : Z) : nat := length (str_of_int (Z.abs n)).

(** [str(n)] for an [int]: more than [max_str_digits] digits are
    refused. *)
Definition str_int (n : Z) : result pystr :=
  if (max_str_digits <? digits_of n)%nat then Raise ValueError
  else Ok (str_of_int n).

(** Is [p] a prefix of [s]? *)
Fixpoint starts_with (p s : pystr) : bool :=
  match p, s with
  | [], _ => true
  | a :: p', b :: s' => (a =? b)%N && starts_with p' s'
  | _ :: _, [] => false
  end.

(** [s.split(sep)] for a non-empty separator: [skip] counts the remaining
    characters of a separator already recognised, [cur] is the piece being
    read, in reverse. *)
Fixpoint split_from (sep : pystr) (skip : nat) (cur : pystr) (s : pystr)
  : list pystr :=
  match s with
  | [] => [rev cur]
  | c :: r =>
      match skip with
      | S k => split_from sep k cur r
      | O =>
          if starts_with sep s
          then rev cur :: split_from sep (length sep - 1)%nat [] r
          else split_from sep O (c :: cur) r
      end
  end.

Definition split (sep s : pystr) : list pystr := split_from sep O [] s.

(** [sep.join(parts)] *)
Fixpoint join (sep : pystr) (parts : list pystr) : pystr :=
  match parts with
  | [] => []
  | [p] => p
  | p :: rest => p ++ sep ++ join sep rest
  end.

(** [s.replace(old, new)] for a non-empty [old]: the pieces between the
    occurrences of [old], put together with [new]. *)
Definition replace (old new s : pystr) : pystr := join new (split old s).

End Py.

Import Py.

(** ** Python floats *)

Module Float.

Definition float := spec_float.

Definition prec : Z := 53.
Definition emax : Z := 1024.

Definition add : float → float → float := SFadd prec emax.
Definition sub : float → float → float := SFsub prec emax.
Definition mul : float → float → float := SFmul prec emax.
Definition div : float → float → float := SFdiv prec emax.
Definition ltb : float → float → bool := SFltb.

(** The float nearest to an integer (ties to even), infinite when the
    integer is out of range. *)
Definition nearest (n : Z) : float := binary_normalize prec emax n 0 false.

(** Conversion of an [int] operand of a mixed operation: out of range it
    raises [OverflowError]. *)
Definition of_int (n : Z) : result float :=
  match nearest n with
  | S754_infinity _ => Raise OverflowError
  | x => Ok x
  end.

(** [x * n] for a float [x] and an int [n]. *)
Definition mul_int (x : float) (n : Z) : result float :=
  y ← of_int n; Ok (mul x y).

(** The float nearest to [(-1)^neg * m * 10^scale]. *)
Definition of_decimal (neg : bool) (m : Z) (scale : Z) : float :=
  match m with
  | Zpos p =>
      match scale with
      | Zneg _ =>
          match 10 ^ (- scale) with
          | Zpos q => div (S754_finite neg p 0) (S754_finite false q 0)
          | _ => S754_nan
          end
      | _ => nearest ((if neg then -1 else 1) * m * 10 ^ scale)
      end
  | _ => S754_zero neg
  end.

(** A maximal run of decimal digits: value, number of digits, rest. *)
Fixpoint read_digits (s : pystr) (acc : Z) (n : Z) : Z * Z * pystr :=
  match s with
  | c :: r =>
      match decimal_value c with
      | Some d => read_digits r (10 * acc + d) (n + 1)
      | None => (acc, n, s)
      end
  | [] => (acc, n, [])
  end.

Definition read_sign (s : pystr) : bool * pystr :=
  match s with
  | 0x2d%N :: r => (true, r)
  | 0x2b%N :: r => (false, r)
  | _ => (false, s)
  end.

Definition lower (s : pystr) : pystr :=
  map (λ c, if (0x41 <=? c)%N && (c <=? 0x5a)%N then (c + 0x20)%N else c) s.

(** The exponent part of a literal, if any: exponent and rest. *)
Definition read_exponent (s : pystr) : result (Z * pystr) :=
  match s with
  | c :: r =>
      if (c =? 0x65)%N || (c =? 0x45)%N
      then let '(neg, r1) := read_sign r in
           let '(e, n, r2) := read_digits r1 0 0 in
           if n =? 0 then Raise ValueError
           else Ok (if neg then - e else e, r2)
      else Ok (0, s)
  | [] => Ok (0, [])
  end.

(** A literal without white space around it nor underscores: a decimal
    number with optional fraction and exponent, or the name of an
    infinity or of NaN. *)
Definition of_literal (s : pystr) : result float :=
  let '(neg, t) := read_sign s in
  let name := lower t in
  if bool_decide (name = str "inf") || bool_decide (name = str "infinity")
  then Ok (S754_infinity neg)
  else if bool_decide (name = str "nan") then Ok S754_nan
  else
    let '(ip, ni, t1) := read_digits t 0 0 in
    let '(m, nf, t2) :=
      match t1 with
      | 0x2e%N :: r => read_digits r ip 0
      | _ => (ip, 0, t1)
      end in
    if ni + nf =? 0 then Raise ValueError
    else
      '(e, t3) ← read_exponent t2;
      match t3 with
      | [] => Ok (of_decimal neg m (e - nf))
      | _ => Raise ValueError
      end.

(** Underscores are allowed between two digits only: each one follows a
    digit and is followed by a digit. [prev] is the character before. *)
Fixpoint underscores_ok (prev : option N) (s : pystr) : bool :=
  match s with
  | [] => negb (bool_decide (prev = Some 0x5f%N))
  | c :: r =>
      (if (c =? 0x5f)%N
       then match prev with Some p => isdecimal_char p | None => false end
       else negb (bool_decide (prev = Some 0x5f%N)) || isdecimal_char c)
      && underscores_ok (Some c) r
  end.

(** [float(s)] for a string: the white space around the literal is
    skipped, the underscores are checked and taken out, and the rest is
    read. *)
Definition of_str (s : pystr) : result float :=
  let t := strip_number s in
  if underscores_ok None t
  then of_literal (List.filter (λ c, negb (c =? 0x5f)%N) t)
  else Raise ValueError.

(** A float literal of the source. *)
Definition lit (s : string) : float :=
  match of_str (str s) with
  | Ok x => x
  | Raise _ => S754_nan
  end.

(** [m * 2^e * 100] rounded to an integer, ties to even. *)
Definition round_cents (m : positive) (e : Z) : Z :=
  match e with
  | Zneg _ =>
      let d := 2 ^ (- e) in
      let q := (Zpos m * 100) / d in
      let r := (Zpos m * 100) mod d in
      match 2 * r ?= d with
      | Lt => q
      | Gt => q + 1
      | Eq => if Z.even q then q else q + 1
      end
  | _ => Zpos m * 100 * 2 ^ e
  end.

(** The digits of a non-negative number of cents, with the decimal
    point before the last two. *)
Definition show_cents (c : Z) : pystr :=
  let frac := str_of_int (c mod 100) in
  str_of_int (c / 100) ++ str "."
    ++ (if c mod 100 <? 10 then str "0" else []) ++ frac.

(** [f"{x:.2f}"] *)
Definition format_2f (x : float) : pystr :=
  match x with
  | S754_nan => str "nan"
  | S754_infinity s => (if s then str "-" else []) ++ str "inf"
  | S754_zero s => (if s then str "-" else []) ++ str "0.00"
  | S754_finite s m e =>
      (if s then str "-" else []) ++ show_cents (round_cents m e)
  end.

End Float.

Abbreviation float := Float.float.

(** ** db.py: the SQLite store *)

Module Db.

(** A row of [bills] and a row of [bill_items], without the [id] column:
    a table maps the value of its INTEGER PRIMARY KEY to the other
    columns. A REAL column holds the float it was given. (SQLite stores
    a NaN as NULL and gives -0.0 back as 0.0; neither comes from adding
    products of the prices of the catalogue with positive quantities.
    What is said of the value read back is said of the floats that
    [kept_by_real] accepts.) *)
Record bill := Bill {
  customer : pystr;
  date : pystr;
  total : float
}.

Record bill_item := BillItem {
  bill_id : Z;
  product : pystr;
  price : float;
  quantity : Z
}.

(** The floats a REAL column gives back as they were stored: all but NaN
    and -0.0. *)
Definition kept_by_real (x : float) : bool :=
  match x with
  | S754_nan | S754_zero true => false
  | _ => true
  end.

(** A table with an AUTOINCREMENT key: its rows, and the entry of
    [sqlite_sequence] for it, the largest key handed out so far. *)
Record table (R : Type) := Table {
  rows : gmap Z R;
  seq : Z
}.
Arguments Table {R} rows seq.
Arguments rows {R} t.
Arguments seq {R} t.

(** The content of the file [DB_FILE]. A table is [None] until it is
    created. *)
Record database := Database {
  bills : option (table bill);
  bill_items : option (table bill_item)
}.

(** A file that does not exist yet: [sqlite3.connect] creates it empty. *)
Definition no_tables : database := Database None None.

Definition max_int64 : Z := 2 ^ 63 - 1.
Definition min_int64 : Z := - 2 ^ 63.

(** A Python [int] is bound to a statement as a 64-bit integer. *)
Definition bind_int (n : Z) : result Z :=
  if (min_int64 <=? n) && (n <=? max_int64) then Ok n
  else Raise OverflowError.

(** A Python [str] is bound to a statement in UTF-8. *)
Definition bind_text (s : pystr) : result pystr :=
  if encodable s then Ok s else Raise UnicodeEncodeError.

(** Largest key of the rows, 0 for no row. *)
Definition max_rowid {R} (m : gmap Z R) : Z :=
  foldr Z.max 0 (map_to_list m).*1.

(** The largest key that ever was in the table. *)
Definition last_rowid {R} (t : table R) : Z :=
  Z.max (seq t) (max_rowid (rows t)).

(** INSERT of one row without its key: the key is one more than the
    largest key that ever was in the table. When that was the largest
    64-bit integer the insertion fails. *)
Definition insert {R} (t : table R) (r : R) : result (table R * Z) :=
  let last := last_rowid t in
  if max_int64 <=? last then Raise DatabaseFull
  else Ok (Table (<[last + 1 := r]> (rows t)) (last + 1), last + 1).

(** CREATE TABLE IF NOT EXISTS. (The FOREIGN KEY of [bill_items] is
    declared only: SQLite does not check it unless asked to.) *)
Definition create_if_not_exists {R} (t : option (table R))
  : option (table R) :=
  match t with
  | Some t => Some t
  | None => Some (Table ∅ 0)
  end.

Definition init_db (file : database) : database * result () :=
  let conn := file in
  let conn := Database (create_if_not_exists (bills conn)) (bill_items conn) in
  let conn := Database (bills conn) (create_if_not_exists (bill_items conn)) in
  (conn, Ok ()).

(** INSERT INTO bills (customer, date, total) VALUES (?, ?, ?), followed
    by [cur.lastrowid] *)
Definition insert_bill (conn : database) (customer date : pystr)
    (total : float) : result (database * Z) :=
  match bills conn with
  | None => Raise OperationalError
  | Some t =>
      customer ← bind_text customer;
      date ← bind_text date;
      '(t', id) ← insert t (Bill customer date total);
      Ok (Database (Some t') (bill_items conn), id)
  end.

(** INSERT INTO bill_items (bill_id, product, price, quantity)
    VALUES (?, ?, ?, ?) *)
Definition insert_item (conn : database) (bill_id : Z)
    (item : pystr * float * Z) : result database :=
  let '(product, price, quantity) := item in
  match bill_items conn with
  | None => Raise OperationalError
  | Some t =>
      b ← bind_int bill_id;
      product ← bind_text product;
      q ← bind_int quantity;
      '(t', _) ← insert t (BillItem b product price q);
      Ok (Database (bills conn) (Some t'))
  end.

(** The loop [for product, price, quantity in items] *)
Fixpoint insert_items (conn : database) (bill_id : Z)
    (items : list (pystr * float * Z)) : result database :=
  match items with
  | [] => Ok conn
  | item :: rest =>
      conn' ← insert_item conn bill_id item;
      insert_items conn' bill_id rest
  end.

(** [add_bill]: the statements run on the connection; the file changes
    at [conn.commit()] only. When a statement raises, the function is
    left before the commit and what the connection did is discarded. *)
Definition add_bill (file : database) (customer date : pystr)
    (total : float) (items : list (pystr * float * Z))
  : database * result Z :=
  let conn := file in
  match ('(conn, bill_id) ← insert_bill conn customer date total;
         conn ← insert_items conn bill_id items;
         Ok (conn, bill_id)) with
  | Ok (conn, bill_id) => (conn, Ok bill_id)
  | Raise e => (file, Raise e)
  end.

Definition by_id_desc {R} : relation (Z * R) := λ a b, b.1 ≤ a.1.
Definition by_id_asc {R} : relation (Z * R) := λ a b, a.1 ≤ b.1.

#[global] Instance by_id_desc_dec {R} (a b : Z * R) :
  Decision (by_id_desc a b) := Z_le_dec b.1 a.1.
#[global] Instance by_id_asc_dec {R} (a b : Z * R) :
  Decision (by_id_asc a b) := Z_le_dec a.1 b.1.

Definition bill_tuple : Type := Z * pystr * pystr * float.

Definition bill_row (kr : Z * bill) : bill_tuple :=
  (kr.1, customer kr.2, date kr.2, total kr.2).

(** SELECT id, customer, date, total FROM bills ORDER BY id DESC *)
Definition fetch_bills (file : database) : result (list bill_tuple) :=
  match bills file with
  | None => Raise OperationalError
  | Some t => Ok (bill_row <$> merge_sort by_id_desc (map_to_list (rows t)))
  end.

Definition item_row (kr : Z * bill_item) : pystr * float * Z :=
  (product kr.2, price kr.2, quantity kr.2).

(** SELECT product, price, quantity FROM bill_items WHERE bill_id = ?
    The statement has no ORDER BY: the rows come in the order of the
    scan of the table, by increasing key. *)
Definition fetch_bill_items (file : database) (id : Z)
  : result (list (pystr * float * Z)) :=
  match bill_items file with
  | None => Raise OperationalError
  | Some t =>
      b ← bind_int id;
      Ok (item_row <$>
            filter (λ kr, bill_id kr.2 = b)
                   (merge_sort by_id_asc (map_to_list (rows t))))
  end.

End Db.

(** ** The file system *)

Module Os.

(** A relative path, as its components. *)
Definition path : Type := list pystr.

(** [os.path.join(a, b)] for a directory name and a file name. *)
Definition path_join (a b : pystr) : path := [a; b].

(** A path as POSIX writes it. *)
Fixpoint show_path (p : path) : pystr :=
  match p with
  | [] => []
  | [a] => a
  | a :: r => a ++ str "/" ++ show_path r
  end.

Section Files.
(** What a file holds. *)
Context {content : Type}.

Record filesystem := Filesystem {
  dirs : gset path;
  files : gmap path content
}.

(** [os.makedirs(d, exist_ok=True)] for a single directory name, where
    it succeeds: that no regular file has this name is taken for granted,
    as permissions are; [FileExistsError] is not part of the embedding. *)
Definition makedirs (fs : filesystem) (d : pystr) : filesystem :=
  Filesystem ({[ [d] ]} ∪ dirs fs) (files fs).

(** Writing a file replaces what the path held. (Writing succeeds:
    permissions and disk space are not part of the embedding.) *)
Definition write (fs : filesystem) (p : path) (c : content) : filesystem :=
  Filesystem (dirs fs) (<[p := c]> (files fs)).

(** [os.path.exists(p)] *)
Definition exists_ (fs : filesystem) (p : path) : bool :=
  bool_decide (is_Some (files fs !! p)) || bool_decide (p ∈ dirs fs).
End Files.
Arguments filesystem content : clear implicits.

End Os.

(** ** invoice.py: the PDF invoice *)

Module Invoice.

(** What the canvas is asked to do. The document saved is the list of
    these operations, in order. *)
Inductive op :=
  | setFont (name : pystr) (size : Z)
  | drawString (x : Z) (y : float) (text : pystr)
  | showPage.

Definition document : Type := list op.

Abbreviation filesystem := (Os.filesystem document).

(** [reportlab.lib.units] and [reportlab.lib.pagesizes] *)
Definition inch : float := Float.lit "72.0".
Definition cm : float := Float.div inch (Float.lit "2.54").
Definition mm : float := Float.mul cm (Float.lit "0.1").
Definition A4 : float * float :=
  (Float.mul (Float.nearest 210) mm, Float.mul (Float.nearest 297) mm).

Definition height : float := Eval vm_compute in snd A4.

(** [y - n] and [y < n] for an integer constant [n] of the source. *)
Definition minus (y : float) (n : Z) : float := Float.sub y (Float.nearest n).
Definition below (y : float) (n : Z) : bool := Float.ltb y (Float.nearest n).

Definition item : Type := pystr * float * Z.

(** The name of the file of a bill. *)
Definition invoice_path (bill_id : Z) : Os.path :=
  Os.path_join (str "invoices")
               (str "invoice_" ++ str_of_int bill_id ++ str ".pdf").

(** What is drawn before the table rows. *)
Definition header (bill_id : Z) (customer date : pystr) : document :=
  [ setFont (str "Helvetica-Bold") 16;
    drawString 180 (minus height 50) (str "Tech & Electronics Invoice");
    setFont (str "Helvetica") 12;
    drawString 50 (minus height 100) (str "Bill ID: " ++ str_of_int bill_id);
    drawString 50 (minus height 120) (str "Customer: " ++ customer);
    drawString 50 (minus height 140) (str "Date: " ++ date);
    drawString 50 (minus height 180) (str "Product");
    drawString 300 (minus height 180) (str "Price");
    drawString 400 (minus height 180) (str "Quantity");
    drawString 500 (minus height 180) (str "Subtotal") ].

(** The four texts of the row of an item: [str(quantity)] raises when
    the quantity has too many digits, and the subtotal
    [price * quantity], which comes after it, when the quantity is too
    large for a float. *)
Definition row (y : float) (it : item) : result document :=
  let '(product, price, quantity) := it in
  quantity_text ← str_int quantity;
  subtotal ← Float.mul_int price quantity;
  Ok [ drawString 50 y product;
       drawString 300 y (str "$" ++ Float.format_2f price);
       drawString 400 y quantity_text;
       drawString 500 y (str "$" ++ Float.format_2f subtotal) ].

(** The loop over the items: [c] is what was drawn so far, [y] the
    vertical position of the next row. *)
Fixpoint draw_items (items : list item) (y : float) (c : document)
  : result (float * document) :=
  match items with
  | [] => Ok (y, c)
  | it :: rest =>
      r ← row y it;
      let c := c ++ r in
      let y := minus y 20 in
      if below y 100
      then draw_items rest (minus height 50) (c ++ [showPage])
      else draw_items rest y c
  end.

(** What is drawn after the loop, from the position [y] it ended at. *)
Definition footer (y : float) (total : float) : document :=
  [ setFont (str "Helvetica-Bold") 12;
    drawString 50 (minus y 30)
               (str "Grand Total: $" ++ Float.format_2f total) ].

(** The whole drawing, up to [c.save()]. *)
Definition render (bill_id : Z) (customer date : pystr) (total : float)
    (items : list item) : result document :=
  '(y, c) ← draw_items items (minus height 200) (header bill_id customer date);
  Ok (c ++ footer y total).

(** [generate_invoice]: the directory is made first; the file is written
    by [c.save()], the last statement before the return. *)
Definition generate_invoice (fs : filesystem) (bill_id : Z)
    (customer date : pystr) (total : float) (items : list item)
  : filesystem * result Os.path :=
  let fs := Os.makedirs fs (str "invoices") in
  let filename := invoice_path bill_id in
  match render bill_id customer date total items with
  | Ok c => (Os.write fs filename c, Ok filename)
  | Raise e => (fs, Raise e)
  end.

End Invoice.

(** ** gui.py: the application state and its event handlers *)

Module Gui.

(** What the handlers show or start. *)
Inductive event :=
  | showerror (title message : pystr)
  | showinfo (title message : pystr)
  | open_viewer (p : Os.path).

Definition cart_line : Type := pystr * float * Z.

(** The fields of [BillApp] the handlers read or write, with the content
    of the widgets. *)
Record BillApp := {
  cart : list cart_line;
  selected_bill : option Db.bill_tuple;
  customer_entry : pystr;
  product_var : pystr;
  qty_entry : pystr;
  cart_list : list pystr;
  bills_tree : list (Z * pystr * pystr * pystr)
}.

(** The application with what is around it: the database file, the file
    system, and what was shown so far (latest last). *)
Record world := World {
  app : BillApp;
  store : Db.database;
  disk : Invoice.filesystem;
  shown : list event
}.

Definition set_app (w : world) (a : BillApp) : world :=
  World a (store w) (disk w) (shown w).
Definition set_store (w : world) (s : Db.database) : world :=
  World (app w) s (disk w) (shown w).
Definition set_disk (w : world) (d : Invoice.filesystem) : world :=
  World (app w) (store w) d (shown w).
Definition show (w : world) (e : event) : world :=
  World (app w) (store w) (disk w) (shown w ++ [e]).

(** A handler returns the world it leaves, and [Raise e] when [e]
    escapes it. *)
Definition handler : Type := world → world * result ().

(** A text in the place of [str(e)]: the text of an exception depends on
    more than its class, and is not part of the embedding. A dialog that
    quotes [str(e)] is known by its title and by the fixed beginning of
    its message. *)
Definition exn_str (e : exn) : pystr :=
  match e with
  | ValueError => str "invalid literal"
  | OverflowError => str "int too large to convert"
  | OperationalError => str "no such table"
  | DatabaseFull => str "database or disk is full"
  | UnicodeEncodeError => str "surrogates not allowed"
  end.

(** The values of the product drop-down. *)
Definition products : list pystr :=
  [ str "Laptop - 800.00";
    str "Smartphone - 500.00";
    str "Tablet - 300.00";
    str "Headphones - 100.00";
    str "Smartwatch - 150.00";
    str "Gaming Console - 600.00";
    str "4K Monitor - 400.00";
    str "Mechanical Keyboard - 120.00";
    str "Wireless Mouse - 40.00";
    str "External Hard Drive - 120.00" ].

(** [name, price_str = product_text.split(" - "); price = float(price_str)] *)
Definition parse_product (product_text : pystr) : result (pystr * float) :=
  match split (str " - ") product_text with
  | [name; price_str] => price ← Float.of_str price_str; Ok (name, price)
  | _ => Raise ValueError
  end.

(** [not qty_text.isdigit() or int(qty_text) <= 0] *)
Definition invalid_quantity (qty_text : pystr) : result bool :=
  if negb (isdigit qty_text) then Ok true
  else n ← int qty_text; Ok (n <=? 0).

(** The line of the list box for a cart line. *)
Definition cart_text (name : pystr) (qty : Z) (subtotal : float) : pystr :=
  name ++ [0x20; 0xd7; 0x20]%N ++ str_of_int qty
       ++ [0x20; 0x2192; 0x20]%N ++ str "$" ++ Float.format_2f subtotal.

Definition add_to_cart : handler := λ w,
  let a := app w in
  let product_text := product_var a in
  let qty_text := qty_entry a in
  match product_text with
  | [] => (show w (showerror (str "Error") (str "Please select a product.")),
           Ok ())
  | _ =>
  match invalid_quantity qty_text with
  | Raise e => (w, Raise e)
  | Ok true =>
      (show w (showerror (str "Error")
                 (str "Please enter a valid quantity (1 or more).")), Ok ())
  | Ok false =>
  match int qty_text with
  | Raise e => (w, Raise e)
  | Ok qty =>
  match parse_product product_text with
  | Raise ValueError =>
      (show w (showerror (str "Error")
                 (str "Could not parse product information. Please select a valid product.")),
       Ok ())
  | Raise e => (w, Raise e)
  | Ok (name, price) =>
      let a := {| cart := cart a ++ [(name, price, qty)];
                  selected_bill := selected_bill a;
                  customer_entry := customer_entry a;
                  product_var := product_var a;
                  qty_entry := qty_entry a;
                  cart_list := cart_list a;
                  bills_tree := bills_tree a |} in
      match Float.mul_int price qty with
      | Raise e => (set_app w a, Raise e)
      | Ok subtotal =>
          let a := {| cart := cart a;
                      selected_bill := selected_bill a;
                      customer_entry := customer_entry a;
                      product_var := product_var a;
                      qty_entry := str "1";
                      cart_list := cart_list a ++ [cart_text name qty subtotal];
                      bills_tree := bills_tree a |} in
          (set_app w a, Ok ())
      end
  end end end end.

(** [sum(price * qty for _, price, qty in self.cart)]: the products are
    added one after the other, from 0. (An interpreter that compensates
    the rounding of these additions returns the same float whenever none
    of them rounds.) *)
Fixpoint sum_from (acc : float) (lines : list cart_line) : result float :=
  match lines with
  | [] => Ok acc
  | (_, price, qty) :: rest =>
      x ← Float.mul_int price qty;
      sum_from (Float.add acc x) rest
  end.

Definition cart_total (lines : list cart_line) : result float :=
  sum_from (S754_zero false) lines.

Definition tree_row (r : Db.bill_tuple) : Z * pystr * pystr * pystr :=
  let '(bid, customer, date_str, total) := r in
  (bid, customer, date_str, str "$" ++ Float.format_2f total).

Definition load_bills (w : world) : world :=
  match Db.fetch_bills (store w) with
  | Ok rows =>
      let a := app w in
      set_app w {| cart := cart a;
                   selected_bill := selected_bill a;
                   customer_entry := customer_entry a;
                   product_var := product_var a;
                   qty_entry := qty_entry a;
                   cart_list := cart_list a;
                   bills_tree := tree_row <$> rows |}
  | Raise e =>
      show w (showerror (str "Error")
                (str "Failed to load bills: " ++ exn_str e))
  end.

(** [save_bill]; [now] is [datetime.now()] formatted. *)
Definition save_bill (now : pystr) : handler := λ w,
  let a := app w in
  let customer := strip (customer_entry a) in
  match customer with
  | [] => (show w (showerror (str "Error")
                     (str "Please enter a customer name.")), Ok ())
  | _ =>
  match cart a with
  | [] => (show w (showerror (str "Error")
                     (str "Your cart is empty. Add some products first.")),
           Ok ())
  | _ =>
  let date_str := now in
  match cart_total (cart a) with
  | Raise e => (w, Raise e)
  | Ok total =>
  match Db.add_bill (store w) customer date_str total (cart a) with
  | (file, Ok bill_id) =>
      let w := set_store w file in
      let w := show w (showinfo (str "Bill Saved")
                 (str "Bill #" ++ str_of_int bill_id
                    ++ str " saved successfully. Total: $"
                    ++ Float.format_2f total)) in
      let a := {| cart := [];
                  selected_bill := Some (bill_id, customer, date_str, total);
                  customer_entry := [];
                  product_var := product_var a;
                  qty_entry := qty_entry a;
                  cart_list := [];
                  bills_tree := bills_tree a |} in
      (load_bills (set_app w a), Ok ())
  | (file, Raise e) =>
      (show (set_store w file)
            (showerror (str "Database Error")
               (str "Failed to save bill: " ++ exn_str e)), Ok ())
  end end end end.

(** The bill the two invoice handlers work on: the selected one, or else
    the first row of [fetch_bills]; [None] when there is no row. *)
Definition current_bill (w : world) : result (option Db.bill_tuple) :=
  match selected_bill (app w) with
  | Some b => Ok (Some b)
  | None => rows ← Db.fetch_bills (store w); Ok (head rows)
  end.

(** [items = fetch_bill_items(bid); generate_invoice(...)] *)
Definition export (w : world) (b : Db.bill_tuple)
  : world * result Os.path :=
  let '(bid, customer, date_str, total) := b in
  match Db.fetch_bill_items (store w) bid with
  | Raise e => (w, Raise e)
  | Ok items =>
      let '(fs, r) :=
        Invoice.generate_invoice (disk w) bid customer date_str total items in
      (set_disk w fs, r)
  end.

Definition export_invoice : handler := λ w,
  match current_bill w with
  | Raise e => (w, Raise e)
  | Ok None =>
      (show w (showerror (str "Error") (str "No bills found in database.")),
       Ok ())
  | Ok (Some b) =>
      match export w b with
      | (w, Ok filename) =>
          (show w (showinfo (str "Export Successful")
                     (str "Invoice saved as:" ++ [0xa%N]
                        ++ Os.show_path filename)), Ok ())
      | (w, Raise e) =>
          (show w (showerror (str "Export Error")
                     (str "Failed to generate invoice: " ++ exn_str e)),
           Ok ())
      end
  end.

(** [open_invoice_external], up to the call of the viewer of the host. *)
Definition open_invoice_external : handler := λ w,
  match current_bill w with
  | Raise e => (w, Raise e)
  | Ok None =>
      (show w (showerror (str "Error") (str "No bills found in database.")),
       Ok ())
  | Ok (Some b) =>
      let invoice_path := Invoice.invoice_path b.1.1.1 in
      let generated :=
        if Os.exists_ (disk w) invoice_path then (w, Ok invoice_path)
        else export w b in
      match generated with
      | (w, Raise e) =>
          (show w (showerror (str "Error")
                     (str "Failed to generate invoice: " ++ exn_str e)),
           Ok ())
      | (w, Ok _) =>
          if Os.exists_ (disk w) invoice_path
          then (show w (open_viewer invoice_path), Ok ())
          else (show w (showerror (str "Error")
                          (str "Invoice file missing for bill #"
                             ++ str_of_int b.1.1.1)), Ok ())
      end
  end.

(** The body of the [try] of [on_bill_select]: [vals] are the values the
    widget holds for the selected row. *)
Definition parse_bill (vals : pystr * pystr * pystr * pystr)
  : result Db.bill_tuple :=
  let '(v0, v1, v2, v3) := vals in
  bid ← int v0;
  let customer := v1 in
  let date_str := v2 in
  total ← Float.of_str (replace (str "$") [] (strip v3));
  Ok (bid, customer, date_str, total).

Definition set_selected (w : world) (b : option Db.bill_tuple) : world :=
  let a := app w in
  set_app w {| cart := cart a;
               selected_bill := b;
               customer_entry := customer_entry a;
               product_var := product_var a;
               qty_entry := qty_entry a;
               cart_list := cart_list a;
               bills_tree := bills_tree a |}.

(** [on_bill_select]; [sel] is [self.bills_tree.selection()], each item
    given by its values. *)
Definition on_bill_select (sel : list (pystr * pystr * pystr * pystr))
  : handler := λ w,
  match sel with
  | [] => (set_selected w None, Ok ())
  | vals :: _ =>
      match parse_bill vals with
      | Ok b => (set_selected w (Some b), Ok ())
      | Raise ValueError =>
          (set_selected
             (show w (showerror (str "Error")
                        (str "Failed to parse bill information: "
                           ++ exn_str ValueError)))
             None,
           Ok ())
      | Raise e => (w, Raise e)
      end
  end.

(** [BillApp.__init__]: the state after the window is built. *)
Definition init (file : Db.database) (fs : Invoice.filesystem) : world :=
  let '(file, _) := Db.init_db file in
  load_bills
    (World {| cart := [];
              selected_bill := None;
              customer_entry := [];
              product_var := hd [] products;
              qty_entry := str "1";
              cart_list := [];
              bills_tree := [] |}
           file fs []).

End Gui.

(** ** Vocabulary of the properties *)

Module Spec.

Import Db.

(** The store holds the row [r] under the key [k]. *)
Definition has_bill (file : database) (k : Z) (r : bill) : Prop :=
  ∃ t, bills file = Some t ∧ rows t !! k = Some r.

Definition has_item (file : database) (k : Z) (r : bill_item) : Prop :=
  ∃ t, bill_items file = Some t ∧ rows t !! k = Some r.

(** Both tables exist. *)
Definition initialized (file : database) : Prop :=
  is_Some (bills file) ∧ is_Some (bill_items file).

(** The identifier of a row of [fetch_bills]. *)
Definition id_of (b : bill_tuple) : Z := b.1.1.1.

(** The row of [bill_items] a cart line becomes in the bill [bid]. *)
Definition item_of (bid : Z) (line : pystr * float * Z) : bill_item :=
  BillItem bid line.1.1 line.1.2 line.2.

(** A call of the persistence API. *)
Inductive call :=
  | call_init_db
  | call_add_bill (customer date : pystr) (total : float)
                  (items : list (pystr * float * Z))
  | call_fetch_bills
  | call_fetch_bill_items (id : Z).

(** The store a call leaves. The two queries only read. *)
Definition after (file : database) (c : call) : database :=
  match c with
  | call_init_db => (init_db file).1
  | call_add_bill customer date total items =>
      (add_bill file customer date total items).1
  | call_fetch_bills => file
  | call_fetch_bill_items _ => file
  end.

Definition after_all (file : database) (cs : list call) : database :=
  foldl after file cs.

(** What the engine keeps true of the file once the tables are made: the
    keys of [bills] and the quantities of [bill_items] are 64-bit
    integers, as INTEGER columns hold them. *)
Definition well_formed (file : database) : Prop :=
  initialized file
  ∧ (∀ k r, has_bill file k r → min_int64 ≤ k ≤ max_int64)
  ∧ (∀ k r, has_item file k r → min_int64 ≤ quantity r ≤ max_int64).

(** The quantities of the items can be multiplied by a price. *)
Definition printable (items : list Invoice.item) : Prop :=
  Forall (λ it, is_ok (Float.of_int it.2) = true) items.

(** Layout of the invoice: the position that follows a row drawn at [y],
    and the position of the [i]-th row. *)
Definition breaks_after (y : float) : bool :=
  Invoice.below (Invoice.minus y 20) 100.

Definition next_position (y : float) : float :=
  if breaks_after y then Invoice.minus Invoice.height 50
  else Invoice.minus y 20.

Definition position (i : nat) : float :=
  Nat.iter i next_position (Invoice.minus Invoice.height 200).

(** The customer name after trimming, and the success of a save: the
    dialog "Bill Saved" is the last thing shown. *)
Definition customer_name (w : Gui.world) : pystr :=
  strip (Gui.customer_entry (Gui.app w)).

Definition bill_saved (w w' : Gui.world) : Prop :=
  ∃ msg, Gui.shown w' = Gui.shown w ++ [Gui.showinfo (str "Bill Saved") msg].

(** The sum of price times quantity over the lines of a cart: the
    product of each line, a float times the quantity as a float, added
    to the sum so far, which starts at 0. *)
Definition amount (line : Gui.cart_line) : float :=
  Float.mul line.1.2 (Float.nearest line.2).

Definition sum_of_products (lines : list Gui.cart_line) : float :=
  foldl (λ sum line, Float.add sum (amount line)) (S754_zero false) lines.

(** A handler rejected what was asked: it returned after showing an error
    dialog, and changed nothing else: not the cart nor any other field of
    the application, not the store, not the files. *)
Definition rejected (w : Gui.world) (out : Gui.world * result ()) : Prop :=
  out.2 = Ok ()
  ∧ Gui.app out.1 = Gui.app w
  ∧ Gui.store out.1 = Gui.store w
  ∧ Gui.disk out.1 = Gui.disk w
  ∧ ∃ title msg,
      Gui.shown out.1 = Gui.shown w ++ [Gui.showerror title msg].

(** The code points of a table of ranges, listed. *)
Definition points (tbl : list (N * N)) : list N :=
  tbl ≫= λ r,
    N.of_nat <$> List.seq (N.to_nat r.1) (N.to_nat r.2 + 1 - N.to_nat r.1)%nat.

(** The number a string of decimal digits writes, after [acc]. *)
Definition number (acc : Z) (s : pystr) : Z :=
  foldl (λ a c, 10 * a + default 0 (decimal_value c)) acc s.

(** The files after the invoice [doc] of the bill [b] is written. *)
Definition invoice_written (fs : Invoice.filesystem) (b : bill_tuple)
    (doc : Invoice.document) : Invoice.filesystem :=
  Os.write (Os.makedirs fs (str "invoices")) (Invoice.invoice_path (id_of b))
           doc.

(** The two invoice handlers work on the bill [b]: its items are read
    and rendered; [export_invoice] writes the invoice and says so;
    [open_invoice_external] writes it unless the path exists already,
    and opens it. Nothing else changes. *)
Definition exports (w : Gui.world) (b : bill_tuple) : Prop :=
  ∃ items doc,
    fetch_bill_items (Gui.store w) (id_of b) = Ok items
    ∧ Invoice.render (id_of b) b.1.1.2 b.1.2 b.2 items = Ok doc
    ∧ (∃ msg,
         Gui.export_invoice w
         = (Gui.World (Gui.app w) (Gui.store w)
              (invoice_written (Gui.disk w) b doc)
              (Gui.shown w
                 ++ [Gui.showinfo (str "Export Successful") msg]),
            Ok ()))
    ∧ Gui.open_invoice_external w
      = (Gui.World (Gui.app w) (Gui.store w)
           (if Os.exists_ (Gui.disk w) (Invoice.invoice_path (id_of b))
            then Gui.disk w
            else invoice_written (Gui.disk w) b doc)
           (Gui.shown w
              ++ [Gui.open_viewer (Invoice.invoice_path (id_of b))]),
         Ok ()).

(** A stored row, of either table. *)
Inductive stored_row :=
  | bill_at (k : Z) (r : bill)
  | item_at (k : Z) (r : bill_item).

Definition stored (file : database) (row : stored_row) : Prop :=
  match row with
  | bill_at k r => has_bill file k r
  | item_at k r => has_item file k r
  end.

(** Every item belongs to a stored bill. *)
Definition referential (file : database) : Prop :=
  ∀ k r, has_item file k r → ∃ b, has_bill file (bill_id r) b.

(** The text of the list box for a cart line. *)
Definition line_text (line : Gui.cart_line) : result pystr :=
  subtotal ← Float.mul_int line.1.2 line.2;
  Ok (Gui.cart_text line.1.1 line.2 subtotal).

(** The list box shows the cart: one text per line, in order. *)
Definition in_sync (a : Gui.BillApp) : Prop :=
  Forall2 (λ line text, line_text line = Ok text)
          (Gui.cart a) (Gui.cart_list a).

(** What the user does between two calls of the handlers: typing in the
    two entries, picking a product in the drop-down. (The drop-down is
    read-only and offers [Gui.products]; any text is allowed for here.) *)
Definition edit_customer (text : pystr) : Gui.handler := λ w,
  let a := Gui.app w in
  (Gui.set_app w {| Gui.cart := Gui.cart a;
                    Gui.selected_bill := Gui.selected_bill a;
                    Gui.customer_entry := text;
                    Gui.product_var := Gui.product_var a;
                    Gui.qty_entry := Gui.qty_entry a;
                    Gui.cart_list := Gui.cart_list a;
                    Gui.bills_tree := Gui.bills_tree a |}, Ok ()).

Definition edit_quantity (text : pystr) : Gui.handler := λ w,
  let a := Gui.app w in
  (Gui.set_app w {| Gui.cart := Gui.cart a;
                    Gui.selected_bill := Gui.selected_bill a;
                    Gui.customer_entry := Gui.customer_entry a;
                    Gui.product_var := Gui.product_var a;
                    Gui.qty_entry := text;
                    Gui.cart_list := Gui.cart_list a;
                    Gui.bills_tree := Gui.bills_tree a |}, Ok ()).

Definition choose_product (text : pystr) : Gui.handler := λ w,
  let a := Gui.app w in
  (Gui.set_app w {| Gui.cart := Gui.cart a;
                    Gui.selected_bill := Gui.selected_bill a;
                    Gui.customer_entry := Gui.customer_entry a;
                    Gui.product_var := text;
                    Gui.qty_entry := Gui.qty_entry a;
                    Gui.cart_list := Gui.cart_list a;
                    Gui.bills_tree := Gui.bills_tree a |}, Ok ()).

(** The events of the application: the four buttons, a selection in the
    history, and the inputs of the user. *)
Inductive action :=
  | do_add_to_cart
  | do_save_bill (now : pystr)
  | do_export_invoice
  | do_open_invoice_external
  | do_bill_select (sel : list (pystr * pystr * pystr * pystr))
  | do_edit_customer (text : pystr)
  | do_edit_quantity (text : pystr)
  | do_choose_product (text : pystr).

Definition run (a : action) : Gui.handler :=
  match a with
  | do_add_to_cart => Gui.add_to_cart
  | do_save_bill now => Gui.save_bill now
  | do_export_invoice => Gui.export_invoice
  | do_open_invoice_external => Gui.open_invoice_external
  | do_bill_select sel => Gui.on_bill_select sel
  | do_edit_customer text => edit_customer text
  | do_edit_quantity text => edit_quantity text
  | do_choose_product text => choose_product text
  end.

(** The application after a list of events, each handled in the state
    the one before left. (An exception that escapes a handler is reported
    by the toolkit, and the loop goes on.) *)
Definition session (w : Gui.world) (events : list action) : Gui.world :=
  foldl (λ w a, (run a w).1) w events.

(** The history lists the bills of the store, newest first. *)
Definition history_shown (w : Gui.world) : Prop :=
  ∃ rows, fetch_bills (Gui.store w) = Ok rows
    ∧ Gui.bills_tree (Gui.app w) = Gui.tree_row <$> rows.

(** main.py: the application is built, then the event loop runs. *)
Definition main (file : database) (fs : Invoice.filesystem)
    (events : list action) : Gui.world :=
  session (Gui.init file fs) events.

(** A text is placed on the page: not under 70, not over the line of the
    title, 50 under the top. *)
Definition on_page (o : Invoice.op) : Prop :=
  match o with
  | Invoice.drawString _ y _ =>
      Invoice.below y 70 = false
      ∧ Float.ltb (Invoice.minus Invoice.height 50) y = false
  | _ => True
  end.

(** The characters of a decimal numeral, and the digits 0 to 9. *)
Definition digits (d : Decimal.uint) : pystr :=
  str (NilEmpty.string_of_uint d).

Definition ascii_digit (c : N) : bool := (0x30 <=? c)%N && (c <=? 0x39)%N.

(** A character of the text of a number: a digit, the sign or the point. *)
Definition numeral_char (c : N) : bool :=
  ascii_digit c || (c =? 0x2d)%N || (c =? 0x2e)%N.

(** The cents of a float, as [f"{x:.2f}"] rounds them, with the sign. *)
Definition cents (x : float) : option (bool * Z) :=
  match x with
  | S754_finite s m e => Some (s, Float.round_cents m e)
  | S754_zero s => Some (s, 0)
  | _ => None
  end.

(** What [float] reads from the text [f"{x:.2f}"]: the float nearest to
    the cents of [x], and [x] itself when [x] is infinite or not a
    number. *)
Definition to_cents (x : float) : float :=
  match cents x with
  | Some (s, c) => Float.of_decimal s c (-2)
  | None => x
  end.

End Spec.

Import Spec.

(** Concrete data for the examples. *)
Module Sample.

Definition laptop : pystr * float * Z := (str "Laptop", Float.lit "800.00", 2).
Definition mouse : pystr * float * Z :=
  (str "Wireless Mouse", Float.lit "40.00", 3).

Definition ann : Db.bill :=
  Db.Bill (str "Ann") (str "2024-01-01 10:00:00") (Float.lit "1720.0").
Definition bob : Db.bill :=
  Db.Bill (str "Bob") (str "2024-01-02 11:30:00") (Float.lit "800.0").

(** A store with two bills and the three items of them. *)
Definition store : Db.database :=
  Db.Database
    (Some (Db.Table {[ 1 := ann; 2 := bob ]} 2))
    (Some (Db.Table {[ 1 := item_of 1 laptop; 2 := item_of 1 mouse;
                       3 := Db.BillItem 2 (str "Laptop") (Float.lit "800.00") 1 ]}
                    3)).

Definition disk : Invoice.filesystem := Os.Filesystem ∅ ∅.

(** The application with the given cart and content of the entries, no
    bill selected, on the store above. *)
Definition world (lines : list Gui.cart_line) (customer qty : pystr)
  : Gui.world :=
  Gui.World {| Gui.cart := lines;
               Gui.selected_bill := None;
               Gui.customer_entry := customer;
               Gui.product_var := str "Laptop - 800.00";
               Gui.qty_entry := qty;
               Gui.cart_list := [];
               Gui.bills_tree := [] |}
            store disk [].

End Sample.

(** * Properties *)

(** ** The store *)

Section Store.
Import Db.
Context {R : Type}.
Implicit Types (m : gmap Z R) (t : table R).

Lemma max_rowid_ge m k r : m !! k = Some r → k ≤ max_rowid m.
Proof.
  intros Hk. unfold max_rowid.
  assert (Hin : k ∈ (map_to_list m).*1).
  { apply list_elem_of_fmap. exists (k, r). split; [done|].
    by apply elem_of_map_to_list. }
  revert Hin. generalize ((map_to_list m).*1). intros l Hin.
  clear Hk. induction Hin as [k l|k j l _ IH]; simpl; lia.
Qed.

Lemma max_rowid_nonneg m : 0 ≤ max_rowid m.
Proof. unfold max_rowid. induction ((map_to_list m).*1); simpl; lia. Qed.

(** What a successful insertion does: a new key, above every key of the
    table, and nothing else changes. *)
Lemma insert_Ok t r t' k :
  insert t r = Ok (t', k) →
  rows t !! k = None ∧ rows t' = <[k := r]> (rows t) ∧ seq t' = k
  ∧ k = last_rowid t + 1 ∧ k ≤ max_int64.
Proof.
  unfold insert, last_rowid. case_match eqn:Hfull; [done|].
  intros [= <- <-]. simpl. apply Z.leb_gt in Hfull.
  split_and!; try done; try lia.
  destruct (rows t !! _) eqn:Hk; [|done].
  apply max_rowid_ge in Hk. lia.
Qed.

Lemma insert_keeps t r t' k j x :
  insert t r = Ok (t', k) → rows t !! j = Some x → rows t' !! j = Some x.
Proof.
  intros (Hnew & -> & _)%insert_Ok Hj.
  rewrite lookup_insert_ne; [done|congruence].
Qed.
End Store.

Section Persistence.
Import Db.

Lemma init_db_tables file : initialized (init_db file).1.
Proof. destruct file as [[b|] [i|]]; split; simpl; eauto. Qed.

Lemma init_db_initialized file :
  initialized file → init_db file = (file, Ok ()).
Proof.
  destruct file as [b i]. intros [[tb Hb] [ti Hi]]. simpl in *. by subst.
Qed.

Lemma init_db_keeps_bill file k r :
  has_bill file k r → has_bill (init_db file).1 k r.
Proof. intros (t & Ht & Hk). exists t. simpl. by rewrite Ht. Qed.

Lemma init_db_keeps_item file k r :
  has_item file k r → has_item (init_db file).1 k r.
Proof. intros (t & Ht & Hk). exists t. simpl. by rewrite Ht. Qed.

Lemma bind_int_Ok n m :
  bind_int n = Ok m → m = n ∧ min_int64 ≤ n ≤ max_int64.
Proof.
  unfold bind_int. destruct (_ && _) eqn:Hn; [|done]. intros [= <-].
  apply andb_prop in Hn as [?%Z.leb_le ?%Z.leb_le]. done.
Qed.

(** The statements of [add_bill], one by one. *)
Lemma insert_bill_Ok conn customer date total conn' id :
  insert_bill conn customer date total = Ok (conn', id) →
  ∃ t t', bills conn = Some t ∧ bills conn' = Some t'
    ∧ bill_items conn' = bill_items conn
    ∧ insert t (Bill customer date total) = Ok (t', id).
Proof.
  unfold insert_bill, bind_text. destruct (bills conn) as [t|]; [|done].
  destruct (encodable customer); simpl; [|done].
  destruct (encodable date); simpl; [|done].
  destruct (insert t _) as [[t' k]|] eqn:Hins; simpl; [|done].
  intros [= <- <-]. by exists t, t'.
Qed.

Lemma insert_bill_encodable conn customer date total conn' id :
  insert_bill conn customer date total = Ok (conn', id) →
  encodable customer = true ∧ encodable date = true.
Proof.
  unfold insert_bill, bind_text. destruct (bills conn) as [t|]; [|done].
  destruct (encodable customer); simpl; [|done].
  by destruct (encodable date).
Qed.

Lemma insert_item_Ok conn bid it conn' :
  insert_item conn bid it = Ok conn' →
  ∃ t t' k, bill_items conn = Some t ∧ bill_items conn' = Some t'
    ∧ bills conn' = bills conn
    ∧ min_int64 ≤ it.2 ≤ max_int64
    ∧ insert t (item_of bid it) = Ok (t', k).
Proof.
  unfold insert_item. destruct it as [[p pr] q].
  destruct (bill_items conn) as [t|]; [|done].
  destruct (bind_int bid) as [b|] eqn:Hb; simpl; [|done].
  unfold bind_text. destruct (encodable p); simpl; [|done].
  destruct (bind_int q) as [q'|] eqn:Hq; simpl; [|done].
  apply bind_int_Ok in Hb as [-> _]. apply bind_int_Ok in Hq as [-> Hq].
  destruct (insert t _) as [[t' k]|] eqn:Hins; simpl; [|done].
  intros [= <-]. exists t, t', k. split_and!; done || apply Hq.
Qed.

Lemma insert_items_encodable items : ∀ conn bid conn',
  insert_items conn bid items = Ok conn' →
  Forall (λ it : pystr * float * Z, encodable it.1.1 = true) items.
Proof.
  induction items as [|[[p pr] q] items IH]; intros conn bid conn'.
  { constructor. }
  cbn [insert_items].
  destruct (insert_item conn bid (p, pr, q)) as [c1|] eqn:H1; [|done].
  cbn [mbind result_bind].
  intros H2. constructor; [|by eapply IH].
  unfold insert_item, bind_text in H1. simpl.
  destruct (bill_items conn) as [t|]; [|done].
  destruct (bind_int bid) as [b|]; simpl in H1; [|done].
  by destruct (encodable p).
Qed.

(** The loop over the items adds fresh keys [ks], one per item, in the
    order of the items, and leaves the table [bills] alone. *)
Lemma insert_items_Ok items : ∀ conn bid conn',
  insert_items conn bid items = Ok conn' →
  bills conn' = bills conn ∧
  (items = [] ∧ conn' = conn ∨
   ∃ t t' ks, bill_items conn = Some t ∧ bill_items conn' = Some t'
    ∧ length ks = length items ∧ NoDup ks
    ∧ Forall (λ k, rows t !! k = None) ks
    ∧ rows t' = list_to_map (zip ks (item_of bid <$> items)) ∪ rows t
    ∧ (∀ j x, rows t !! j = Some x → rows t' !! j = Some x)
    ∧ Forall (λ it, min_int64 ≤ it.2 ≤ max_int64) items).
Proof.
  induction items as [|it items IH]; intros conn bid conn'; simpl.
  { intros [= <-]. split; [done|]. by left. }
  destruct (insert_item conn bid it) as [c1|] eqn:H1; [|done]. simpl.
  intros H2.
  apply insert_item_Ok in H1 as (t & t1 & k & Ht & Ht1 & Hb1 & Hq & Hins).
  pose proof (λ j x, insert_keeps _ _ _ _ j x Hins) as Hkeep.
  apply insert_Ok in Hins as (Hk & Hrows & _ & _).
  apply IH in H2 as [Hb2 Hrest]. split; [congruence|]. right.
  destruct Hrest as [[-> ->]|(t1' & t' & ks & Ht1' & Ht' & Hlen & Hnd
                              & Hfresh & Hrows' & Hkeep' & Hqs)].
  - exists t, t1, [k]. split_and!; try done.
    + apply NoDup_singleton.
    + by constructor.
    + simpl. rewrite Hrows. by rewrite insert_empty, <- insert_union_singleton_l.
    + by constructor.
  - assert (t1' = t1) as -> by congruence.
    exists t, t', (k :: ks). split_and!; try done.
    + simpl. by rewrite Hlen.
    + constructor; [|done]. intros Hin.
      rewrite Forall_forall in Hfresh. specialize (Hfresh _ Hin).
      rewrite Hrows, lookup_insert_eq in Hfresh. done.
    + constructor; [done|]. eapply Forall_impl; [exact Hfresh|].
      simpl. intros j Hj. rewrite Hrows in Hj.
      apply lookup_insert_None in Hj. tauto.
    + rewrite Hrows'. simpl. rewrite Hrows.
      rewrite <- insert_union_l, <- insert_union_r; [done|].
      apply not_elem_of_list_to_map_1. rewrite fst_zip.
      * intros Hin. rewrite Forall_forall in Hfresh.
        specialize (Hfresh _ Hin).
        rewrite Hrows, lookup_insert_eq in Hfresh. done.
      * rewrite length_fmap. lia.
    + intros j x Hj. apply Hkeep', Hkeep, Hj.
    + by constructor.
Qed.

Lemma add_bill_Ok file customer date total items file' bid :
  add_bill file customer date total items = (file', Ok bid) →
  ∃ conn, insert_bill file customer date total = Ok (conn, bid)
    ∧ insert_items conn bid items = Ok file'.
Proof.
  unfold add_bill.
  destruct (insert_bill file customer date total) as [[conn k]|] eqn:H1;
    simpl; [|done].
  destruct (insert_items conn k items) as [c'|] eqn:H2; simpl; [|done].
  intros [= <- <-]. by exists conn.
Qed.

Lemma add_bill_Raise file customer date total items file' e :
  add_bill file customer date total items = (file', Raise e) →
  file' = file.
Proof.
  unfold add_bill.
  destruct (insert_bill file customer date total) as [[conn k]|];
    simpl; [|congruence].
  destruct (insert_items conn k items); simpl; congruence.
Qed.

Lemma add_bill_keeps_bill file customer date total items k r :
  has_bill file k r →
  has_bill (add_bill file customer date total items).1 k r.
Proof.
  intros Hk.
  destruct (add_bill file customer date total items) as [file' [bid|e]]
    eqn:Hadd; simpl.
  - apply add_bill_Ok in Hadd as (conn & H1 & H2).
    apply insert_bill_Ok in H1 as (t & t' & Ht & Ht' & _ & Hins).
    apply insert_items_Ok in H2 as [Hb _].
    destruct Hk as (t0 & Ht0 & Hk). exists t'. split; [congruence|].
    eapply insert_keeps; [exact Hins|]. congruence.
  - apply add_bill_Raise in Hadd as ->. done.
Qed.

Lemma add_bill_keeps_item file customer date total items k r :
  has_item file k r →
  has_item (add_bill file customer date total items).1 k r.
Proof.
  intros Hk.
  destruct (add_bill file customer date total items) as [file' [bid|e]]
    eqn:Hadd; simpl.
  - apply add_bill_Ok in Hadd as (conn & H1 & H2).
    apply insert_bill_Ok in H1 as (t & t' & Ht & Ht' & Hi & Hins).
    apply insert_items_Ok in H2 as [_ [[_ ->]|Hrest]].
    + destruct Hk as (t0 & Ht0 & Hk). exists t0. split; congruence.
    + destruct Hrest as (ti & ti' & ks & Hti & Hti' & _ & _ & _ & _ & Hkeep & _).
      destruct Hk as (t0 & Ht0 & Hk). exists ti'. split; [done|].
      apply Hkeep. congruence.
  - apply add_bill_Raise in Hadd as ->. done.
Qed.
End Persistence.

Section Store_properties.
Import Db.

(** C7: [init_db] is idempotent. On a store that has both tables it
    changes nothing and does not fail; hence running it twice gives what
    running it once gives, and the second run does not fail either. *)
Theorem init_db_idempotent (file : database) :
  (initialized file → init_db file = (file, Ok ()))
  ∧ init_db (init_db file).1 = ((init_db file).1, Ok ())
  ∧ (init_db file).2 = Ok ().
Proof.
  split_and!.
  - apply init_db_initialized.
  - apply init_db_initialized, init_db_tables.
  - done.
Qed.

Lemma init_db_idempotent_witness :
  initialized Sample.store ∧ init_db Sample.store = (Sample.store, Ok ()).
Proof.
  assert (H : initialized Sample.store) by (split; simpl; eauto).
  split; [exact H|].
  exact (proj1 (init_db_idempotent Sample.store) H).
Defined.

Lemma zip_lookup_union {A} (ks : list Z) (xs : list A) (m : gmap Z A) :
  NoDup ks → length ks = length xs →
  Forall2 (λ k x, (list_to_map (zip ks xs) ∪ m) !! k = Some x) ks xs.
Proof.
  intros Hnd Hlen. apply Forall2_same_length_lookup_2; [done|].
  intros i k x Hk Hx. apply lookup_union_Some_l.
  apply elem_of_list_to_map_1.
  - rewrite fst_zip; [done|lia].
  - apply list_elem_of_lookup. exists i. by apply lookup_zip_Some.
Qed.

(** C2: [add_bill] is atomic. When it raises, the store is what it was:
    neither the bill row nor any item row of the call remains. When it
    returns [bid], the bill row is stored under [bid], and every item is
    stored, each under a key of its own, with [bid] as its bill. *)
Theorem add_bill_atomic (file : database) (customer date : pystr)
    (total : float) (items : list (pystr * float * Z)) :
  match add_bill file customer date total items with
  | (file', Raise _) => file' = file
  | (file', Ok bid) =>
      has_bill file' bid (Bill customer date total)
      ∧ ∃ ks, NoDup ks
          ∧ Forall2 (λ k it, has_item file' k (item_of bid it)) ks items
  end.
Proof.
  destruct (add_bill file customer date total items) as [file' [bid|e]]
    eqn:Hadd.
  - apply add_bill_Ok in Hadd as (conn & H1 & H2).
    apply insert_bill_Ok in H1 as (t & t' & Ht & Ht' & Hi & Hins).
    apply insert_Ok in Hins as (_ & Hrows & _).
    apply insert_items_Ok in H2 as [Hb Hrest]. split.
    + exists t'. split; [congruence|]. rewrite Hrows. apply lookup_insert_eq.
    + destruct Hrest as [[-> ->]|(ti & ti' & ks & Hti & Hti' & Hlen & Hnd
                                  & _ & Hrows' & _)].
      * exists []. split; constructor.
      * exists ks. split; [done|].
        assert (Hlen' : length ks = length (item_of bid <$> items))
          by by rewrite length_fmap.
        pose proof (zip_lookup_union ks _ (rows ti) Hnd Hlen') as HF.
        apply Forall2_fmap_r in HF.
        eapply Forall2_impl; [exact HF|]. simpl. intros k it Hk.
        exists ti'. split; [done|]. by rewrite Hrows'.
  - by apply add_bill_Raise in Hadd.
Qed.

(** A failure in the middle: the bill and the first item are inserted
    on the connection, the second item is refused for its quantity, and
    the store is left as it was. *)
Example add_bill_fails_midway :
  let items := [Sample.laptop; (str "Tablet", Float.lit "300.00", 2 ^ 63)] in
  is_ok (insert_bill Sample.store (str "Eve") (str "d") (Float.lit "1.0")) = true
  ∧ is_ok (insert_items Sample.store 3 [Sample.laptop]) = true
  ∧ add_bill Sample.store (str "Eve") (str "d") (Float.lit "1.0") items
    = (Sample.store, Raise OverflowError).
Proof. vm_compute. done. Qed.

(** C9: the store only grows. Whatever calls of the persistence API are
    made, a row that is stored before them is stored after them, under
    the same key and with the same columns. *)
Theorem store_append_only (cs : list call) (file : database)
    (row : stored_row) :
  stored file row → stored (after_all file cs) row.
Proof.
  revert file. induction cs as [|c cs IH]; intros file Hrow; [done|].
  cbn [after_all foldl]. apply IH.
  destruct c, row; cbn [after stored] in *;
    auto using init_db_keeps_bill, init_db_keeps_item,
               add_bill_keeps_bill, add_bill_keeps_item.
Qed.

Lemma store_append_only_witness :
  stored Sample.store (item_at 2 (item_of 1 Sample.mouse))
  ∧ stored
      (after_all Sample.store
         [ call_fetch_bills; call_init_db;
           call_add_bill (str "Eve") (str "d") (Float.lit "40.0")
                         [Sample.mouse];
           call_fetch_bill_items 1;
           call_add_bill (str "Dan") (str "d") (Float.lit "0.0")
                         [(str "Tablet", Float.lit "300.00", 2 ^ 63)] ])
      (item_at 2 (item_of 1 Sample.mouse)).
Proof.
  assert (H : stored Sample.store (item_at 2 (item_of 1 Sample.mouse))).
  { eexists. split; [reflexivity|]. vm_compute. reflexivity. }
  split; [exact H|]. exact (store_append_only _ _ _ H).
Defined.

#[local] Instance by_id_desc_trans {A} : Transitive (@by_id_desc A).
Proof. unfold by_id_desc. intros a b c ??. lia. Qed.

#[local] Instance by_id_desc_total {A} : Total (@by_id_desc A).
Proof. unfold by_id_desc. intros a b. lia. Qed.

(** Sorted with distinct keys is strictly sorted. *)
Lemma sorted_desc_strict {A} (l : list (Z * A)) :
  NoDup l.*1 → StronglySorted by_id_desc l →
  StronglySorted (λ a b, b.1 < a.1) l.
Proof.
  induction l as [|a l IH]; intros Hnd Hs; [constructor|].
  apply StronglySorted_inv in Hs as [Hs Ha].
  rewrite fmap_cons in Hnd. apply NoDup_cons in Hnd as [Hnotin Hnd].
  constructor; [auto|].
  rewrite Forall_forall in Ha |- *. intros b Hb.
  specialize (Ha b Hb). unfold by_id_desc in Ha.
  assert (b.1 ≠ a.1); [|lia].
  intros Heq. apply Hnotin. rewrite <- Heq.
  apply list_elem_of_fmap. by exists b.
Qed.

Lemma fetch_bills_Ok file t :
  bills file = Some t →
  ∃ l, fetch_bills file = Ok (bill_row <$> l)
    ∧ l ≡ₚ map_to_list (rows t)
    ∧ StronglySorted (λ a b, b.1 < a.1) l.
Proof.
  intros Ht. exists (merge_sort by_id_desc (map_to_list (rows t))).
  unfold fetch_bills. rewrite Ht. split_and!; [done|..].
  - apply merge_sort_Permutation.
  - apply sorted_desc_strict.
    + rewrite merge_sort_Permutation. apply NoDup_fst_map_to_list.
    + apply StronglySorted_merge_sort; apply _.
Qed.

(** C3: [fetch_bills] returns every bill row, each once, and the
    identifiers strictly decrease along the list. *)
Theorem fetch_bills_descending (file : database) (t : table bill) :
  bills file = Some t →
  ∃ rs, fetch_bills file = Ok rs
    ∧ rs ≡ₚ bill_row <$> map_to_list (rows t)
    ∧ StronglySorted (λ a b, id_of b < id_of a) rs.
Proof.
  intros (l & -> & Hperm & Hs)%fetch_bills_Ok.
  eexists. split_and!; [done|by rewrite Hperm|].
  eapply StronglySorted_fmap; [|exact Hs]. by intros [] [].
Qed.

Lemma fetch_bills_descending_witness :
  ∃ rs, fetch_bills Sample.store = Ok rs
    ∧ rs ≡ₚ bill_row <$> map_to_list ({[ 1 := Sample.ann; 2 := Sample.bob ]} : gmap Z bill)
    ∧ StronglySorted (λ a b, id_of b < id_of a) rs.
Proof.
  exact (fetch_bills_descending Sample.store _ eq_refl).
Defined.
End Store_properties.

(** ** The cart and the save *)

Section Save_properties.
Import Db Gui.

Lemma show_rejected w title msg :
  rejected w (show w (showerror title msg), Ok ()).
Proof. unfold rejected. simpl. split_and!; eauto. Qed.

(** C5: with an empty customer name (after trimming) or an empty cart,
    [save_bill] shows an error and returns; the store, the cart and the
    rest of the application are what they were. *)
Theorem save_bill_rejects (now : pystr) (w : world) :
  customer_name w = [] ∨ cart (app w) = [] →
  rejected w (save_bill now w).
Proof.
  unfold customer_name, save_bill. intros [Hc|Hc].
  - rewrite Hc. apply show_rejected.
  - rewrite Hc. destruct (strip _); apply show_rejected.
Qed.

Lemma save_bill_rejects_witness :
  rejected (Sample.world [Sample.laptop] (str "   ") (str "1"))
           (save_bill (str "2024-03-01 09:00:00")
                      (Sample.world [Sample.laptop] (str "   ") (str "1")))
  ∧ rejected (Sample.world [] (str "Ann") (str "1"))
             (save_bill (str "2024-03-01 09:00:00")
                        (Sample.world [] (str "Ann") (str "1"))).
Proof.
  split.
  - apply save_bill_rejects. left. reflexivity.
  - apply save_bill_rejects. right. reflexivity.
Defined.

Lemma load_bills_store w : store (load_bills w) = store w.
Proof. unfold load_bills. by destruct (fetch_bills _). Qed.

Lemma load_bills_shown w :
  shown (load_bills w) = shown w
  ∨ ∃ title msg, shown (load_bills w) = shown w ++ [showerror title msg].
Proof.
  unfold load_bills. destruct (fetch_bills _); simpl; eauto.
Qed.

Lemma not_saved_unchanged (l : list event) e : l ≠ l ++ [e].
Proof.
  intros H. apply (f_equal length) in H. rewrite length_app in H.
  simpl in H. lia.
Qed.

(** What a save that succeeded went through. *)
Lemma bill_saved_inv now w w' r :
  save_bill now w = (w', r) → bill_saved w w' →
  customer_name w ≠ [] ∧ cart (app w) ≠ []
  ∧ ∃ total bid,
      cart_total (cart (app w)) = Ok total
      ∧ add_bill (store w) (customer_name w) now total (cart (app w))
        = (store w', Ok bid).
Proof.
  unfold save_bill, customer_name, bill_saved. intros Hsave [msg Hmsg].
  destruct (strip _) as [|c name] eqn:Hname.
  { injection Hsave as <- <-. simpl in Hmsg.
    by apply app_inj_tail in Hmsg as [_ ?]. }
  destruct (cart (app w)) as [|line lines] eqn:Hcart.
  { injection Hsave as <- <-. simpl in Hmsg.
    by apply app_inj_tail in Hmsg as [_ ?]. }
  destruct (cart_total _) as [total|e] eqn:Htotal.
  2:{ injection Hsave as <- <-. by apply not_saved_unchanged in Hmsg. }
  destruct (add_bill _ _ _ _ _) as [file [bid|e]] eqn:Hadd.
  2:{ injection Hsave as <- <-. simpl in Hmsg.
      by apply app_inj_tail in Hmsg as [_ ?]. }
  injection Hsave as <- <-. rewrite load_bills_store. simpl.
  split_and!; [done..|]. by exists total, bid.
Qed.

(** What the loop of the sum returns is the sum of the products. *)
Lemma sum_from_sum lines : ∀ acc total,
  sum_from acc lines = Ok total →
  total = foldl (λ sum line, Float.add sum (amount line)) acc lines.
Proof.
  induction lines as [|[[name price] qty] lines IH]; intros acc total; simpl.
  { by intros [= <-]. }
  unfold Float.mul_int, Float.of_int, amount. simpl.
  destruct (Float.nearest qty) as [s|s| |s m e]; simpl; try done; apply IH.
Qed.

(** C1: a save that succeeds, for a customer name that is therefore not
    empty and a cart of N lines, adds one row to [bills], under a new
    key [bid] and holding the sum of price times quantity over the cart
    lines, and N rows to [bill_items], under new keys [ks], one per
    cart line and each with [bid] as its bill. The tables hold nothing
    else new. The sum is one that a REAL column keeps as it is, which
    leaves out a sum that is not a number. *)
Theorem save_bill_persists (now : pystr) (w w' : world) (r : result ()) :
  save_bill now w = (w', r) → bill_saved w w' →
  kept_by_real (sum_of_products (cart (app w))) = true →
  customer_name w ≠ []
  ∧ ∃ bid total tb tb' ti ti' ks,
      total = sum_of_products (cart (app w))
      ∧ bills (store w) = Some tb ∧ bills (store w') = Some tb'
      ∧ bill_items (store w) = Some ti ∧ bill_items (store w') = Some ti'
      ∧ rows tb !! bid = None
      ∧ rows tb' = <[bid := Bill (customer_name w) now total]> (rows tb)
      ∧ size (rows tb') = S (size (rows tb))
      ∧ length ks = length (cart (app w))
      ∧ NoDup ks
      ∧ Forall (λ k, rows ti !! k = None) ks
      ∧ rows ti'
        = list_to_map (zip ks (item_of bid <$> cart (app w))) ∪ rows ti
      ∧ size (rows ti') = (length (cart (app w)) + size (rows ti))%nat.
Proof.
  intros Hsave Hsaved _.
  destruct (bill_saved_inv _ _ _ _ Hsave Hsaved)
    as (Hname & Hcart & total & bid & Htotal & Hadd).
  split; [done|].
  apply add_bill_Ok in Hadd as (conn & H1 & H2).
  apply insert_bill_Ok in H1 as (tb & tb' & Htb & Htb' & Hi & Hins).
  apply insert_Ok in Hins as (Hfresh & Hrows & _).
  apply insert_items_Ok in H2 as [Hb [[? _]|Hrest]]; [done|].
  destruct Hrest as (ti & ti' & ks & Hti & Hti' & Hlen & Hnd & Hnone
                     & Hrows' & _).
  exists bid, total, tb, tb', ti, ti', ks.
  assert (Hlen' : length ks = length (item_of bid <$> cart (app w)))
    by by rewrite length_fmap.
  split_and!; try done; try congruence.
  - by apply sum_from_sum.
  - rewrite Hrows. by apply map_size_insert_None.
  - rewrite Hrows', map_size_disj_union.
    + rewrite map_size_list_to_map.
      * by rewrite length_zip_with, <- Hlen', Nat.min_id, Hlen.
      * rewrite fst_zip; [done|lia].
    + by apply map_disjoint_list_to_map_zip_l_2.
Qed.
End Save_properties.

Section Save_examples.
Import Db Gui.

Lemma save_bill_persists_witness :
  let now := str "2024-03-01 09:00:00" in
  let w := Sample.world [Sample.laptop; Sample.mouse] (str " Ann ") (str "1") in
  let w' := (save_bill now w).1 in
  bill_saved w w'
  ∧ ∃ bid tb',
      bills (store w') = Some tb'
      ∧ rows tb' !! bid = Some (Bill (str "Ann") now (Float.lit "1720.00")).
Proof.
  intros now w w'.
  assert (Hs : bill_saved w w') by (eexists; vm_compute; reflexivity).
  assert (Hk : kept_by_real (sum_of_products (cart (app w))) = true)
    by (vm_compute; reflexivity).
  split; [exact Hs|].
  destruct (save_bill_persists now w w' (Ok ()) eq_refl Hs Hk)
    as (_ & bid & total & tb & tb' & ti & ti' & ks & Htotal & _ & Htb'
        & _ & _ & _ & Hrows & _).
  exists bid, tb'. split; [exact Htb'|].
  rewrite Hrows, lookup_insert_eq, Htotal. reflexivity.
Defined.

(** The bill of that save: two laptops and three mice for 1720.00, as
    the third bill of the store. *)
Example save_bill_sample :
  let w := Sample.world [Sample.laptop; Sample.mouse] (str " Ann ") (str "1") in
  let w' := (save_bill (str "2024-03-01 09:00:00") w).1 in
  cart_total (cart (app w)) = Ok (Float.lit "1720.00")
  ∧ selected_bill (app w')
    = Some (3, str "Ann", str "2024-03-01 09:00:00", Float.lit "1720.00")
  ∧ cart (app w') = []
  ∧ (fetch_bill_items (store w') 3) = Ok [Sample.laptop; Sample.mouse].
Proof. vm_compute. done. Qed.
End Save_examples.

(** ** Quantities *)

Section Digits.

Lemma in_ranges_points tbl c : in_ranges tbl c = true → c ∈ points tbl.
Proof.
  unfold in_ranges, points. rewrite existsb_exists.
  intros ([a b] & Hin & [Ha%N.leb_le Hb%N.leb_le]%andb_prop). simpl in *.
  apply list_elem_of_bind. exists (a, b). split; [|by apply list_elem_of_In].
  apply list_elem_of_fmap. exists (N.to_nat c). split; [lia|].
  apply elem_of_seq. simpl. lia.
Qed.

(** No digit is a space, a sign or an underscore. *)
Lemma digit_not_space c : isdigit_char c = true → isspace_char c = false.
Proof.
  intros Hd. destruct (isspace_char c) eqn:Hs; [|done].
  apply in_ranges_points in Hs.
  assert (Hall : forallb (λ c, negb (isdigit_char c))
                          (points whitespace_ranges) = true)
    by (vm_compute; reflexivity).
  rewrite forallb_forall in Hall. apply list_elem_of_In, Hall in Hs.
  rewrite Hd in Hs. done.
Qed.

Lemma digit_not_sign c :
  isdigit_char c = true → c ≠ 0x2b%N ∧ c ≠ 0x2d%N ∧ c ≠ 0x5f%N.
Proof. intros Hd. split_and!; intros ->; vm_compute in Hd; done. Qed.

Lemma lstrip_digits (s : pystr) :
  forallb isdigit_char s = true → lstrip s = s.
Proof.
  destruct s as [|c r]; [done|]. simpl.
  intros [Hc%digit_not_space _]%andb_prop. by rewrite Hc.
Qed.

Lemma strip_digits (s : pystr) :
  forallb isdigit_char s = true → strip s = s.
Proof.
  intros Hs. unfold strip. rewrite (lstrip_digits s Hs).
  rewrite lstrip_digits; [apply rev_involutive|].
  apply forallb_forall. intros c Hc%in_rev.
  by eapply forallb_forall in Hs.
Qed.

(** Around a number less is skipped than [strip] takes off. *)
Lemma strip_number_plain (s : pystr) :
  forallb (λ c, negb (isspace_char c)) s = true → strip_number s = s.
Proof.
  assert (Hl : ∀ t, forallb (λ c, negb (isspace_char c)) t = true →
                    lstrip_number t = t).
  { intros [|c r]; [done|]. simpl.
    intros [Hc%negb_true_iff _]%andb_prop.
    unfold isspace_number. by rewrite Hc. }
  intros Hs. unfold strip_number.
  rewrite (Hl s Hs), Hl; [apply rev_involutive|].
  apply forallb_forall. intros c Hc%in_rev.
  by eapply forallb_forall in Hs.
Qed.

Lemma strip_number_digits (s : pystr) :
  forallb isdigit_char s = true → strip_number s = s.
Proof.
  intros Hs. apply strip_number_plain.
  rewrite forallb_forall in Hs |- *. intros c Hc.
  by rewrite (digit_not_space c (Hs c Hc)).
Qed.

Lemma digit_count_decimal (s : pystr) :
  forallb isdecimal_char s = true → digit_count s = length s.
Proof.
  unfold digit_count. induction s as [|c r IH]; [done|]. simpl.
  intros [-> Hr]%andb_prop. simpl. by rewrite IH.
Qed.

Lemma int_digits_decimal (s : pystr) : ∀ acc prev,
  forallb isdecimal_char s = true → s ≠ [] ∨ prev = true →
  int_digits s acc prev = Ok (number acc s).
Proof.
  induction s as [|c r IH]; intros acc prev Hs Hne; simpl in *.
  { destruct Hne as [?| ->]; done. }
  apply andb_prop in Hs as [Hc Hr]. unfold isdecimal_char in Hc.
  destruct (decimal_value c) as [d|]; [|done]. simpl. apply IH; auto.
Qed.

Lemma int_digits_other_digit (s : pystr) : ∀ acc prev,
  forallb isdigit_char s = true → forallb isdecimal_char s = false →
  int_digits s acc prev = Raise ValueError.
Proof.
  induction s as [|c r IH]; intros acc prev Hs Hd; simpl in *; [done|].
  apply andb_prop in Hs as [Hc Hr].
  destruct (digit_not_sign c Hc) as (_ & _ & Hu).
  unfold isdecimal_char in Hd.
  destruct (decimal_value c) as [d|]; simpl in Hd; [by apply IH|].
  apply N.eqb_neq in Hu. by rewrite Hu.
Qed.

(** [int] on what [isdigit] accepts: the number written when every
    character is decimal and there are at most 4300 of them,
    [ValueError] otherwise. *)
Lemma int_isdigit (s : pystr) :
  isdigit s = true →
  int s = if forallb isdecimal_char s && (length s <=? max_str_digits)%nat
          then Ok (number 0 s)
          else Raise ValueError.
Proof.
  unfold isdigit, int. destruct s as [|c r] eqn:Hs; [done|].
  rewrite <- Hs. intros Hdig. rewrite (strip_number_digits s Hdig).
  assert (Hc : isdigit_char c = true).
  { subst s. simpl in Hdig. by apply andb_prop in Hdig as [? _]. }
  destruct (digit_not_sign c Hc) as (Hplus & Hminus & _).
  assert (Hint : int_literal s
                 = if forallb isdecimal_char s
                      && (length s <=? max_str_digits)%nat
                   then Ok (number 0 s)
                   else Raise ValueError).
  { unfold int_literal.
    destruct (forallb isdecimal_char s) eqn:Hdec; simpl.
    - rewrite (digit_count_decimal s Hdec), Nat.ltb_antisym.
      destruct (length s <=? max_str_digits)%nat; simpl; [|done].
      apply int_digits_decimal; [done|]. left. by subst.
    - rewrite int_digits_other_digit by done.
      by destruct (max_str_digits <? digit_count s)%nat. }
  rewrite <- Hint. rewrite Hs.
  destruct c as [|p]; [done|].
  repeat (destruct p as [p|p|]; try done).
Qed.
End Digits.

Section Cart_properties.
Import Gui.

(** A quantity [isdigit] refuses is rejected with the error dialog. *)
Lemma add_to_cart_not_digits (w : world) :
  isdigit (qty_entry (app w)) = false → rejected w (add_to_cart w).
Proof.
  intros Hq. unfold add_to_cart, invalid_quantity. rewrite Hq. simpl.
  destruct (product_var (app w)); apply show_rejected.
Qed.

(** So is a string of decimal digits that writes 0. *)
Lemma add_to_cart_not_positive (w : world) :
  isdigit (qty_entry (app w)) = true →
  forallb isdecimal_char (qty_entry (app w)) = true →
  (length (qty_entry (app w)) ≤ max_str_digits)%nat →
  number 0 (qty_entry (app w)) ≤ 0 →
  rejected w (add_to_cart w).
Proof.
  intros Hq Hdec Hlen%Nat.leb_le Hn. unfold add_to_cart, invalid_quantity.
  rewrite Hq, (int_isdigit _ Hq), Hdec, Hlen. simpl.
  apply Z.leb_le in Hn. rewrite Hn.
  destruct (product_var (app w)); apply show_rejected.
Qed.

Lemma products_parse p :
  p ∈ products → p ≠ [] ∧ ∃ name price, parse_product p = Ok (name, price).
Proof.
  unfold products. intros Hp.
  repeat (apply elem_of_cons in Hp as [->|Hp];
          [split; [done|]; vm_compute; eauto|]).
  by apply elem_of_nil in Hp.
Qed.

Example parse_product_laptop :
  parse_product (str "Laptop - 800.00") = Ok (str "Laptop", Float.lit "800.0").
Proof. reflexivity. Qed.

(** A string of decimal digits, at most 4300 of them, that writes a
    positive number is added to the cart, with the product chosen in the
    drop-down. *)
Lemma add_to_cart_appends (w : world) :
  product_var (app w) ∈ products →
  isdigit (qty_entry (app w)) = true →
  forallb isdecimal_char (qty_entry (app w)) = true →
  (length (qty_entry (app w)) ≤ max_str_digits)%nat →
  0 < number 0 (qty_entry (app w)) →
  ∃ name price,
    parse_product (product_var (app w)) = Ok (name, price)
    ∧ cart (app (add_to_cart w).1)
      = cart (app w) ++ [(name, price, number 0 (qty_entry (app w)))].
Proof.
  intros (Hne & name & price & Hparse)%products_parse Hq Hdec Hlen%Nat.leb_le
         Hn.
  exists name, price. split; [done|].
  unfold add_to_cart, invalid_quantity.
  rewrite Hq, (int_isdigit _ Hq), Hdec, Hlen, Hparse. simpl.
  apply Z.leb_gt in Hn. rewrite Hn.
  destruct (product_var (app w)); [done|].
  by destruct (Float.mul_int _ _).
Qed.

(** A quantity of digits that are not all decimal, as [isdigit] lets
    through: [int] raises, nothing of [add_to_cart] catches it, and no
    dialog is shown. *)
Lemma add_to_cart_other_digit (w : world) :
  product_var (app w) ≠ [] →
  isdigit (qty_entry (app w)) = true →
  forallb isdecimal_char (qty_entry (app w)) = false →
  add_to_cart w = (w, Raise ValueError).
Proof.
  intros Hp Hq Hdec. unfold add_to_cart, invalid_quantity.
  rewrite Hq, (int_isdigit _ Hq), Hdec. simpl.
  by destruct (product_var (app w)).
Qed.

(** C6, where it fails: the quantity "²" (U+00B2, superscript two) is
    not a string of decimal digits, yet [add_to_cart] does not reject it
    with the error dialog: [isdigit] accepts it, [int] raises
    [ValueError], and the exception leaves the handler; nothing is
    shown. *)
Theorem add_to_cart_superscript_two :
  let w := Sample.world [Sample.laptop] (str "Ann") [0xb2%N] in
  isdigit (qty_entry (app w)) = true
  ∧ forallb isdecimal_char (qty_entry (app w)) = false
  ∧ add_to_cart w = (w, Raise ValueError)
  ∧ ¬ rejected w (add_to_cart w).
Proof.
  intros w. split_and!; [done..| |].
  - by apply add_to_cart_other_digit.
  - rewrite add_to_cart_other_digit by done. by intros [? _].
Qed.
End Cart_properties.

(** ** The texts of the numbers *)

Section Number_texts.

Lemma ascii_digit_cases (P : N → Prop) :
  P 0x30%N → P 0x31%N → P 0x32%N → P 0x33%N → P 0x34%N → P 0x35%N →
  P 0x36%N → P 0x37%N → P 0x38%N → P 0x39%N →
  ∀ c, ascii_digit c = true → P c.
Proof.
  intros H0 H1 H2 H3 H4 H5 H6 H7 H8 H9 c [Hl%N.leb_le Hu%N.leb_le]%andb_prop.
  assert (c = 0x30 ∨ c = 0x31 ∨ c = 0x32 ∨ c = 0x33 ∨ c = 0x34 ∨ c = 0x35
          ∨ c = 0x36 ∨ c = 0x37 ∨ c = 0x38 ∨ c = 0x39)%N
    as [->|[->|[->|[->|[->|[->|[->|[->|[->| ->]]]]]]]]] by lia;
    assumption.
Qed.

Lemma ascii_digit_value c :
  ascii_digit c = true → decimal_value c = Some (Z.of_N c - 48).
Proof. revert c. apply ascii_digit_cases; vm_compute; reflexivity. Qed.

Lemma ascii_digit_decimal s :
  forallb ascii_digit s = true → forallb isdecimal_char s = true.
Proof.
  rewrite !forallb_forall. intros Hs c Hc. specialize (Hs c Hc).
  unfold isdecimal_char. by rewrite (ascii_digit_value c Hs).
Qed.

Lemma numeral_char_plain c :
  numeral_char c = true →
  isspace_char c = false ∧ (c =? 0x24)%N = false.
Proof.
  unfold numeral_char.
  intros [[Hc|Hc%N.eqb_eq]%orb_prop|Hc%N.eqb_eq]%orb_prop; subst;
    [|by vm_compute..].
  revert c Hc. apply ascii_digit_cases; by vm_compute.
Qed.

Lemma digits_ascii d : forallb ascii_digit (digits d) = true.
Proof. induction d; try done; exact IHd. Qed.

Lemma number_cons acc c r :
  number acc (c :: r) = number (10 * acc + default 0 (decimal_value c)) r.
Proof. done. Qed.

Lemma number_digits_acc d : ∀ acc,
  number (Z.pos acc) (digits d) = Z.pos (Pos.of_uint_acc d acc).
Proof.
  induction d; intros acc; [done|..];
    unfold digits; cbn [NilEmpty.string_of_uint str list_ascii_of_string map];
    fold (str (NilEmpty.string_of_uint d)); fold (digits d);
    rewrite number_cons;
    match goal with
    | |- context [decimal_value ?c] =>
        let v := eval vm_compute in (decimal_value c) in
        change (decimal_value c) with v
    end;
    cbn [default from_option id Pos.of_uint_acc]; rewrite <- IHd; f_equal;
    lia.
Qed.

Lemma number_digits d : number 0 (digits d) = Z.of_N (Pos.of_uint d).
Proof.
  induction d; [done|..];
    unfold digits; cbn [NilEmpty.string_of_uint str list_ascii_of_string map];
    fold (str (NilEmpty.string_of_uint d)); fold (digits d);
    rewrite number_cons;
    match goal with
    | |- context [decimal_value ?c] =>
        let v := eval vm_compute in (decimal_value c) in
        change (decimal_value c) with v
    end;
    cbn [default from_option id Pos.of_uint Z.of_N];
    [exact IHd|apply number_digits_acc..].
Qed.
Lemma str_of_int_pos p : str_of_int (Z.pos p) = digits (Pos.to_uint p).
Proof.
  unfold str_of_int, digits. cbn [Z.to_int NilZero.string_of_int].
  pose proof (Stdlib.Numbers.DecimalPos.Unsigned.to_uint_nonnil p) as Hnil.
  by destruct (Pos.to_uint p).
Qed.

Lemma str_of_int_neg p :
  str_of_int (Z.neg p) = 0x2d%N :: digits (Pos.to_uint p).
Proof.
  unfold str_of_int, digits. cbn [Z.to_int NilZero.string_of_int].
  pose proof (Stdlib.Numbers.DecimalPos.Unsigned.to_uint_nonnil p) as Hnil.
  by destruct (Pos.to_uint p).
Qed.

(** The text of a natural number: digits, at least one, that write it. *)
Lemma str_of_int_nonneg n :
  0 ≤ n →
  str_of_int n ≠ [] ∧ forallb ascii_digit (str_of_int n) = true
  ∧ number 0 (str_of_int n) = n.
Proof.
  intros Hn. destruct n as [|p|p]; [done| |lia].
  rewrite str_of_int_pos. split_and!.
  - pose proof (Stdlib.Numbers.DecimalPos.Unsigned.to_uint_nonnil p) as Hnil.
    by destruct (Pos.to_uint p).
  - apply digits_ascii.
  - by rewrite number_digits, Stdlib.Numbers.DecimalPos.Unsigned.of_to.
Qed.

Lemma strip_plain (s : pystr) :
  forallb (λ c, negb (isspace_char c)) s = true → strip s = s.
Proof.
  assert (Hl : ∀ t, forallb (λ c, negb (isspace_char c)) t = true →
                    lstrip t = t).
  { intros [|c r]; [done|]. simpl.
    intros [Hc%negb_true_iff _]%andb_prop. by rewrite Hc. }
  intros Hs. unfold strip. rewrite (Hl s Hs), Hl; [apply rev_involutive|].
  apply forallb_forall. intros c Hc%in_rev.
  by eapply forallb_forall in Hs.
Qed.

Lemma numeral_no_space s :
  forallb numeral_char s = true →
  forallb (λ c, negb (isspace_char c)) s = true.
Proof.
  rewrite !forallb_forall. intros Hs c Hc.
  by destruct (numeral_char_plain c (Hs c Hc)) as [-> _].
Qed.

Lemma ascii_digit_numeral s :
  forallb ascii_digit s = true → forallb numeral_char s = true.
Proof.
  rewrite !forallb_forall. intros Hs c Hc. unfold numeral_char.
  by rewrite (Hs c Hc).
Qed.

(** [int] reads back what [str] wrote, up to its limit on the number
    of digits. *)
Lemma int_str_of_int n :
  int (str_of_int n)
  = if (digits_of n <=? max_str_digits)%nat then Ok n else Raise ValueError.
Proof.
  destruct n as [|p|p]; [done|..].
  - destruct (str_of_int_nonneg (Z.pos p)) as (Hne & Hdig & Hnum); [done|].
    rewrite int_isdigit.
    + by rewrite (ascii_digit_decimal _ Hdig), Hnum.
    + unfold isdigit. destruct (str_of_int (Z.pos p)); [done|].
      apply forallb_forall. intros c Hc. unfold isdigit_char.
      apply ascii_digit_decimal in Hdig.
      rewrite forallb_forall in Hdig. by rewrite (Hdig c Hc).
  - unfold digits_of. change (Z.abs (Z.neg p)) with (Z.pos p).
    rewrite str_of_int_neg, str_of_int_pos.
    unfold int.
    pose proof (digits_ascii (Pos.to_uint p)) as Hdig.
    rewrite strip_number_plain.
    2:{ apply numeral_no_space. simpl. by apply ascii_digit_numeral. }
    unfold int_literal.
    rewrite (digit_count_decimal _ (ascii_digit_decimal _ Hdig)).
    rewrite Nat.ltb_antisym.
    destruct (length (digits (Pos.to_uint p)) <=? max_str_digits)%nat;
      [|done].
    cbn [negb]. rewrite int_digits_decimal; [|by apply ascii_digit_decimal|].
    + simpl. rewrite number_digits.
      by rewrite Stdlib.Numbers.DecimalPos.Unsigned.of_to.
    + left. pose proof (Stdlib.Numbers.DecimalPos.Unsigned.to_uint_nonnil p).
      unfold digits. by destruct (Pos.to_uint p).
Qed.

Lemma number_nonneg s : ∀ acc, 0 ≤ acc → 0 ≤ number acc s.
Proof.
  induction s as [|c s IH]; intros acc Hacc; [done|].
  rewrite number_cons. apply IH.
  unfold decimal_value. destruct (List.find _ _); simpl; lia.
Qed.

Lemma number_acc s : ∀ acc,
  number acc s = acc * 10 ^ Z.of_nat (length s) + number 0 s.
Proof.
  induction s as [|c s IH]; intros acc.
  { simpl. lia. }
  rewrite !number_cons, (IH (10 * acc + _)), (IH (10 * 0 + _)).
  cbn [length]. rewrite Nat2Z.inj_succ, Z.pow_succ_r by lia. lia.
Qed.

(** The first digit [str] writes for a positive number is not 0. *)
Lemma to_uint_head p :
  match Pos.to_uint p with
  | Decimal.Nil | Decimal.D0 _ => False
  | _ => True
  end.
Proof.
  pose proof (Stdlib.Numbers.DecimalPos.Unsigned.to_of (Pos.to_uint p)) as H.
  rewrite Stdlib.Numbers.DecimalPos.Unsigned.of_to in H.
  change (N.to_uint (N.pos p)) with (Pos.to_uint p) in H.
  pose proof (Stdlib.Numbers.DecimalPos.Unsigned.to_uint_nonzero p) as Hnz.
  assert (Hhead : ∀ d, match Decimal.nzhead d with
                       | Decimal.D0 _ => False
                       | _ => True
                       end).
  { induction d; simpl; done. }
  specialize (Hhead (Pos.to_uint p)). unfold Decimal.unorm in H.
  destruct (Decimal.nzhead (Pos.to_uint p)); by rewrite H.
Qed.

(** A number of more than [k] digits is at least [10 ^ k]. *)
Lemma digits_of_bound n k :
  (1 ≤ k)%nat → Z.abs n < 10 ^ Z.of_nat k → (digits_of n ≤ k)%nat.
Proof.
  unfold digits_of. pose proof (Z.abs_nonneg n) as Habs. intros Hk1.
  destruct (Z.abs n) as [|p|p]; [done|clear Habs|lia].
  rewrite str_of_int_pos. intros Hp.
  pose proof (number_digits (Pos.to_uint p)) as Hnum.
  rewrite Stdlib.Numbers.DecimalPos.Unsigned.of_to in Hnum.
  pose proof (to_uint_head p) as Hhead.
  assert (Hlow : 10 ^ Z.of_nat (length (digits (Pos.to_uint p)) - 1)
                 ≤ Z.pos p).
  { change (Z.of_N (N.pos p)) with (Z.pos p) in Hnum. rewrite <- Hnum.
    destruct (Pos.to_uint p) as [|d|d|d|d|d|d|d|d|d|d]; try done;
      unfold digits;
      cbn [NilEmpty.string_of_uint str list_ascii_of_string map length];
      fold (str (NilEmpty.string_of_uint d)); fold (digits d);
      rewrite number_cons, number_acc;
      match goal with
      | |- context [decimal_value ?c] =>
          let v := eval vm_compute in (decimal_value c) in
          change (decimal_value c) with v
      end;
      cbn [default from_option id];
      replace (S (length (digits d)) - 1)%nat with (length (digits d))
        by lia;
      pose proof (number_nonneg (digits d) 0 ltac:(done));
      assert (0 < 10 ^ Z.of_nat (length (digits d)))
        by (apply Z.pow_pos_nonneg; lia);
      nia. }
  destruct (decide (length (digits (Pos.to_uint p)) ≤ k)%nat) as [|Hgt];
    [done|].
  assert (10 ^ Z.of_nat k ≤ 10 ^ Z.of_nat (length (digits (Pos.to_uint p)) - 1));
    [|lia].
  apply Z.pow_le_mono_r; lia.
Qed.

(** The keys of the store are within the limit of [int] and [str]. *)
Lemma digits_of_int64 n :
  Db.min_int64 ≤ n ≤ Db.max_int64 → (digits_of n ≤ max_str_digits)%nat.
Proof.
  intros Hn. transitivity 19%nat; [|unfold max_str_digits; lia].
  apply digits_of_bound; [lia|]. unfold Db.min_int64, Db.max_int64 in Hn.
  change (10 ^ Z.of_nat 19) with 10000000000000000000. lia.
Qed.

(** A run of digits is read up to the character that follows it. *)
Lemma read_digits_digits s : ∀ acc n rest,
  forallb ascii_digit s = true →
  match rest with [] => True | c :: _ => decimal_value c = None end →
  Float.read_digits (s ++ rest) acc n
  = (number acc s, n + Z.of_nat (length s), rest).
Proof.
  induction s as [|c s IH]; intros acc n rest Hs Hrest.
  { simpl. rewrite Z.add_0_r. destruct rest as [|c r]; [done|].
    simpl. by rewrite Hrest. }
  simpl in Hs. apply andb_prop in Hs as [Hc Hs].
  cbn [app Float.read_digits]. rewrite (ascii_digit_value c Hc).
  rewrite (IH _ _ rest Hs Hrest), number_cons, (ascii_digit_value c Hc).
  cbn [default from_option id length]. do 2 f_equal. lia.
Qed.

Lemma split_plain (s : pystr) : ∀ cur,
  forallb (λ c, negb (c =? 0x24)%N) s = true →
  split_from (str "$") O cur s = [rev cur ++ s].
Proof.
  induction s as [|c s IH]; intros cur Hs.
  { simpl. by rewrite app_nil_r. }
  simpl in Hs. apply andb_prop in Hs as [Hc%negb_true_iff Hs].
  cbn [split_from]. change (starts_with (str "$") (c :: s))
    with ((0x24 =? c)%N && true).
  rewrite N.eqb_sym, Hc. cbn [andb]. rewrite (IH _ Hs). simpl.
  by rewrite <- app_assoc.
Qed.

(** Taking the dollar sign off the text of an amount. *)
Lemma replace_dollar (s : pystr) :
  forallb numeral_char s = true →
  replace (str "$") [] (strip (str "$" ++ s)) = s.
Proof.
  intros Hs. rewrite strip_plain.
  2:{ simpl. by apply numeral_no_space. }
  unfold replace, split. change (str "$" ++ s) with (0x24%N :: s).
  cbn [split_from]. change (starts_with (str "$") (0x24%N :: s)) with true.
  cbv iota. change (length (str "$") - 1)%nat with O.
  rewrite split_plain; [done|].
  rewrite forallb_forall in Hs |- *. intros c Hc.
  by destruct (numeral_char_plain c (Hs c Hc)) as [_ ->].
Qed.
Lemma round_cents_nonneg m e : 0 ≤ Float.round_cents m e.
Proof.
  unfold Float.round_cents. destruct e as [|e|e]; [lia|lia|].
  assert (Hd : 0 < 2 ^ (- Z.neg e)) by (apply Z.pow_pos_nonneg; lia).
  assert (Hq : 0 ≤ Z.pos m * 100 / 2 ^ (- Z.neg e))
    by (apply Z.div_pos; lia).
  destruct (_ ?= _); [destruct (Z.even _)|..]; lia.
Qed.

(** The two digits of the cents. *)
Lemma cents_digits k :
  0 ≤ k < 100 →
  let s := (if k <? 10 then str "0" else []) ++ str_of_int k in
  forallb ascii_digit s = true ∧ length s = 2%nat ∧ number 0 s = k.
Proof.
  intros Hk.
  assert (Hall : forallb
            (λ i : nat,
               let k := Z.of_nat i in
               let s := (if k <? 10 then str "0" else []) ++ str_of_int k in
               forallb ascii_digit s && (length s =? 2)%nat
               && (number 0 s =? k))
            (List.seq 0 100) = true) by (vm_compute; reflexivity).
  rewrite forallb_forall in Hall.
  assert (Hin : In (Z.to_nat k) (List.seq 0 100)) by (apply in_seq; lia).
  apply Hall in Hin. cbn zeta in Hin. rewrite Z2Nat.id in Hin by lia.
  apply andb_prop in Hin as [Hin H3]. apply andb_prop in Hin as [H1 H2].
  apply Nat.eqb_eq in H2. apply Z.eqb_eq in H3. done.
Qed.

(** The text of an amount of cents: digits, the point, two digits. *)
Lemma show_cents_shape c :
  0 ≤ c →
  ∃ d1 d2, Float.show_cents c = d1 ++ 0x2e%N :: d2
    ∧ d1 ≠ [] ∧ forallb ascii_digit d1 = true
    ∧ forallb ascii_digit d2 = true ∧ length d2 = 2%nat
    ∧ number (number 0 d1) d2 = c.
Proof.
  intros Hc. unfold Float.show_cents.
  destruct (str_of_int_nonneg (c / 100)) as (Hne & Hd1 & Hn1).
  { apply Z.div_pos; lia. }
  destruct (cents_digits (c mod 100)) as (Hd2 & Hlen & Hn2).
  { apply Z.mod_pos_bound. lia. }
  eexists _, _. split_and!; [reflexivity|done..|].
  rewrite number_acc, Hn1, Hn2, Hlen.
  change (10 ^ Z.of_nat 2) with 100. pose proof (Z.div_mod c 100). lia.
Qed.

Lemma read_sign_digit c r :
  ascii_digit c = true → Float.read_sign (c :: r) = (false, c :: r).
Proof. revert c. by apply ascii_digit_cases. Qed.

Lemma not_a_name c r :
  ascii_digit c = true →
  bool_decide (Float.lower (c :: r) = str "inf")
  || bool_decide (Float.lower (c :: r) = str "infinity") = false
  ∧ bool_decide (Float.lower (c :: r) = str "nan") = false.
Proof.
  revert c. apply ascii_digit_cases;
    (split; [apply orb_false_intro|]; apply bool_decide_eq_false_2;
     intros Heq; simpl in Heq; discriminate Heq).
Qed.

Lemma numeral_char_no_underscore c :
  numeral_char c = true → (c =? 0x5f)%N = false.
Proof.
  unfold numeral_char.
  intros [[Hc|Hc%N.eqb_eq]%orb_prop|Hc%N.eqb_eq]%orb_prop; subst;
    [|by vm_compute..].
  revert c Hc. apply ascii_digit_cases; by vm_compute.
Qed.

Lemma underscores_ok_plain s : ∀ prev,
  prev ≠ Some 0x5f%N → forallb numeral_char s = true →
  Float.underscores_ok prev s = true.
Proof.
  induction s as [|c s IH]; intros prev Hprev Hs; simpl.
  { by rewrite bool_decide_eq_false_2. }
  simpl in Hs. apply andb_prop in Hs as [Hc%numeral_char_no_underscore Hs].
  rewrite Hc, (bool_decide_eq_false_2 _ Hprev). simpl. apply IH; [|done].
  intros [= ->]. done.
Qed.

(** A text of digits, signs and points is read as it is. *)
Lemma of_str_plain s :
  forallb numeral_char s = true → Float.of_str s = Float.of_literal s.
Proof.
  intros Hs. unfold Float.of_str. cbv zeta.
  rewrite strip_number_plain by by apply numeral_no_space.
  rewrite underscores_ok_plain by done. f_equal.
  clear -Hs. induction s as [|c s IH]; [done|]. simpl in *.
  apply andb_prop in Hs as [Hc%numeral_char_no_underscore Hs].
  rewrite Hc. simpl. by rewrite IH.
Qed.

(** [float] on the text of a decimal number with a point. *)
Lemma of_str_numeral (neg : bool) (d1 d2 : pystr) :
  d1 ≠ [] → forallb ascii_digit d1 = true → forallb ascii_digit d2 = true →
  Float.of_str ((if neg then str "-" else []) ++ d1 ++ 0x2e%N :: d2)
  = Ok (Float.of_decimal neg (number (number 0 d1) d2)
          (- Z.of_nat (length d2))).
Proof.
  intros Hne Hd1 Hd2. rewrite of_str_plain.
  2:{ rewrite !forallb_app. simpl.
      rewrite !(ascii_digit_numeral _ Hd1), !(ascii_digit_numeral _ Hd2).
      by destruct neg. }
  unfold Float.of_literal.
  destruct d1 as [|c d1]; [done|]. simpl in Hd1.
  apply andb_prop in Hd1 as [Hc Hd1].
  assert (Float.read_sign ((if neg then str "-" else []) ++ (c :: d1)
                             ++ 0x2e%N :: d2)
          = (neg, (c :: d1) ++ 0x2e%N :: d2)) as ->.
  { destruct neg; [done|]. by apply read_sign_digit. }
  cbv beta iota zeta.
  destruct (not_a_name c (d1 ++ 0x2e%N :: d2) Hc) as [Hinf Hnan].
  change ((c :: d1) ++ 0x2e%N :: d2) with (c :: d1 ++ 0x2e%N :: d2).
  rewrite Hinf, Hnan.
  change (c :: d1 ++ 0x2e%N :: d2) with ((c :: d1) ++ 0x2e%N :: d2).
  rewrite read_digits_digits; [|by simpl; rewrite Hc|done].
  cbv beta iota zeta.
  rewrite <- (app_nil_r d2) at 1. rewrite read_digits_digits; [|done..].
  cbv beta iota zeta.
  assert ((0 + Z.of_nat (length (c :: d1)) + (0 + Z.of_nat (length d2))
           =? 0) = false) as ->.
  { apply Z.eqb_neq. cbn [length]. lia. }
  cbn [Float.read_exponent mbind result_bind]. do 2 f_equal; lia.
Qed.

(** [float] reads the text [f"{x:.2f}"] as the cents of [x]. *)
Lemma of_str_format_2f (x : float) :
  Float.of_str (replace (str "$") [] (strip (str "$" ++ Float.format_2f x)))
  = Ok (to_cents x).
Proof.
  destruct x as [s|s| |s m e];
    [by destruct s; vm_compute|by destruct s; vm_compute|by vm_compute|].
  unfold Float.format_2f, to_cents, cents.
  destruct (show_cents_shape (Float.round_cents m e)
              (round_cents_nonneg m e))
    as (d1 & d2 & -> & Hne & Hd1 & Hd2 & Hlen & <-).
  rewrite replace_dollar.
  - rewrite of_str_numeral, Hlen; done.
  - rewrite !forallb_app. simpl.
    rewrite !(ascii_digit_numeral _ Hd1), !(ascii_digit_numeral _ Hd2).
    by destruct s.
Qed.
End Number_texts.

(** ** Integers that are floats *)

Section Float_range.
Import Float.

Lemma digits2_size p : digits2_pos p = Pos.size p.
Proof. induction p; simpl; congruence. Qed.

Lemma digits2_succ p :
  Zpos (digits2_pos (Pos.succ p)) ≤ Zpos (digits2_pos p) + 1.
Proof. induction p; simpl; lia. Qed.

Lemma digits2_iter_xO m d :
  digits2_pos (Pos.iter xO m d) = (digits2_pos m + d)%positive.
Proof.
  induction d as [|d IH] using Pos.peano_ind.
  - simpl. lia.
  - rewrite Pos.iter_succ. simpl. rewrite IH. lia.
Qed.

(** A positive number of at most [k] binary digits is below [2^k],
    and conversely. *)
Lemma digits2_bound p k :
  0 ≤ k → Zpos p < 2 ^ k → Zpos (digits2_pos p) ≤ k.
Proof.
  intros Hk Hp. rewrite digits2_size.
  destruct (Z_le_gt_dec (Zpos (Pos.size p)) k) as [|Hgt]; [done|].
  pose proof (Pos.size_le p) as Hle.
  assert (2 ^ (k + 1) ≤ 2 ^ Zpos (Pos.size p))
    by (apply Z.pow_le_mono_r; lia).
  assert (2 ^ Zpos (Pos.size p) ≤ 2 * Zpos p).
  { rewrite <- (Pos2Z.inj_pow 2). lia. }
  rewrite Z.pow_add_r in * by lia. lia.
Qed.

Lemma shr_1_digits r :
  0 ≤ shr_m r →
  0 ≤ shr_m (shr_1 r) ∧ Zdigits2 (shr_m (shr_1 r)) ≤ Zdigits2 (shr_m r).
Proof.
  destruct r as [[|[p|p|]|p] ? ?]; simpl; intros ?; lia.
Qed.

Lemma iter_shr_1_digits p : ∀ r,
  0 ≤ shr_m r →
  0 ≤ shr_m (SpecFloat.iter_pos shr_1 p r)
  ∧ Zdigits2 (shr_m (SpecFloat.iter_pos shr_1 p r)) ≤ Zdigits2 (shr_m r).
Proof.
  induction p as [p IH|p IH|]; intros r Hr; simpl.
  - destruct (shr_1_digits r Hr) as [H1 H1'].
    destruct (IH _ H1) as [H2 H2']. destruct (IH _ H2) as [H3 H3']. lia.
  - destruct (IH _ Hr) as [H2 H2']. destruct (IH _ H2) as [H3 H3']. lia.
  - by apply shr_1_digits.
Qed.

Lemma shr_record_of_loc_m m l : shr_m (shr_record_of_loc m l) = m.
Proof. by destruct l as [|[]]. Qed.

(** One alignment of a mantissa: the mantissa does not grow, and the
    exponent is the larger of the one given and the one of the format. *)
Lemma shr_fexp_bound m e l :
  0 ≤ m →
  0 ≤ shr_m (shr_fexp prec emax m e l).1
  ∧ Zdigits2 (shr_m (shr_fexp prec emax m e l).1) ≤ Zdigits2 m
  ∧ (shr_fexp prec emax m e l).2
    = Z.max e (fexp prec emax (Zdigits2 m + e)).
Proof.
  intros Hm. unfold shr_fexp, shr.
  destruct (fexp prec emax (Zdigits2 m + e) - e) as [|n|n] eqn:Hn; simpl;
    rewrite ?shr_record_of_loc_m.
  - split_and!; lia.
  - pose proof (iter_shr_1_digits n (shr_record_of_loc m l)) as Hit.
    rewrite shr_record_of_loc_m in Hit. destruct (Hit Hm). split_and!; lia.
  - split_and!; lia.
Qed.

Lemma round_nearest_even_digits m l :
  0 ≤ m →
  0 ≤ round_nearest_even m l
  ∧ Zdigits2 (round_nearest_even m l) ≤ Zdigits2 m + 1.
Proof.
  intros Hm.
  assert (Hsucc : 0 ≤ m + 1 ∧ Zdigits2 (m + 1) ≤ Zdigits2 m + 1).
  { destruct m as [|p|p]; [simpl; lia| |lia].
    split; [lia|]. replace (Zpos p + 1) with (Zpos (Pos.succ p)) by lia.
    apply digits2_succ. }
  unfold round_nearest_even.
  destruct l as [|[]]; try destruct (Z.even m); lia.
Qed.

(** Rounding a mantissa of at most 64 bits, with an exponent that is
    not positive, stays far from the largest exponent. *)
Lemma binary_round_aux_finite s mx ex l s' :
  0 ≤ mx → Zdigits2 mx ≤ 64 → ex ≤ 0 →
  binary_round_aux prec emax s mx ex l ≠ S754_infinity s'.
Proof.
  intros Hm Hd He. unfold binary_round_aux.
  destruct (shr_fexp_bound mx ex l Hm) as (H1 & H1' & H1'').
  destruct (shr_fexp prec emax mx ex l) as [r1 e1]. simpl in *.
  destruct (round_nearest_even_digits (shr_m r1) (loc_of_shr_record r1) H1)
    as [H2 H2'].
  destruct (shr_fexp_bound _ e1 loc_Exact H2) as (H3 & H3' & H3'').
  destruct (shr_fexp prec emax _ e1 loc_Exact) as [r2 e2]. simpl in *.
  assert (He2 : e2 ≤ emax - prec).
  { subst e1 e2. unfold fexp, emin, prec, emax in *. lia. }
  destruct (shr_m r2); [done| |done].
  apply Z.leb_le in He2. by rewrite He2.
Qed.

Lemma binary_round_finite s m s' :
  Zpos m < 2 ^ 64 → binary_round prec emax s m 0 ≠ S754_infinity s'.
Proof.
  intros Hm%(digits2_bound m 64); [|done].
  unfold binary_round, shl_align.
  destruct (fexp prec emax (Zpos (digits2_pos m) + 0) - 0) as [|d|d] eqn:Hd.
  - apply binary_round_aux_finite; simpl; lia.
  - apply binary_round_aux_finite; simpl; lia.
  - apply binary_round_aux_finite; simpl; [lia| |].
    + rewrite digits2_iter_xO.
      unfold fexp, emin, prec, emax in *. lia.
    + unfold fexp, emin, prec, emax in *. lia.
Qed.

(** Every 64-bit integer can be converted: the product of a price and a
    stored quantity does not raise. *)
Lemma of_int_int64 n :
  Db.min_int64 ≤ n ≤ Db.max_int64 → is_ok (of_int n) = true.
Proof.
  unfold Db.min_int64, Db.max_int64. intros Hn.
  unfold of_int, nearest, binary_normalize.
  destruct n as [|m|m]; [done|..].
  - pose proof (binary_round_finite false m) as Hfin.
    destruct (binary_round prec emax false m 0); try done.
    exfalso. eapply Hfin; [lia|done].
  - pose proof (binary_round_finite true m) as Hfin.
    destruct (binary_round prec emax true m 0); try done.
    exfalso. eapply Hfin; [lia|done].
Qed.
Lemma digits2_succ_ge p :
  Zpos (digits2_pos p) ≤ Zpos (digits2_pos (Pos.succ p)).
Proof. induction p; simpl; lia. Qed.

Lemma Zdigits2_nonneg m : 0 ≤ Zdigits2 m.
Proof. destruct m; simpl; lia. Qed.

(** One shift takes one binary digit off. *)
Lemma shr_1_digits_eq r :
  0 ≤ shr_m r →
  Zdigits2 (shr_m (shr_1 r)) = Z.max 0 (Zdigits2 (shr_m r) - 1).
Proof.
  destruct r as [[|[p|p|]|p] ? ?]; simpl; intros ?; lia.
Qed.

Lemma iter_shr_1_digits_eq p : ∀ r,
  0 ≤ shr_m r →
  Zdigits2 (shr_m (SpecFloat.iter_pos shr_1 p r))
  = Z.max 0 (Zdigits2 (shr_m r) - Zpos p).
Proof.
  induction p as [p IH|p IH|]; intros r Hr; simpl.
  - destruct (shr_1_digits r Hr) as [H1 _].
    destruct (iter_shr_1_digits p _ H1) as [H2 _].
    rewrite IH, IH, shr_1_digits_eq by done. lia.
  - destruct (iter_shr_1_digits p r Hr) as [H2 _].
    rewrite IH, IH by done. lia.
  - by apply shr_1_digits_eq.
Qed.

(** The digits an alignment leaves. *)
Lemma shr_fexp_digits m e l :
  0 ≤ m →
  Zdigits2 (shr_m (shr_fexp prec emax m e l).1)
  = Z.min (Zdigits2 m)
      (Z.max 0 (Zdigits2 m - (fexp prec emax (Zdigits2 m + e) - e))).
Proof.
  intros Hm. pose proof (Zdigits2_nonneg m) as Hd. unfold shr_fexp, shr.
  destruct (fexp prec emax (Zdigits2 m + e) - e) as [|n|n] eqn:Hn; simpl;
    rewrite ?shr_record_of_loc_m.
  - lia.
  - rewrite iter_shr_1_digits_eq by by rewrite shr_record_of_loc_m.
    rewrite shr_record_of_loc_m. lia.
  - lia.
Qed.

Lemma round_nearest_even_ge m l :
  0 ≤ m → Zdigits2 m ≤ Zdigits2 (round_nearest_even m l).
Proof.
  intros Hm.
  assert (Hsucc : Zdigits2 m ≤ Zdigits2 (m + 1)).
  { destruct m as [|p|p]; [simpl; lia| |lia].
    replace (Zpos p + 1) with (Zpos (Pos.succ p)) by lia.
    apply digits2_succ_ge. }
  unfold round_nearest_even.
  destruct l as [|[]]; try destruct (Z.even m); lia.
Qed.

(** Rounding a number of more than 1024 binary digits overflows. *)
Lemma binary_round_aux_overflow s mx ex l :
  0 < mx → 0 ≤ ex → emax < Zdigits2 mx + ex →
  binary_round_aux prec emax s mx ex l = S754_infinity s.
Proof.
  intros Hm He Hd. unfold binary_round_aux.
  assert (Hd0 : 1 ≤ Zdigits2 mx) by (destruct mx; simpl; lia).
  destruct (shr_fexp_bound mx ex l) as (H1 & H1' & H1''); [lia|].
  pose proof (shr_fexp_digits mx ex l ltac:(lia)) as Hd1.
  destruct (shr_fexp prec emax mx ex l) as [r1 e1]. simpl in *.
  destruct (round_nearest_even_digits (shr_m r1) (loc_of_shr_record r1) H1)
    as [H2 H2'].
  pose proof (round_nearest_even_ge (shr_m r1) (loc_of_shr_record r1) H1)
    as H2''.
  destruct (shr_fexp_bound _ e1 loc_Exact H2) as (H3 & H3' & H3'').
  pose proof (shr_fexp_digits _ e1 loc_Exact H2) as Hd2.
  destruct (shr_fexp prec emax _ e1 loc_Exact) as [r2 e2]. simpl in *.
  assert (Hpos : 1 ≤ Zdigits2 (shr_m r2) ∧ emax - prec < e2).
  { subst e1 e2. unfold fexp, emin, prec, emax in *. lia. }
  destruct Hpos as [Hpos He2].
  destruct (shr_m r2) as [|p|p]; [simpl in Hpos; lia| |lia].
  apply Z.leb_gt in He2. by rewrite He2.
Qed.

Lemma binary_round_overflow s m :
  2 ^ 1024 ≤ Zpos m → binary_round prec emax s m 0 = S754_infinity s.
Proof.
  intros Hm.
  assert (Hd : 1024 < Zpos (digits2_pos m)).
  { rewrite digits2_size. pose proof (Pos.size_gt m) as Hgt.
    destruct (Z_le_gt_dec (Zpos (Pos.size m)) 1024) as [Hle|]; [|lia].
    assert (2 ^ Zpos (Pos.size m) ≤ 2 ^ 1024)
      by (apply Z.pow_le_mono_r; lia).
    assert (Zpos m < 2 ^ Zpos (Pos.size m)).
    { rewrite <- (Pos2Z.inj_pow 2). lia. }
    lia. }
  unfold binary_round, shl_align.
  destruct (fexp prec emax (Zpos (digits2_pos m) + 0) - 0) as [|d|d] eqn:Hn.
  - apply binary_round_aux_overflow; simpl; unfold emax; lia.
  - apply binary_round_aux_overflow; simpl; unfold emax; lia.
  - unfold fexp, emin, prec, emax in Hn. lia.
Qed.

(** An integer that converts to a float is below [2 ^ 1024]. *)
Lemma of_int_range n : is_ok (of_int n) = true → Z.abs n < 2 ^ 1024.
Proof.
  intros Hok. destruct (Z_lt_ge_dec (Z.abs n) (2 ^ 1024)) as [|Hge]; [done|].
  unfold of_int, nearest, binary_normalize in Hok.
  destruct n as [|m|m]; [done|..];
    rewrite binary_round_overflow in Hok by (simpl in Hge; lia); done.
Qed.

(** So [str] can write it: it has at most 309 digits. *)
Lemma of_int_digits n :
  is_ok (of_int n) = true → (digits_of n ≤ max_str_digits)%nat.
Proof.
  intros Hok%of_int_range. transitivity 309%nat; [|unfold max_str_digits; lia].
  apply digits_of_bound; [lia|].
  assert (2 ^ 1024 < 10 ^ Z.of_nat 309) by (vm_compute; reflexivity). lia.
Qed.
End Float_range.

(** ** The invoice *)

Section Invoice_properties.
Import Invoice.

Lemma row_printable y (it : item) :
  is_ok (Float.of_int it.2) = true → ∃ r, row y it = Ok r.
Proof.
  destruct it as [[product price] quantity]. simpl. intros Hq.
  apply of_int_digits in Hq as Hd. apply Nat.leb_le in Hd.
  unfold row, str_int, Float.mul_int. rewrite Nat.ltb_antisym, Hd.
  cbn [negb mbind result_bind].
  destruct (Float.of_int quantity); [|done]. simpl. eauto.
Qed.

Lemma iter_next_position n y :
  Nat.iter (S n) next_position y = Nat.iter n next_position (next_position y).
Proof. induction n as [|n IH]; [done|]. simpl in *. by rewrite IH. Qed.

(** The loop, without its accumulators: it adds one block per item, the
    row of the item followed by [showPage] when the position after the
    row is below 100, and ends at the position that follows the last
    row. *)
Lemma draw_items_blocks (items : list item) : ∀ y c,
  printable items →
  ∃ blocks,
    draw_items items y c
      = Ok (Nat.iter (length items) next_position y, c ++ concat blocks)
    ∧ length blocks = length items
    ∧ ∀ i it, items !! i = Some it →
        ∃ r, row (Nat.iter i next_position y) it = Ok r
          ∧ blocks !! i
            = Some (r ++ if breaks_after (Nat.iter i next_position y)
                         then [showPage] else []).
Proof.
  induction items as [|it items IH]; intros y c Hp.
  { exists []. simpl. rewrite app_nil_r. split_and!; [done..|].
    intros i it Hi. by rewrite lookup_nil in Hi. }
  apply Forall_cons in Hp as [Hit Hp].
  destruct (row_printable y it Hit) as [r Hr].
  set (b := r ++ if breaks_after y then [showPage] else []).
  destruct (IH (next_position y) (c ++ b) Hp)
    as (blocks & Hdraw & Hlen & Hrows).
  exists (b :: blocks). split_and!.
  - cbn [draw_items length]. rewrite Hr. cbn [mbind result_bind].
    rewrite iter_next_position. cbn [concat].
    rewrite (assoc_L (++) c b). rewrite <- Hdraw.
    unfold b, next_position, breaks_after.
    destruct (below (minus y 20) 100).
    + by rewrite (assoc_L (++)).
    + by rewrite app_nil_r.
  - simpl. by rewrite Hlen.
  - intros [|i] it' Hi.
    + injection Hi as <-. exists r. by split.
    + rewrite iter_next_position. apply (Hrows i it' Hi).
Qed.

(** Drawing succeeds when every subtotal can be computed. *)
Lemma render_printable bill_id customer date total items :
  printable items → ∃ doc, render bill_id customer date total items = Ok doc.
Proof.
  intros Hp. unfold render.
  destruct (draw_items_blocks items (minus height 200)
              (header bill_id customer date) Hp) as (blocks & -> & _).
  cbn [mbind result_bind]. eauto.
Qed.

(** The row of an item, when it can be drawn: the product, the price,
    the quantity and the subtotal, at the columns 50, 300, 400 and 500 of
    the same line. *)
Lemma row_Ok y product price quantity r :
  row y (product, price, quantity) = Ok r →
  r = [ drawString 50 y product;
        drawString 300 y (str "$" ++ Float.format_2f price);
        drawString 400 y (str_of_int quantity);
        drawString 500 y
          (str "$" ++ Float.format_2f
                        (Float.mul price (Float.nearest quantity))) ].
Proof.
  unfold row, str_int, Float.mul_int, Float.of_int.
  destruct (_ <? _)%nat; [done|]. cbn [mbind result_bind].
  destruct (Float.nearest quantity) as [s|s| |s m e]; simpl; congruence.
Qed.

(** C8: the invoice of a list of items is the header, then one block per
    item in the order of the list, then the grand total. The block of
    the [i]-th item is its row, the four texts of the item drawn at
    [position i], followed by a new page exactly when the position 20
    below that row is under 100. The grand total is drawn in bold 30
    under the position that follows the last row. The identifier is one
    that [str] writes, of at most 4300 digits. *)
Theorem invoice_layout (bill_id : Z) (customer date : pystr)
    (total : float) (items : list item) :
  (digits_of bill_id ≤ max_str_digits)%nat →
  printable items →
  ∃ blocks,
    render bill_id customer date total items
      = Ok ([ setFont (str "Helvetica-Bold") 16;
              drawString 180 (minus height 50)
                         (str "Tech & Electronics Invoice");
              setFont (str "Helvetica") 12;
              drawString 50 (minus height 100)
                         (str "Bill ID: " ++ str_of_int bill_id);
              drawString 50 (minus height 120) (str "Customer: " ++ customer);
              drawString 50 (minus height 140) (str "Date: " ++ date);
              drawString 50 (minus height 180) (str "Product");
              drawString 300 (minus height 180) (str "Price");
              drawString 400 (minus height 180) (str "Quantity");
              drawString 500 (minus height 180) (str "Subtotal") ]
            ++ concat blocks
            ++ [ setFont (str "Helvetica-Bold") 12;
                 drawString 50 (minus (position (length items)) 30)
                            (str "Grand Total: $" ++ Float.format_2f total) ])
    ∧ length blocks = length items
    ∧ ∀ i product price quantity,
        items !! i = Some (product, price, quantity) →
        blocks !! i
        = Some ([ drawString 50 (position i) product;
                  drawString 300 (position i)
                             (str "$" ++ Float.format_2f price);
                  drawString 400 (position i) (str_of_int quantity);
                  drawString 500 (position i)
                    (str "$" ++ Float.format_2f
                                  (Float.mul price (Float.nearest quantity))) ]
                ++ if below (minus (position i) 20) 100
                   then [showPage] else []).
Proof.
  intros _ Hp.
  destruct (draw_items_blocks items (minus height 200)
              (header bill_id customer date) Hp)
    as (blocks & Hdraw & Hlen & Hrows).
  exists blocks. split_and!; [|done|].
  - unfold render. rewrite Hdraw. cbn [mbind result_bind].
    by rewrite <- (assoc_L (++)).
  - intros i product price quantity Hi.
    destruct (Hrows i _ Hi) as (r & Hr & ->).
    by apply row_Ok in Hr as ->.
Qed.

Lemma invoice_layout_witness :
  let items := replicate 30 Sample.laptop in
  printable items
  ∧ ∃ blocks,
      render 7 (str "Ann") (str "2024-03-01") (Float.lit "48000.00") items
        = Ok ([ setFont (str "Helvetica-Bold") 16;
                drawString 180 (minus height 50)
                           (str "Tech & Electronics Invoice");
                setFont (str "Helvetica") 12;
                drawString 50 (minus height 100) (str "Bill ID: 7");
                drawString 50 (minus height 120) (str "Customer: Ann");
                drawString 50 (minus height 140) (str "Date: 2024-03-01");
                drawString 50 (minus height 180) (str "Product");
                drawString 300 (minus height 180) (str "Price");
                drawString 400 (minus height 180) (str "Quantity");
                drawString 500 (minus height 180) (str "Subtotal") ]
              ++ concat blocks
              ++ [ setFont (str "Helvetica-Bold") 12;
                   drawString 50 (minus (position 30) 30)
                              (str "Grand Total: $48000.00") ])
      ∧ length blocks = 30%nat
      ∧ blocks !! 27%nat
        = Some [ drawString 50 (position 27) (str "Laptop");
                 drawString 300 (position 27) (str "$800.00");
                 drawString 400 (position 27) (str "2");
                 drawString 500 (position 27) (str "$1600.00");
                 showPage ].
Proof.
  intros items.
  assert (Hp : printable items) by (apply Forall_replicate; reflexivity).
  assert (Hd : (digits_of 7 ≤ max_str_digits)%nat)
    by (apply Nat.leb_le; vm_compute; reflexivity).
  split; [exact Hp|].
  destruct (invoice_layout 7 (str "Ann") (str "2024-03-01")
              (Float.lit "48000.00") items Hd Hp)
    as (blocks & Hdoc & Hlen & Hrows).
  exists blocks. split_and!; [exact Hdoc|exact Hlen|].
  exact (Hrows 27%nat (str "Laptop") (Float.lit "800.00") 2 eq_refl).
Defined.

(** Among the first hundred rows, a new page follows the 28th, the 63rd
    and the 98th: 28 rows fit under the header, 35 on a later page. *)
Example page_breaks :
  filter (λ i, breaks_after (position i) = true) (seq 0 100)
  = [27; 62; 97]%nat.
Proof. vm_compute. reflexivity. Qed.


Lemma generate_invoice_Ok fs bill_id customer date total items doc :
  render bill_id customer date total items = Ok doc →
  generate_invoice fs bill_id customer date total items
  = (Os.write (Os.makedirs fs (str "invoices")) (invoice_path bill_id) doc,
     Ok (invoice_path bill_id)).
Proof. unfold generate_invoice. by intros ->. Qed.

(** A failed [generate_invoice] writes no file. *)
Lemma generate_invoice_Raise fs bill_id customer date total items fs' e :
  generate_invoice fs bill_id customer date total items = (fs', Raise e) →
  Os.files fs' = Os.files fs.
Proof.
  unfold generate_invoice. destruct (render _ _ _ _ _); [done|].
  by intros [= <- _].
Qed.

(** C4: the file of the bill [bill_id] is [invoice_<bill_id>.pdf] in the
    directory [invoices], whatever the other arguments are. Two calls
    for the same bill return this same path; after the second call the
    path holds the document of the second call, and the other files are
    those from before the first call. *)
Theorem generate_invoice_path (fs : filesystem) (bill_id : Z)
    (customer1 date1 customer2 date2 : pystr) (total1 total2 : float)
    (items1 items2 : list item) :
  printable items1 → printable items2 →
  ∃ fs1 fs2 doc1 doc2,
    let p := [str "invoices";
              str "invoice_" ++ str_of_int bill_id ++ str ".pdf"] in
    generate_invoice fs bill_id customer1 date1 total1 items1 = (fs1, Ok p)
    ∧ generate_invoice fs1 bill_id customer2 date2 total2 items2
      = (fs2, Ok p)
    ∧ Os.show_path p
      = str "invoices/invoice_" ++ str_of_int bill_id ++ str ".pdf"
    ∧ render bill_id customer1 date1 total1 items1 = Ok doc1
    ∧ render bill_id customer2 date2 total2 items2 = Ok doc2
    ∧ Os.files fs1 = <[p := doc1]> (Os.files fs)
    ∧ Os.files fs2 = <[p := doc2]> (Os.files fs).
Proof.
  intros Hp1 Hp2.
  destruct (render_printable bill_id customer1 date1 total1 items1 Hp1)
    as [doc1 Hdoc1].
  destruct (render_printable bill_id customer2 date2 total2 items2 Hp2)
    as [doc2 Hdoc2].
  eexists _, _, doc1, doc2. cbn zeta. split_and!.
  - by apply generate_invoice_Ok.
  - by apply generate_invoice_Ok.
  - done.
  - done.
  - done.
  - done.
  - simpl. apply insert_insert_eq.
Qed.

Lemma generate_invoice_path_witness :
  printable [Sample.laptop; Sample.mouse] ∧ printable [Sample.laptop]
  ∧ ∃ fs1 fs2 doc1 doc2,
      let p := [str "invoices"; str "invoice_12.pdf"] in
      generate_invoice Sample.disk 12 (str "Ann") (str "d")
                       (Float.lit "1720.00") [Sample.laptop; Sample.mouse]
      = (fs1, Ok p)
      ∧ generate_invoice fs1 12 (str "Bob") (str "e")
                         (Float.lit "1600.00") [Sample.laptop]
        = (fs2, Ok p)
      ∧ Os.show_path p = str "invoices/invoice_12.pdf"
      ∧ render 12 (str "Ann") (str "d") (Float.lit "1720.00")
               [Sample.laptop; Sample.mouse] = Ok doc1
      ∧ render 12 (str "Bob") (str "e") (Float.lit "1600.00")
               [Sample.laptop] = Ok doc2
      ∧ Os.files fs1 = <[p := doc1]> (Os.files Sample.disk)
      ∧ Os.files fs2 = <[p := doc2]> (Os.files Sample.disk).
Proof.
  assert (Hp1 : printable [Sample.laptop; Sample.mouse])
    by (repeat constructor).
  assert (Hp2 : printable [Sample.laptop]) by (repeat constructor).
  split_and!; [exact Hp1|exact Hp2|].
  exact (generate_invoice_path Sample.disk 12 (str "Ann") (str "d")
           (str "Bob") (str "e") (Float.lit "1720.00") (Float.lit "1600.00")
           _ _ Hp1 Hp2).
Defined.
End Invoice_properties.


(** ** What the store keeps true *)

Section Well_formed.
Import Db.

Lemma well_formed_init_db file :
  (∀ k r, has_bill file k r → min_int64 ≤ k ≤ max_int64) →
  (∀ k r, has_item file k r → min_int64 ≤ quantity r ≤ max_int64) →
  well_formed (init_db file).1.
Proof.
  intros Hb Hi. split_and!; [apply init_db_tables|..].
  - intros k r (t & Ht & Hk). apply (Hb k r).
    destruct file as [[tb|] ti]; simpl in *; simplify_eq. by exists t.
  - intros k r (t & Ht & Hk). apply (Hi k r).
    destruct file as [tb [ti|]]; simpl in *; simplify_eq. by exists t.
Qed.

Lemma well_formed_no_tables : well_formed (init_db no_tables).1.
Proof. apply well_formed_init_db; by intros k r (t & ? & _). Qed.

Lemma well_formed_add_bill file customer date total items :
  well_formed file →
  well_formed (add_bill file customer date total items).1.
Proof.
  intros (Hinit & Hb & Hi).
  destruct (add_bill file customer date total items) as [file' [bid|e]]
    eqn:Hadd; simpl.
  2:{ by apply add_bill_Raise in Hadd as ->. }
  apply add_bill_Ok in Hadd as (conn & H1 & H2).
  apply insert_bill_Ok in H1 as (tb & tb' & Htb & Htb' & Hci & Hins).
  apply insert_Ok in Hins as (_ & Hrows & _ & Hbid).
  pose proof (max_rowid_nonneg (rows tb)) as Hmax.
  apply insert_items_Ok in H2 as [Hfb Hrest].
  assert (Hbills : ∀ k r, has_bill file' k r → min_int64 ≤ k ≤ max_int64).
  { intros k r (t & Ht & Hk).
    assert (t = tb') as -> by congruence. rewrite Hrows in Hk.
    apply lookup_insert_Some in Hk as [[<- _]|[_ Hk]].
    - unfold min_int64, last_rowid in *. lia.
    - apply (Hb k r). by exists tb. }
  destruct Hrest as [[-> ->]|(ti & ti' & ks & Hti & Hti' & Hlen & Hnd
                              & Hnone & Hrows' & _ & Hqs)].
  - split_and!; [|done|].
    + split; [by rewrite Htb'|]. rewrite Hci. apply Hinit.
    + intros k r (t & Ht & Hk). apply (Hi k r). exists t.
      split; [congruence|done].
  - split_and!; [|done|].
    + split; [by rewrite Hfb, Htb'|by rewrite Hti'].
    + intros k r (t & Ht & Hk).
      assert (t = ti') as -> by congruence. rewrite Hrows' in Hk.
      apply lookup_union_Some_raw in Hk as [Hk|[_ Hk]].
      * apply elem_of_list_to_map_2, elem_of_zip_r in Hk.
        apply list_elem_of_fmap in Hk as (it & -> & Hit).
        rewrite Forall_forall in Hqs. apply (Hqs it Hit).
      * apply (Hi k r). exists ti. split; [congruence|done].
Qed.

(** Every store the API makes from a new file is well formed. *)
Lemma well_formed_after (cs : list call) :
  well_formed (after_all no_tables (call_init_db :: cs)).
Proof.
  cbn [after_all foldl after].
  generalize well_formed_no_tables. generalize (init_db no_tables).1.
  induction cs as [|c cs IH]; intros file Hwf; [done|].
  cbn [foldl]. apply IH. destruct c; cbn [after]; [|by apply well_formed_add_bill|done..].
  destruct Hwf as (Hinit & ? & ?). by apply well_formed_init_db.
Qed.

(** The items read from a well-formed store can be drawn. *)
Lemma fetch_bill_items_printable file id :
  well_formed file → min_int64 ≤ id ≤ max_int64 →
  ∃ items, fetch_bill_items file id = Ok items ∧ printable items.
Proof.
  intros ((_ & [t Ht]) & _ & Hq) Hid. unfold fetch_bill_items, bind_int.
  rewrite Ht.
  assert ((min_int64 <=? id) && (id <=? max_int64) = true) as ->.
  { apply andb_true_intro. split; apply Z.leb_le; lia. }
  eexists. split; [done|]. unfold printable.
  apply Forall_fmap, Forall_forall. intros [k r] Hin. simpl.
  apply list_elem_of_filter in Hin as [_ Hin].
  rewrite merge_sort_Permutation in Hin.
  apply elem_of_map_to_list in Hin.
  apply of_int_int64, (Hq k r). by exists t.
Qed.
End Well_formed.

(** ** Exporting an invoice *)

Section Export_properties.
Import Db Gui.

Lemma export_Ok w (b : bill_tuple) items doc :
  fetch_bill_items (store w) (id_of b) = Ok items →
  Invoice.render (id_of b) b.1.1.2 b.1.2 b.2 items = Ok doc →
  export w b
  = (set_disk w (invoice_written (disk w) b doc),
     Ok (Invoice.invoice_path (id_of b))).
Proof.
  destruct b as [[[bid customer] date] total]. unfold id_of. simpl.
  intros Hitems Hdoc. unfold export. rewrite Hitems.
  by rewrite (generate_invoice_Ok _ _ _ _ _ _ _ Hdoc).
Qed.

Lemma invoice_written_exists fs b doc :
  Os.exists_ (invoice_written fs b doc) (Invoice.invoice_path (id_of b))
  = true.
Proof.
  unfold Os.exists_, invoice_written. simpl.
  rewrite lookup_insert_eq. rewrite bool_decide_eq_true_2; eauto.
Qed.

(** The handlers on a bill [b] they have found. *)
Lemma exports_current w b :
  well_formed (store w) → min_int64 ≤ id_of b ≤ max_int64 →
  current_bill w = Ok (Some b) → exports w b.
Proof.
  intros Hwf Hid Hcur.
  destruct (fetch_bill_items_printable _ _ Hwf Hid) as (items & Hitems & Hp).
  destruct (render_printable (id_of b) b.1.1.2 b.1.2 b.2 items Hp)
    as [doc Hdoc].
  pose proof (export_Ok w b items doc Hitems Hdoc) as Hexp.
  exists items, doc. split_and!; [done..| |].
  - eexists. unfold export_invoice. rewrite Hcur, Hexp. reflexivity.
  - unfold open_invoice_external. rewrite Hcur. cbn zeta.
    change (b.1.1.1) with (id_of b).
    destruct (Os.exists_ (disk w) _) eqn:Hex.
    + by rewrite Hex.
    + rewrite Hexp. cbn [disk set_disk].
      by rewrite invoice_written_exists.
Qed.

Lemma rejected_no_bills w :
  current_bill w = Ok None →
  rejected w (export_invoice w) ∧ rejected w (open_invoice_external w).
Proof.
  intros Hcur. unfold export_invoice, open_invoice_external.
  rewrite Hcur. split; apply show_rejected.
Qed.

(** C10: on a well-formed store, with no bill selected, the two invoice
    handlers work on the first row of [fetch_bills], whose identifier is
    greater than that of every other bill; they show an error and do
    nothing else exactly when [fetch_bills] returns no row. With a bill
    selected (its identifier a 64-bit integer, as those of the store
    are) they work on that bill. *)
Theorem export_invoice_latest (w : world) :
  well_formed (store w) →
  match selected_bill (app w) with
  | Some b => min_int64 ≤ id_of b ≤ max_int64 → exports w b
  | None =>
      ∃ rs, fetch_bills (store w) = Ok rs
        ∧ match rs with
          | [] => rejected w (export_invoice w)
                  ∧ rejected w (open_invoice_external w)
          | b :: rest =>
              Forall (λ b', id_of b' < id_of b) rest ∧ exports w b
          end
  end.
Proof.
  intros Hwf. destruct (selected_bill (app w)) as [b|] eqn:Hsel.
  { intros Hid. apply exports_current; [done..|].
    unfold current_bill. by rewrite Hsel. }
  destruct Hwf as (([t Ht] & Hi) & Hkeys & Hq).
  destruct (fetch_bills_Ok _ _ Ht) as (l & Hrs & Hperm & Hsorted).
  exists (bill_row <$> l). split; [done|].
  assert (Hcur : current_bill w = Ok (head (bill_row <$> l))).
  { unfold current_bill. by rewrite Hsel, Hrs. }
  destruct l as [|[k r] rest]; [by apply rejected_no_bills|].
  apply StronglySorted_inv in Hsorted as [_ Hgreatest]. split.
  { apply Forall_fmap. eapply Forall_impl; [exact Hgreatest|]. by intros []. }
  apply exports_current; [by split_and!; eauto| |done].
  apply (Hkeys k r). exists t. split; [done|].
  apply elem_of_map_to_list. rewrite <- Hperm. apply list_elem_of_here.
Qed.

Lemma export_invoice_latest_witness :
  let w := Sample.world [] (str "") (str "1") in
  well_formed (store w)
  ∧ ∃ rs, fetch_bills (store w) = Ok rs
      ∧ match rs with
        | [] => rejected w (export_invoice w)
                ∧ rejected w (open_invoice_external w)
        | b :: rest =>
            Forall (λ b', id_of b' < id_of b) rest ∧ exports w b
        end.
Proof.
  intros w.
  assert (Hwf : well_formed (store w)).
  { split_and!.
    - split; simpl; eauto.
    - intros k r (t & [= <-] & Hk). simpl in Hk.
      apply lookup_insert_Some in Hk as [[<- _]|[_ Hk]]; [done|].
      by apply lookup_singleton_Some in Hk as [<- _].
    - intros k r (t & [= <-] & Hk). simpl in Hk.
      apply lookup_insert_Some in Hk as [[_ <-]|[_ Hk]]; [done|].
      apply lookup_insert_Some in Hk as [[_ <-]|[_ Hk]]; [done|].
      by apply lookup_singleton_Some in Hk as [_ <-]. }
  split; [exact Hwf|].
  exact (export_invoice_latest w Hwf).
Defined.

(** On the sample store, whose latest bill is the second one, both
    handlers end with the invoice of bill 2 on the disk. *)
Example export_invoice_sample :
  let w := Sample.world [] (str "") (str "1") in
  let p := [str "invoices"; str "invoice_2.pdf"] in
  is_Some (Os.files (disk (export_invoice w).1) !! p)
  ∧ is_Some (Os.files (disk (open_invoice_external w).1) !! p)
  ∧ last (shown (open_invoice_external w).1) = Some (open_viewer p).
Proof. vm_compute. eauto. Qed.
End Export_properties.

(** ** A valid save succeeds *)

Section Save_succeeds.
Import Db Gui.

Lemma max_rowid_le {R} (m : gmap Z R) b :
  0 ≤ b → (∀ k r, m !! k = Some r → k ≤ b) → max_rowid m ≤ b.
Proof.
  intros Hb Hkeys. unfold max_rowid.
  assert (Hall : Forall (λ k, k ≤ b) (map_to_list m).*1).
  { apply Forall_fmap, Forall_forall. intros [k r] Hkr. simpl.
    apply (Hkeys k r). by apply elem_of_map_to_list. }
  induction Hall as [|k l Hk _ IH]; simpl; lia.
Qed.

(** With room for one more key the insertion succeeds, and uses up one
    key. *)
Lemma insert_room {R} (t : table R) (r : R) :
  last_rowid t < max_int64 →
  ∃ t', insert t r = Ok (t', last_rowid t + 1)
    ∧ last_rowid t' = last_rowid t + 1.
Proof.
  intros Hroom. unfold insert. apply Z.leb_gt in Hroom as Hleb.
  rewrite Hleb. eexists. split; [done|].
  unfold last_rowid at 1. simpl.
  assert (max_rowid (<[last_rowid t + 1 := r]> (rows t)) ≤ last_rowid t + 1);
    [|lia].
  pose proof (max_rowid_nonneg (rows t)).
  apply max_rowid_le; [unfold last_rowid; lia|].
  intros k x [[<- _]|[_ Hk%max_rowid_ge]]%lookup_insert_Some;
    unfold last_rowid; lia.
Qed.

Lemma insert_items_room items : ∀ conn t bid,
  bill_items conn = Some t →
  last_rowid t + Z.of_nat (length items) ≤ max_int64 →
  min_int64 ≤ bid ≤ max_int64 →
  Forall (λ it : pystr * float * Z, min_int64 ≤ it.2 ≤ max_int64) items →
  Forall (λ it : pystr * float * Z, encodable it.1.1 = true) items →
  ∃ conn', insert_items conn bid items = Ok conn'
    ∧ bills conn' = bills conn.
Proof.
  induction items as [|[[p pr] q] items IH];
    intros conn t bid Ht Hroom Hbid Hq Hp.
  { by exists conn. }
  apply Forall_cons in Hq as [Hq Hqs]. simpl in Hq, Hroom.
  apply Forall_cons in Hp as [Hp Hps]. simpl in Hp.
  destruct (insert_room t (BillItem bid p pr q)) as (t' & Hins & Hlast);
    [lia|].
  assert (Hitem : insert_item conn bid (p, pr, q)
                  = Ok (Database (bills conn) (Some t'))).
  { unfold insert_item, bind_int, bind_text. rewrite Ht, Hp.
    assert ((min_int64 <=? bid) && (bid <=? max_int64) = true) as ->
      by (apply andb_true_intro; split; apply Z.leb_le; lia).
    assert ((min_int64 <=? q) && (q <=? max_int64) = true) as ->
      by (apply andb_true_intro; split; apply Z.leb_le; lia).
    simpl. by rewrite Hins. }
  destruct (IH (Database (bills conn) (Some t')) t' bid) as (conn' & Hrest & Hb);
    [done|lia|done|done|done|].
  exists conn'. split; [|done]. cbn [insert_items]. by rewrite Hitem.
Qed.

Lemma sum_from_printable lines : ∀ acc,
  printable lines → ∃ total, sum_from acc lines = Ok total.
Proof.
  induction lines as [|[[name price] qty] lines IH]; intros acc Hp; simpl.
  { eauto. }
  apply Forall_cons in Hp as [Hq Hp]. simpl in Hq. unfold Float.mul_int.
  destruct (Float.of_int qty); [|done]. simpl. by apply IH.
Qed.

(** With a customer name, a cart whose quantities are 64-bit integers,
    texts that can be encoded, and room for the new keys in both tables,
    [save_bill] saves the bill. *)
Lemma save_bill_succeeds now w tb ti :
  customer_name w ≠ [] → cart (app w) ≠ [] →
  bills (store w) = Some tb → bill_items (store w) = Some ti →
  last_rowid tb < max_int64 →
  last_rowid ti + Z.of_nat (length (cart (app w))) ≤ max_int64 →
  Forall (λ it : cart_line, min_int64 ≤ it.2 ≤ max_int64) (cart (app w)) →
  encodable (customer_name w) = true → encodable now = true →
  Forall (λ it : cart_line, encodable it.1.1 = true) (cart (app w)) →
  (save_bill now w).2 = Ok () ∧ bill_saved w (save_bill now w).1.
Proof.
  intros Hname Hcart Htb Hti Hroomb Hroomi Hq Henc Hnow Hps.
  destruct (sum_from_printable (cart (app w)) (S754_zero false))
    as [total Htotal].
  { eapply Forall_impl; [exact Hq|]. intros it. apply of_int_int64. }
  destruct (insert_room tb (Bill (customer_name w) now total) Hroomb)
    as (tb' & Hins & _).
  pose proof (max_rowid_nonneg (rows tb)) as Hmax.
  destruct (insert_items_room (cart (app w))
              (Database (Some tb') (bill_items (store w))) ti
              (last_rowid tb + 1)) as (file' & Hitems & Hbills);
    [done|done|unfold min_int64, last_rowid in *; lia|done|done|].
  assert (Hadd : add_bill (store w) (customer_name w) now total (cart (app w))
                 = (file', Ok (last_rowid tb + 1))).
  { unfold add_bill, insert_bill, bind_text. rewrite Htb, Henc, Hnow.
    cbn [mbind result_bind]. rewrite Hins. simpl.
    by rewrite Hitems. }
  unfold save_bill, bill_saved. fold (customer_name w).
  destruct (customer_name w) as [|c name]; [done|].
  destruct (cart (app w)) as [|line lines]; [done|].
  fold (cart_total (line :: lines)) in Htotal. rewrite Htotal, Hadd.
  split; [done|]. unfold load_bills, fetch_bills. cbn [store set_app set_store show].
  rewrite Hbills. simpl. eauto.
Qed.

(** The handlers keep the store well formed. *)
Lemma save_bill_well_formed now w :
  well_formed (store w) → well_formed (store (save_bill now w).1).
Proof.
  intros Hwf. unfold save_bill.
  destruct (strip _) as [|ch name]; [done|].
  destruct (cart (app w)) as [|line lines]; [done|].
  destruct (cart_total _) as [total|]; [|done].
  pose proof (well_formed_add_bill (store w) (ch :: name) now total
                (line :: lines) Hwf) as Hwf'.
  destruct (add_bill _ _ _ _ _) as [file [bid|e]]; simpl in *.
  - by rewrite load_bills_store.
  - done.
Qed.

Lemma init_well_formed fs : well_formed (store (init no_tables fs)).
Proof.
  unfold init. cbn [init_db no_tables bills bill_items create_if_not_exists].
  rewrite load_bills_store. apply well_formed_no_tables.
Qed.
End Save_succeeds.

(** ** One file per bill *)

Section Paths.

Lemma str_inj s1 s2 : str s1 = str s2 → s1 = s2.
Proof.
  unfold str. revert s2. induction s1 as [|a s1 IH]; intros [|b s2]; simpl;
    try done.
  intros [= Hab Hs]. f_equal; [|by apply IH].
  rewrite <- (ascii_N_embedding a), <- (ascii_N_embedding b). by rewrite Hab.
Qed.

Lemma str_of_int_inj a b : str_of_int a = str_of_int b → a = b.
Proof.
  unfold str_of_int. intros H%str_inj.
  assert (Hnil : ∀ z, Z.to_int z ≠ Decimal.Pos Decimal.Nil
                      ∧ Z.to_int z ≠ Decimal.Neg Decimal.Nil).
  { intros [|p|p]; simpl; split; try done; intros [= Hp];
      by apply Stdlib.Numbers.DecimalPos.Unsigned.to_uint_nonnil in Hp. }
  assert (Hint : Some (Z.to_int a) = Some (Z.to_int b)).
  { destruct (Hnil a), (Hnil b).
    rewrite <- (NilZero.isi (Z.to_int a)), <- (NilZero.isi (Z.to_int b)) by done.
    by rewrite H. }
  injection Hint as Hint.
  rewrite <- (Stdlib.Numbers.DecimalZ.of_to a), <- (Stdlib.Numbers.DecimalZ.of_to b). by rewrite Hint.
Qed.

(** Two bills have two files. *)
Lemma invoice_path_inj a b :
  Invoice.invoice_path a = Invoice.invoice_path b → a = b.
Proof.
  unfold Invoice.invoice_path, Os.path_join. intros [= H].
  apply app_inv_tail in H. by apply str_of_int_inj.
Qed.
End Paths.

(** ** The newest bill comes first *)

Section Newest_first.
Import Db.

(** The bill [add_bill] has just added is the first row of
    [fetch_bills]: its identifier is above all the others. *)
Lemma add_bill_newest_first file customer date total items file' bid :
  add_bill file customer date total items = (file', Ok bid) →
  ∃ rest, fetch_bills file' = Ok ((bid, customer, date, total) :: rest).
Proof.
  intros (conn & H1 & H2)%add_bill_Ok.
  apply insert_bill_Ok in H1 as (tb & tb' & Htb & Htb' & _ & Hins).
  apply insert_Ok in Hins as (_ & Hrows & _ & Hbid & _).
  apply insert_items_Ok in H2 as [Hb _]. rewrite Htb' in Hb.
  destruct (fetch_bills_Ok file' tb' Hb) as (l & Hfetch & Hperm & Hsorted).
  assert (Hmax : ∀ kr, kr ∈ l → kr.1 ≤ bid).
  { intros [k r]. rewrite Hperm, elem_of_map_to_list, Hrows. simpl.
    intros [[<- _]|[_ Hk%max_rowid_ge]]%lookup_insert_Some; [lia|].
    unfold last_rowid in Hbid. lia. }
  assert (Hin : (bid, Bill customer date total) ∈ l).
  { rewrite Hperm, elem_of_map_to_list, Hrows. apply lookup_insert_eq. }
  rewrite Hfetch. destruct l as [|[k r] l]; [by apply elem_of_nil in Hin|].
  exists (bill_row <$> l). simpl. do 2 f_equal.
  apply StronglySorted_inv in Hsorted as [_ Hhead].
  apply elem_of_cons in Hin as [Heq|Hin]; [by rewrite <- Heq|].
  rewrite Forall_forall in Hhead. specialize (Hhead _ Hin).
  specialize (Hmax (k, r) (list_elem_of_here _ _)). simpl in *. lia.
Qed.
End Newest_first.

(** * More properties of the store *)

Section Sorted_lists.
Context {A : Type} (R : relation A).
Hypothesis R_irrefl : ∀ x, ¬ R x x.
Hypothesis R_asym : ∀ x y, R x y → R y x → False.

Lemma strict_sorted_NoDup l : StronglySorted R l → NoDup l.
Proof.
  induction 1 as [|x l _ IH Hx]; constructor; [|done].
  intros Hin. rewrite Forall_forall in Hx. by apply (R_irrefl x), Hx.
Qed.

(** Two strictly sorted lists with the same elements are the same list. *)
Lemma strict_sorted_ext l1 l2 :
  StronglySorted R l1 → StronglySorted R l2 →
  (∀ x, x ∈ l1 ↔ x ∈ l2) → l1 = l2.
Proof.
  intros H1 H2 Hel. apply (StronglySorted_unique_strong R); [|done..|].
  - intros x y _ _ Hxy Hyx. by destruct (R_asym x y).
  - apply NoDup_Permutation; auto using strict_sorted_NoDup.
Qed.

Lemma strict_sorted_filter (P : A → Prop) `{!∀ x, Decision (P x)} l :
  StronglySorted R l → StronglySorted R (filter P l).
Proof.
  induction 1 as [|x l _ IH Hx]; [constructor|].
  rewrite filter_cons. destruct (decide (P x)); [|done].
  constructor; [done|]. apply Forall_forall. intros y [_ Hy]%list_elem_of_filter.
  rewrite Forall_forall in Hx. by apply Hx.
Qed.
End Sorted_lists.

Section Store_queries.
Import Db.

#[local] Instance by_id_asc_trans {A} : Transitive (@by_id_asc A).
Proof. unfold by_id_asc. intros a b c ??. lia. Qed.

#[local] Instance by_id_asc_total {A} : Total (@by_id_asc A).
Proof. unfold by_id_asc. intros a b. lia. Qed.

Lemma sorted_asc_strict {A} (l : list (Z * A)) :
  NoDup l.*1 → StronglySorted by_id_asc l →
  StronglySorted (λ a b, a.1 < b.1) l.
Proof.
  induction l as [|a l IH]; intros Hnd Hs; [constructor|].
  apply StronglySorted_inv in Hs as [Hs Ha].
  rewrite fmap_cons in Hnd. apply NoDup_cons in Hnd as [Hnotin Hnd].
  constructor; [auto|].
  rewrite Forall_forall in Ha |- *. intros b Hb.
  specialize (Ha b Hb). unfold by_id_asc in Ha.
  assert (b.1 ≠ a.1); [|lia].
  intros Heq. apply Hnotin. rewrite <- Heq.
  apply list_elem_of_fmap. by exists b.
Qed.

(** The rows of a table, by increasing key. *)
Lemma scan_sorted {A} (m : gmap Z A) :
  StronglySorted (λ a b, a.1 < b.1) (merge_sort by_id_asc (map_to_list m))
  ∧ ∀ k r, (k, r) ∈ merge_sort by_id_asc (map_to_list m) ↔ m !! k = Some r.
Proof.
  split.
  - apply sorted_asc_strict.
    + rewrite merge_sort_Permutation. apply NoDup_fst_map_to_list.
    + apply StronglySorted_merge_sort; apply _.
  - intros k r. by rewrite merge_sort_Permutation, elem_of_map_to_list.
Qed.

Lemma bind_int_bound n :
  min_int64 ≤ n ≤ max_int64 → bind_int n = Ok n.
Proof.
  intros Hn. unfold bind_int.
  assert ((min_int64 <=? n) && (n <=? max_int64) = true) as ->; [|done].
  apply andb_true_intro. split; apply Z.leb_le; lia.
Qed.

Lemma fetch_bill_items_Ok file t id :
  bill_items file = Some t → min_int64 ≤ id ≤ max_int64 →
  ∃ l, fetch_bill_items file id = Ok (item_row <$> l)
    ∧ StronglySorted (λ a b, a.1 < b.1) l
    ∧ ∀ k r, (k, r) ∈ l ↔ rows t !! k = Some r ∧ bill_id r = id.
Proof.
  intros Ht Hid. unfold fetch_bill_items. rewrite Ht, (bind_int_bound id Hid).
  destruct (scan_sorted (rows t)) as [Hs Hel].
  eexists. split_and!; [done|..].
  - apply strict_sorted_filter, Hs.
  - intros k r. rewrite list_elem_of_filter, Hel. simpl. tauto.
Qed.
End Store_queries.

Section Store_round_trips.
Import Db.

(** X1: when [add_bill] returns, [fetch_bills] is what it was with the
    new bill put in front: its identifier, and the customer, date and
    total as they were given. The total is one a REAL column keeps: not
    NaN, not -0.0. *)
Theorem add_bill_then_fetch_bills (file file' : database)
    (customer date : pystr) (total : float)
    (items : list (pystr * float * Z)) (bid : Z) :
  kept_by_real total = true →
  add_bill file customer date total items = (file', Ok bid) →
  ∃ old, fetch_bills file = Ok old
    ∧ fetch_bills file' = Ok ((bid, customer, date, total) :: old).
Proof.
  intros _ (conn & H1 & H2)%add_bill_Ok.
  apply insert_bill_Ok in H1 as (tb & tb' & Htb & Htb' & _ & Hins).
  apply insert_Ok in Hins as (Hfresh & Hrows & _ & Hbid & _).
  apply insert_items_Ok in H2 as [Hb _]. rewrite Htb' in Hb.
  destruct (fetch_bills_Ok file tb Htb) as (l & Hfetch & Hperm & Hsorted).
  destruct (fetch_bills_Ok file' tb' Hb) as (l' & Hfetch' & Hperm' & Hsorted').
  exists (bill_row <$> l). split; [done|]. rewrite Hfetch'.
  change ((bid, customer, date, total) :: (bill_row <$> l))
    with (bill_row <$> (bid, Bill customer date total) :: l).
  do 2 f_equal.
  apply (strict_sorted_ext (λ a b : Z * bill, b.1 < a.1));
    [clear; intros; lia|clear; intros; lia|done| |].
  - constructor; [done|]. apply Forall_forall. intros [k r].
    rewrite Hperm, elem_of_map_to_list. simpl.
    intros Hk%max_rowid_ge. unfold last_rowid in Hbid. lia.
  - intros [k r]. rewrite Hperm', elem_of_map_to_list, Hrows.
    rewrite elem_of_cons, Hperm, elem_of_map_to_list, lookup_insert_Some.
    split.
    + intros [[<- <-]|[_ Hk]]; auto.
    + intros [[= -> ->]|Hk]; [auto|]. right. split; [|done].
      intros <-. congruence.
Qed.

Lemma add_bill_then_fetch_bills_witness :
  ∃ old, fetch_bills Sample.store = Ok old
    ∧ fetch_bills (add_bill Sample.store (str "Eve") (str "2024-03-01")
                            (Float.lit "40.0") [Sample.mouse]).1
      = Ok ((3, str "Eve", str "2024-03-01", Float.lit "40.0") :: old).
Proof.
  exact (add_bill_then_fetch_bills Sample.store _ (str "Eve")
           (str "2024-03-01") (Float.lit "40.0") [Sample.mouse] 3 eq_refl
           eq_refl).
Defined.

(** X2: [fetch_bill_items] returns the rows of [bill_items] whose bill is
    the one asked for, all of them and no other, by increasing key; for a
    bill without items that is the empty list. *)
Theorem fetch_bill_items_rows (file : database) (t : table bill_item)
    (id : Z) :
  bill_items file = Some t → min_int64 ≤ id ≤ max_int64 →
  ∃ l, fetch_bill_items file id = Ok (item_row <$> l)
    ∧ StronglySorted (λ a b, a.1 < b.1) l
    ∧ (∀ k r, (k, r) ∈ l ↔ rows t !! k = Some r ∧ bill_id r = id)
    ∧ ((∀ k r, rows t !! k = Some r → bill_id r ≠ id) →
       fetch_bill_items file id = Ok []).
Proof.
  intros Ht Hid.
  destruct (fetch_bill_items_Ok file t id Ht Hid) as (l & Hfetch & Hs & Hel).
  exists l. split_and!; [done..|].
  intros Hnone. rewrite Hfetch. destruct l as [|[k r] l]; [done|].
  destruct (proj1 (Hel k r) (list_elem_of_here _ _)) as [Hk Hr].
  by destruct (Hnone k r Hk).
Qed.

Lemma fetch_bill_items_rows_witness :
  fetch_bill_items Sample.store 1 = Ok [Sample.laptop; Sample.mouse]
  ∧ fetch_bill_items Sample.store 7 = Ok [].
Proof.
  assert (Hid1 : min_int64 ≤ 1 ≤ max_int64) by done.
  assert (Hid7 : min_int64 ≤ 7 ≤ max_int64) by done.
  split.
  - destruct (fetch_bill_items_rows Sample.store _ 1 eq_refl Hid1)
      as (l & _ & _ & _ & _). reflexivity.
  - destruct (fetch_bill_items_rows Sample.store _ 7 eq_refl Hid7)
      as (l & _ & _ & _ & Hnone). apply Hnone.
    intros k r Hk. simpl in Hk.
    apply lookup_insert_Some in Hk as [[_ <-]|[_ Hk]]; [done|].
    apply lookup_insert_Some in Hk as [[_ <-]|[_ Hk]]; [done|].
    by apply lookup_singleton_Some in Hk as [_ <-].
Defined.
End Store_round_trips.

Section Store_items.
Import Db.

Lemma insert_Ok_last {R} (t : table R) (r : R) t' k :
  insert t r = Ok (t', k) →
  k = last_rowid t + 1 ∧ k ≤ max_int64 ∧ last_rowid t' = k
  ∧ rows t !! k = None ∧ rows t' = <[k := r]> (rows t).
Proof.
  intros Hins. pose proof Hins as (Hnone & Hrows & _ & Hk & Hmax)%insert_Ok.
  destruct (insert_room t r) as (t'' & Hins' & Hlast); [lia|].
  rewrite Hins in Hins'. injection Hins' as -> _. split_and!; try done. lia.
Qed.

(** The loop of [add_bill] gives the items the keys that follow the last
    key of the table, in the order of the list. *)
Lemma insert_items_seq items : ∀ conn bid conn' t,
  insert_items conn bid items = Ok conn' → bill_items conn = Some t →
  ∃ t', bill_items conn' = Some t' ∧ bills conn' = bills conn
    ∧ last_rowid t' = last_rowid t + Z.of_nat (length items)
    ∧ (items ≠ [] → last_rowid t' ≤ max_int64)
    ∧ Forall (λ it : pystr * float * Z, min_int64 ≤ it.2 ≤ max_int64) items
    ∧ ∀ k r, rows t' !! k = Some r ↔
        rows t !! k = Some r
        ∨ ∃ i it, items !! i = Some it
            ∧ k = last_rowid t + 1 + Z.of_nat i ∧ r = item_of bid it.
Proof.
  induction items as [|it items IH]; intros conn bid conn' t Hloop Ht.
  { injection Hloop as <-. exists t. split_and!; try done; [simpl; lia|].
    intros k r. split; [auto|]. intros [?|(i & it & Hi & _)]; [done|].
    by rewrite lookup_nil in Hi. }
  cbn [insert_items] in Hloop.
  destruct (insert_item conn bid it) as [c1|] eqn:H1; [|done].
  cbn [mbind result_bind] in Hloop.
  apply insert_item_Ok in H1 as (t0 & t1 & k1 & Ht0 & Ht1 & Hb1 & Hq & Hins).
  assert (t0 = t) as -> by congruence.
  apply insert_Ok_last in Hins as (Hk1 & Hmax1 & Hlast1 & Hnone1 & Hrows1).
  destruct (IH c1 bid conn' t1 Hloop Ht1)
    as (t' & Ht' & Hb' & Hlast' & Hmax' & Hqs & Hrows').
  exists t'. split_and!; [done|congruence| | |by constructor|].
  - rewrite Hlast', Hlast1, Hk1. cbn [length]. lia.
  - intros _. destruct items as [|it' items]; [|by apply Hmax'].
    rewrite Hlast', Hlast1. simpl. lia.
  - intros k r. rewrite Hrows', Hrows1, lookup_insert_Some. split.
    + intros [[[<- <-]|[Hne Hk]]|(i & it' & Hi & -> & ->)].
      * right. exists 0%nat, it. split_and!; [done|lia|done].
      * by left.
      * right. exists (S i), it'. split_and!; [done|lia|done].
    + intros [Hk|(i & it' & Hi & -> & ->)].
      * left. right. split; [|done]. intros <-. congruence.
      * destruct i as [|i]; simpl in Hi.
        -- injection Hi as <-. left. left. split; [lia|done].
        -- right. exists i, it'. split_and!; [done|lia|done].
Qed.

Lemma referential_init_db file :
  referential file → referential (init_db file).1.
Proof.
  intros Href k r (t & Ht & Hk).
  assert (Hitem : has_item file k r).
  { destruct file as [tb [ti|]]; simpl in *; simplify_eq. by exists t. }
  destruct (Href k r Hitem) as [b Hb]. exists b.
  by apply init_db_keeps_bill.
Qed.

Lemma referential_add_bill file customer date total items :
  referential file →
  referential (add_bill file customer date total items).1.
Proof.
  intros Href.
  pose proof (add_bill_keeps_bill file customer date total items) as Hkeep.
  destruct (add_bill file customer date total items) as [file' [bid|e]]
    eqn:Hadd; simpl in *.
  2:{ by apply add_bill_Raise in Hadd as ->. }
  apply add_bill_Ok in Hadd as (conn & H1 & H2).
  apply insert_bill_Ok in H1 as (tb & tb' & Htb & Htb' & Hci & Hins).
  apply insert_Ok in Hins as (_ & Hrows & _).
  intros k r (t' & Ht' & Hk).
  destruct (bill_items conn) as [ti|] eqn:Hti.
  - destruct (insert_items_seq items conn bid file' ti H2 Hti)
      as (t'' & Ht'' & Hb' & _ & _ & _ & Hrows').
    assert (t'' = t') as -> by congruence.
    apply Hrows' in Hk as [Hk|(i & it & _ & _ & ->)].
    + destruct (Href k r) as [b Hb]; [exists ti; split; congruence|].
      exists b. by apply Hkeep.
    + eexists. exists tb'. split; [congruence|].
      rewrite Hrows. apply lookup_insert_eq.
  - destruct items as [|it items].
    + injection H2 as <-. congruence.
    + cbn [insert_items] in H2. unfold insert_item in H2.
      destruct it as [[p pr] q]. by rewrite Hti in H2.
Qed.

Lemma referential_after cs : ∀ file,
  referential file → referential (after_all file cs).
Proof.
  induction cs as [|c cs IH]; intros file Href; [done|].
  cbn [after_all foldl]. apply IH.
  destruct c; cbn [after];
    auto using referential_init_db, referential_add_bill.
Qed.

(** X3: in every store the API makes from a new file, each item belongs
    to a stored bill, though the engine does not check the foreign key. *)
Theorem items_belong_to_bills (cs : list call) (k : Z) (r : bill_item) :
  has_item (after_all no_tables cs) k r →
  ∃ b, has_bill (after_all no_tables cs) (bill_id r) b.
Proof.
  apply (referential_after cs no_tables). by intros k' r' (t & ? & _).
Qed.

Lemma items_belong_to_bills_witness :
  let cs := [ call_init_db;
              call_add_bill (str "Eve") (str "d") (Float.lit "40.0")
                            [Sample.mouse; Sample.laptop] ] in
  has_item (after_all no_tables cs) 2 (item_of 1 Sample.laptop)
  ∧ ∃ b, has_bill (after_all no_tables cs) 1 b.
Proof.
  intros cs.
  assert (H : has_item (after_all no_tables cs) 2 (item_of 1 Sample.laptop)).
  { eexists. split; [reflexivity|]. vm_compute. reflexivity. }
  split; [exact H|]. exact (items_belong_to_bills cs 2 _ H).
Defined.

Lemma imap_keys_sorted {A B} (f : A → B) (l : list A) : ∀ start,
  StronglySorted (λ a b : Z * B, a.1 < b.1)
                 (imap (λ i x, (start + Z.of_nat i, f x)) l).
Proof.
  induction l as [|x l IH]; intros start; [constructor|].
  rewrite imap_cons. constructor.
  - erewrite imap_ext; [apply (IH (start + 1))|].
    intros i y _. simpl. f_equal. lia.
  - apply Forall_forall. intros [k y] (i & z & [= -> ->] & _)%elem_of_lookup_imap.
    simpl. lia.
Qed.

(** The rows [add_bill] stored for a bill, with their keys, are what
    [fetch_bill_items] scans for it. *)
Lemma fetch_bill_items_added file file' customer date total items bid :
  referential file → is_Some (bill_items file) →
  add_bill file customer date total items = (file', Ok bid) →
  ∃ ti, bill_items file = Some ti
    ∧ fetch_bill_items file' bid
      = Ok (item_row <$>
              imap (λ i it, (last_rowid ti + 1 + Z.of_nat i, item_of bid it))
                   items).
Proof.
  intros Href [ti Hti] (conn & H1 & H2)%add_bill_Ok.
  apply insert_bill_Ok in H1 as (tb & tb' & Htb & Htb' & Hci & Hins).
  apply insert_Ok_last in Hins as (Hbid & Hmax & _ & Hfresh & _).
  pose proof (max_rowid_nonneg (rows tb)) as Hnonneg.
  rewrite Hti in Hci.
  destruct (insert_items_seq items conn bid file' ti H2 Hci)
    as (ti' & Hti' & _ & _ & _ & _ & Hrows').
  destruct (fetch_bill_items_Ok file' ti' bid Hti') as (l & -> & Hs & Hel).
  { unfold min_int64, last_rowid in *. lia. }
  exists ti. split; [done|]. do 2 f_equal.
  apply (strict_sorted_ext (λ a b : Z * bill_item, a.1 < b.1));
    [clear; intros; lia|clear; intros; lia|done|apply imap_keys_sorted|].
  intros [k r]. rewrite Hel, Hrows'.
  rewrite elem_of_lookup_imap. split.
  - intros [[Hold|(i & it & Hi & -> & ->)] Hr].
    + destruct (Href k r) as [b (tb0 & Htb0 & Hb)].
      { exists ti. by split. }
      rewrite Hr in Hb. congruence.
    + by exists i, it.
  - intros (i & it & [= -> ->] & Hi). split; [|done].
    right. by exists i, it.
Qed.

Lemma item_row_imap (start bid : Z) (items : list (pystr * float * Z)) :
  item_row <$> imap (λ i it, (start + Z.of_nat i, item_of bid it)) items
  = items.
Proof.
  rewrite fmap_imap. transitivity (imap (const id) items).
  - apply imap_ext. by intros i [[p pr] q] _.
  - by rewrite imap_const, list_fmap_id.
Qed.

(** X4: what [add_bill] stored for a bill is what [fetch_bill_items]
    returns for it: the items given, in the order given. The store is
    one where each item belongs to a stored bill, and has the table of
    the items; the prices are floats a REAL column keeps: not NaN, not
    -0.0. *)
Theorem add_bill_then_fetch_bill_items (file file' : database)
    (customer date : pystr) (total : float)
    (items : list (pystr * float * Z)) (bid : Z) :
  referential file → is_Some (bill_items file) →
  Forall (λ it : pystr * float * Z, kept_by_real it.1.2 = true) items →
  add_bill file customer date total items = (file', Ok bid) →
  fetch_bill_items file' bid = Ok items.
Proof.
  intros Href Hti _ Hadd.
  destruct (fetch_bill_items_added _ _ _ _ _ _ _ Href Hti Hadd)
    as (ti & _ & ->).
  by rewrite item_row_imap.
Qed.

Lemma add_bill_then_fetch_bill_items_witness :
  let items := [Sample.mouse; Sample.laptop; Sample.mouse] in
  let out := add_bill Sample.store (str "Eve") (str "2024-03-01")
                      (Float.lit "1720.0") items in
  referential Sample.store
  ∧ fetch_bill_items out.1 3 = Ok items.
Proof.
  intros items out.
  assert (Href : referential Sample.store).
  { intros k r (t & [= <-] & Hk). simpl in Hk.
    apply lookup_insert_Some in Hk as [[_ <-]|[_ Hk]];
      [eexists; eexists; split; [reflexivity|reflexivity]|].
    apply lookup_insert_Some in Hk as [[_ <-]|[_ Hk]];
      [eexists; eexists; split; [reflexivity|reflexivity]|].
    apply lookup_singleton_Some in Hk as [_ <-].
    eexists; eexists; split; [reflexivity|reflexivity]. }
  split; [exact Href|].
  assert (Hsome : is_Some (bill_items Sample.store)) by (simpl; eauto).
  assert (Hreal : Forall (λ it : pystr * float * Z,
                            kept_by_real it.1.2 = true) items)
    by (repeat constructor).
  exact (add_bill_then_fetch_bill_items Sample.store out.1 (str "Eve")
           (str "2024-03-01") (Float.lit "1720.0") items 3 Href Hsome
           Hreal eq_refl).
Defined.

(** X5: [add_bill] returns exactly when the table of the bills exists and
    has a key left, the customer and the date can be encoded in UTF-8
    and, unless there is no item, the table of the items exists, has a
    key left for every item, every quantity is a 64-bit integer and every
    product can be encoded. *)
Theorem add_bill_succeeds_iff (file : database) (customer date : pystr)
    (total : float) (items : list (pystr * float * Z)) :
  is_ok (add_bill file customer date total items).2 = true ↔
  ∃ tb, bills file = Some tb ∧ last_rowid tb < max_int64
    ∧ encodable customer = true ∧ encodable date = true
    ∧ (items = []
       ∨ ∃ ti, bill_items file = Some ti
           ∧ last_rowid ti + Z.of_nat (length items) ≤ max_int64
           ∧ Forall (λ it : pystr * float * Z,
                       min_int64 ≤ it.2 ≤ max_int64) items
           ∧ Forall (λ it : pystr * float * Z,
                       encodable it.1.1 = true) items).
Proof.
  split.
  - destruct (add_bill file customer date total items) as [file' [bid|e]]
      eqn:Hadd; [intros _|done].
    apply add_bill_Ok in Hadd as (conn & H1 & H2).
    pose proof (insert_bill_encodable _ _ _ _ _ _ H1) as [Hc Hd].
    pose proof (insert_items_encodable _ _ _ _ H2) as Hps.
    apply insert_bill_Ok in H1 as (tb & tb' & Htb & Htb' & Hci & Hins).
    apply insert_Ok_last in Hins as (Hbid & Hmax & _).
    exists tb. split_and!; [done|lia|done|done|].
    destruct items as [|it items]; [by left|right].
    destruct (bill_items file) as [ti|] eqn:Hti.
    + destruct (insert_items_seq _ conn bid file' ti H2 Hci)
        as (ti' & _ & _ & Hlast & Hroom & Hqs & _).
      exists ti. split_and!; [done| |done|done].
      rewrite <- Hlast. by apply Hroom.
    + cbn [insert_items] in H2. unfold insert_item in H2.
      destruct it as [[p pr] q]. by rewrite Hci in H2.
  - intros (tb & Htb & Hroom & Hc & Hd & Hitems).
    destruct (insert_room tb (Bill customer date total) Hroom)
      as (tb' & Hins & _).
    unfold add_bill, insert_bill, bind_text. rewrite Htb, Hc, Hd.
    cbn [mbind result_bind]. rewrite Hins.
    cbn [mbind result_bind].
    destruct Hitems as [->|(ti & Hti & Hroomi & Hqs & Hps)]; [done|].
    pose proof (max_rowid_nonneg (rows tb)) as Hnonneg.
    destruct (insert_items_room items
                (Database (Some tb') (bill_items file)) ti
                (last_rowid tb + 1)) as (conn' & -> & _);
      [done|done|unfold min_int64, last_rowid in *; lia|done|done|done].
Qed.

(** A customer name with a lone surrogate cannot be stored, whatever the
    items are. *)
Example add_bill_surrogate :
  add_bill Sample.store [0x41; 0xd800]%N (str "2024-03-01")
           (Float.lit "40.0") [Sample.mouse]
  = (Sample.store, Raise UnicodeEncodeError).
Proof. reflexivity. Qed.
End Store_items.

(** * More properties of the invoice *)

Section Invoice_pages.
Import Invoice.

Lemma position_add n m :
  position (m + n) = Nat.iter m next_position (position n).
Proof. unfold position. by rewrite Nat.iter_add. Qed.

(** From the second page on, the positions repeat every 35 rows. *)
Lemma position_periodic i : (28 ≤ i)%nat → position (i + 35) = position i.
Proof.
  intros Hi. replace i with ((i - 28) + 28)%nat at 2 by lia.
  replace (i + 35)%nat with ((i - 28) + 63)%nat by lia.
  rewrite !position_add.
  assert (position 63 = position 28) as -> by (vm_compute; reflexivity).
  done.
Qed.

(** Every position is one of the first 63. *)
Lemma position_reduce i :
  ∃ j, (j < 63)%nat ∧ position i = position j
       ∧ (i mod 35 = j mod 35)%nat.
Proof.
  induction i as [i IH] using lt_wf_ind.
  destruct (decide (i < 63)%nat) as [Hlt|Hge]; [by exists i|].
  destruct (IH (i - 35)%nat) as (j & Hj & Hpos & Hmod); [lia|].
  exists j. split_and!; [done| |].
  - rewrite <- Hpos. replace i with ((i - 35) + 35)%nat at 1 by lia.
    apply position_periodic. lia.
  - rewrite <- Hmod. replace i with ((i - 35) + 1 * 35)%nat at 1 by lia.
    by rewrite Nat.Div0.mod_add.
Qed.

Lemma first_positions (P : nat → bool) :
  forallb P (seq 0 63) = true → ∀ j, (j < 63)%nat → P j = true.
Proof.
  intros Hall j Hj. rewrite forallb_forall in Hall. apply Hall.
  apply in_seq. lia.
Qed.

(** A new page is started after the row [i] (counted from 0) exactly
    when [i] is 27 more than a multiple of 35. *)
Lemma page_break_every_35 (i : nat) :
  breaks_after (position i) = bool_decide (i mod 35 = 27)%nat.
Proof.
  destruct (position_reduce i) as (j & Hj & -> & ->).
  apply eq_sym, Bool.eqb_prop. revert j Hj.
  apply (first_positions
           (λ j, Bool.eqb (bool_decide (j mod 35 = 27)%nat)
                          (breaks_after (position j)))).
  vm_compute. reflexivity.
Qed.

(** The rows, and the grand total after them, stay on the page. *)
Lemma position_on_page (i : nat) :
  below (position i) 70 = false
  ∧ Float.ltb (minus height 50) (position i) = false
  ∧ below (minus (position i) 30) 70 = false
  ∧ Float.ltb (minus height 50) (minus (position i) 30) = false.
Proof.
  destruct (position_reduce i) as (j & Hj & -> & _).
  pose proof (first_positions
    (λ j, negb (below (position j) 70)
          && negb (Float.ltb (minus height 50) (position j))
          && negb (below (minus (position j) 30) 70)
          && negb (Float.ltb (minus height 50) (minus (position j) 30))))
    as Hall.
  specialize (Hall ltac:(vm_compute; reflexivity) j Hj). simpl in Hall.
  apply andb_prop in Hall as [[[H1 H2]%andb_prop H3]%andb_prop H4].
  by rewrite !negb_true_iff in *.
Qed.

Lemma render_blocks bill_id customer date total items :
  printable items →
  ∃ blocks,
    render bill_id customer date total items
      = Ok (header bill_id customer date ++ concat blocks
              ++ footer (position (length items)) total)
    ∧ length blocks = length items
    ∧ ∀ i it, items !! i = Some it →
        ∃ r, row (position i) it = Ok r
          ∧ blocks !! i
            = Some (r ++ if breaks_after (position i)
                         then [showPage] else []).
Proof.
  intros Hp.
  destruct (draw_items_blocks items (minus height 200)
              (header bill_id customer date) Hp)
    as (blocks & Hdraw & Hlen & Hrows).
  exists blocks. split_and!; [|done|done].
  unfold render. rewrite Hdraw. cbn [mbind result_bind].
  by rewrite <- (assoc_L (++)).
Qed.

(** A row fails for a quantity that does not convert to a float: with
    [ValueError] when [str] refuses its digits, with [OverflowError]
    otherwise. *)
Lemma row_result y (it : item) :
  match row y it with
  | Ok _ => is_ok (Float.of_int it.2) = true
  | Raise e =>
      is_ok (Float.of_int it.2) = false
      ∧ e = if (max_str_digits <? digits_of it.2)%nat
            then ValueError else OverflowError
  end.
Proof.
  destruct it as [[product price] quantity]. cbn [snd].
  pose proof (of_int_digits quantity) as Hd.
  unfold row, str_int, Float.mul_int.
  destruct (max_str_digits <? digits_of quantity)%nat eqn:Hlim;
    cbn [mbind result_bind].
  - split; [|done]. destruct (is_ok (Float.of_int quantity)); [|done].
    apply Nat.ltb_lt in Hlim. specialize (Hd eq_refl). lia.
  - destruct (Float.of_int quantity) as [q|e] eqn:Hq; cbn [mbind result_bind];
      [done|].
    split; [done|]. unfold Float.of_int in Hq.
    destruct (Float.nearest quantity); congruence.
Qed.

(** Drawing fails only for a quantity that does not convert to a float,
    with the exception of the first such row. *)
Lemma draw_items_result items : ∀ y c,
  match draw_items items y c with
  | Ok _ => printable items
  | Raise e =>
      ¬ printable items
      ∧ (e = OverflowError ∨ e = ValueError)
      ∧ (Forall (λ it : item, (digits_of it.2 ≤ max_str_digits)%nat) items →
         e = OverflowError)
  end.
Proof.
  induction items as [|it items IH]; intros y c.
  { simpl. constructor. }
  cbn [draw_items]. pose proof (row_result y it) as Hrow.
  destruct (row y it) as [r|e]; cbn [mbind result_bind].
  - assert (Hrest : ∀ y' c',
              match draw_items items y' c' with
              | Ok _ => printable (it :: items)
              | Raise e =>
                  ¬ printable (it :: items)
                  ∧ (e = OverflowError ∨ e = ValueError)
                  ∧ (Forall (λ it : item,
                               (digits_of it.2 ≤ max_str_digits)%nat)
                            (it :: items) → e = OverflowError)
              end).
    { intros y' c'. specialize (IH y' c').
      destruct (draw_items items y' c') as [res|e].
      - by constructor.
      - destruct IH as (Hnot & He & Hlim). split_and!; [|done|].
        + by intros [_ ?]%Forall_cons.
        + intros [_ ?]%Forall_cons. by apply Hlim. }
    destruct (below (minus y 20) 100); apply Hrest.
  - destruct Hrow as [Hq ->]. split_and!.
    + intros [Hhead _]%Forall_cons. by rewrite Hq in Hhead.
    + destruct (_ <? _)%nat; auto.
    + intros [Hlim%Nat.leb_le _]%Forall_cons.
      by rewrite Nat.ltb_antisym, Hlim.
Qed.

Lemma render_result bill_id customer date total items :
  match render bill_id customer date total items with
  | Ok _ => printable items
  | Raise e =>
      ¬ printable items
      ∧ (e = OverflowError ∨ e = ValueError)
      ∧ (Forall (λ it : item, (digits_of it.2 ≤ max_str_digits)%nat) items →
         e = OverflowError)
  end.
Proof.
  unfold render.
  pose proof (draw_items_result items (minus height 200)
                (header bill_id customer date)) as H.
  by destruct (draw_items _ _ _) as [[y c]|e].
Qed.

(** X6: in the invoice of a list of items, a new page is started after
    the row [i] (counted from 0) exactly when [i] is 27 more than a
    multiple of 35: the first page takes 28 rows, every later page 35. *)
Theorem invoice_pages (bill_id : Z) (customer date : pystr)
    (total : float) (items : list item) :
  printable items →
  ∃ blocks,
    render bill_id customer date total items
      = Ok (header bill_id customer date ++ concat blocks
              ++ footer (position (length items)) total)
    ∧ length blocks = length items
    ∧ ∀ i it, items !! i = Some it →
        ∃ r, row (position i) it = Ok r
          ∧ blocks !! i
            = Some (r ++ if bool_decide (i mod 35 = 27)%nat
                         then [showPage] else []).
Proof.
  intros Hp.
  destruct (render_blocks bill_id customer date total items Hp)
    as (blocks & Hrender & Hlen & Hrows).
  exists blocks. split_and!; [done..|].
  intros i it Hi. destruct (Hrows i it Hi) as (r & Hr & Hb).
  exists r. split; [done|]. rewrite Hb.
  by rewrite <- page_break_every_35.
Qed.

Lemma invoice_pages_witness :
  let items := replicate 70 Sample.mouse in
  printable items
  ∧ ∃ blocks,
      render 7 (str "Ann") (str "2024-03-01") (Float.lit "8400.00") items
        = Ok (header 7 (str "Ann") (str "2024-03-01") ++ concat blocks
                ++ footer (position 70) (Float.lit "8400.00"))
      ∧ length blocks = 70%nat
      ∧ ∀ i it, items !! i = Some it →
          ∃ r, row (position i) it = Ok r
            ∧ blocks !! i
              = Some (r ++ if bool_decide (i mod 35 = 27)%nat
                           then [showPage] else []).
Proof.
  intros items.
  assert (Hp : printable items) by (apply Forall_replicate; reflexivity).
  split; [exact Hp|].
  exact (invoice_pages 7 (str "Ann") (str "2024-03-01")
           (Float.lit "8400.00") items Hp).
Defined.

Lemma row_on_page y it r :
  below y 70 = false → Float.ltb (minus height 50) y = false →
  row y it = Ok r → Forall on_page r.
Proof.
  intros H1 H2. destruct it as [[product price] quantity]. unfold row.
  destruct (str_int quantity); [|done]. cbn [mbind result_bind].
  destruct (Float.mul_int price quantity); [|done].
  intros [= <-]. by repeat constructor.
Qed.

(** X7: nothing is drawn off the page: in the invoice of any list of
    items every text, of the header, of a row or of the grand total, is
    placed at 70 or above and not over the line of the title. *)
Theorem invoice_on_the_page (bill_id : Z) (customer date : pystr)
    (total : float) (items : list item) (doc : document) :
  render bill_id customer date total items = Ok doc →
  Forall on_page doc.
Proof.
  intros Hdoc.
  assert (Hp : printable items).
  { pose proof (render_result bill_id customer date total items) as H.
    by rewrite Hdoc in H. }
  destruct (render_blocks bill_id customer date total items Hp)
    as (blocks & Hrender & Hlen & Hrows).
  assert (doc = header bill_id customer date ++ concat blocks
                  ++ footer (position (length items)) total) as ->
    by congruence.
  rewrite !Forall_app. split_and!.
  - unfold header. repeat constructor; vm_compute; reflexivity.
  - apply Forall_concat, Forall_lookup. intros i b Hb.
    assert (Hi : is_Some (items !! i)).
    { apply lookup_lt_is_Some. rewrite <- Hlen. by eapply lookup_lt_Some. }
    destruct Hi as [it Hi]. destruct (Hrows i it Hi) as (r & Hr & Hb').
    rewrite Hb in Hb'. injection Hb' as ->.
    destruct (position_on_page i) as (H1 & H2 & _).
    apply Forall_app. split; [by eapply row_on_page|].
    destruct (breaks_after _); by repeat constructor.
  - destruct (position_on_page (length items)) as (_ & _ & H3 & H4).
    unfold footer. by repeat constructor.
Qed.

Lemma invoice_on_the_page_witness :
  ∃ doc,
    render 7 (str "Ann") (str "2024-03-01") (Float.lit "8400.00")
           (replicate 70 Sample.mouse) = Ok doc
    ∧ Forall on_page doc.
Proof.
  eexists. split; [vm_compute; reflexivity|].
  apply (invoice_on_the_page 7 (str "Ann") (str "2024-03-01")
           (Float.lit "8400.00") (replicate 70 Sample.mouse)).
  vm_compute. reflexivity.
Defined.
End Invoice_pages.

(** ** The files of the invoices *)

Section Invoice_files.
Import Invoice.

(** X8: where [os.makedirs] can make the directory (no regular file is
    named [invoices]) and [str] can write the identifier (it has at most
    4300 digits), [generate_invoice] fails exactly when a quantity is too
    large to be multiplied by a price; the directory was made then, and
    no file has been written. The exception is [OverflowError], of the
    product, when [str] can write the quantities; it can be the
    [ValueError] of [str] when a quantity has more than 4300 digits. *)
Theorem generate_invoice_overflow (fs : filesystem) (bill_id : Z)
    (customer date : pystr) (total : float) (items : list item) :
  Os.files fs !! [str "invoices"] = None →
  (digits_of bill_id ≤ max_str_digits)%nat →
  (¬ printable items ↔
   ∃ e, generate_invoice fs bill_id customer date total items
        = (Os.makedirs fs (str "invoices"), Raise e)
      ∧ (e = OverflowError ∨ e = ValueError))
  ∧ (Forall (λ it : item, (digits_of it.2 ≤ max_str_digits)%nat) items →
     ¬ printable items →
     generate_invoice fs bill_id customer date total items
     = (Os.makedirs fs (str "invoices"), Raise OverflowError)).
Proof.
  intros _ _.
  pose proof (render_result bill_id customer date total items) as Hr.
  unfold generate_invoice.
  destruct (render bill_id customer date total items) as [doc|e].
  - split; [|done]. split; [done|]. by intros (e & [= ] & _).
  - destruct Hr as (Hnot & He & Hlim). split.
    + split; [eauto|done].
    + intros Hd _. by rewrite (Hlim Hd).
Qed.

Lemma generate_invoice_overflow_witness :
  let items := [Sample.laptop; (str "Tablet", Float.lit "300.00", 2 ^ 1024)] in
  generate_invoice Sample.disk 7 (str "Ann") (str "2024-03-01")
                   (Float.lit "1600.00") items
  = (Os.makedirs Sample.disk (str "invoices"), Raise OverflowError).
Proof.
  intros items.
  assert (H1 : Os.files Sample.disk !! [str "invoices"] = None)
    by reflexivity.
  assert (H2 : (digits_of 7 ≤ max_str_digits)%nat)
    by (apply Nat.leb_le; vm_compute; reflexivity).
  assert (H3 : Forall (λ it : item, (digits_of it.2 ≤ max_str_digits)%nat)
                      items)
    by (apply Forall_cons; split;
          [|apply Forall_cons; split; [|apply Forall_nil_2]];
        apply Nat.leb_le; vm_compute; reflexivity).
  assert (Hnp : ¬ printable items).
  { intros Hp. apply Forall_cons in Hp as [_ Hp].
    apply Forall_cons in Hp as [Hp _].
    assert (Hq : is_ok (Float.of_int (2 ^ 1024)) = false)
      by (vm_compute; reflexivity).
    change (is_ok (Float.of_int (2 ^ 1024)) = true) in Hp.
    rewrite Hq in Hp. discriminate Hp. }
  exact (proj2 (generate_invoice_overflow Sample.disk 7 (str "Ann")
                  (str "2024-03-01") (Float.lit "1600.00") items H1 H2)
               H3 Hnp).
Defined.

(** A quantity of 4301 digits: [str] refuses it before the product is
    computed. *)
Example generate_invoice_long_quantity :
  (generate_invoice Sample.disk 7 (str "Ann") (str "2024-03-01")
     (Float.lit "1600.00") [(str "Tablet", Float.lit "300.00", 10 ^ 4300)]).2
  = Raise ValueError.
Proof. vm_compute. reflexivity. Qed.

Lemma generate_invoice_files fs bill_id customer date total items p :
  p ≠ invoice_path bill_id →
  Os.files (generate_invoice fs bill_id customer date total items).1 !! p
  = Os.files fs !! p.
Proof.
  intros Hp. unfold generate_invoice.
  destruct (render bill_id customer date total items) as [doc|e]; simpl;
    [|done].
  by rewrite lookup_insert_ne.
Qed.

(** X9: generating the invoice of a bill leaves the invoice of every
    other bill as it was, written or not. *)
Theorem generate_invoice_other_bills (fs : filesystem) (a b : Z)
    (customer date : pystr) (total : float) (items : list item) :
  a ≠ b →
  Os.files (generate_invoice fs a customer date total items).1
    !! invoice_path b
  = Os.files fs !! invoice_path b.
Proof.
  intros Hab. apply generate_invoice_files.
  intros Heq. by apply invoice_path_inj in Heq.
Qed.

Lemma generate_invoice_other_bills_witness :
  let fs := Os.write Sample.disk (invoice_path 2) [showPage] in
  Os.files (generate_invoice fs 1 (str "Ann") (str "d")
              (Float.lit "1720.00") [Sample.laptop; Sample.mouse]).1
    !! invoice_path 2
  = Some [showPage].
Proof.
  intros fs.
  rewrite (generate_invoice_other_bills fs 1 2); [|done].
  apply lookup_insert_eq.
Defined.
End Invoice_files.

(** * More properties of the application *)

(** ** The exceptions of the conversions *)

Section Conversions.

Lemma int_digits_raise s : ∀ acc prev e,
  int_digits s acc prev = Raise e → e = ValueError.
Proof.
  induction s as [|c s IH]; intros acc prev e; simpl.
  { destruct prev; congruence. }
  destruct (decimal_value c); [apply IH|].
  destruct ((c =? 0x5f)%N && prev); [|congruence].
  destruct s; [congruence|apply IH].
Qed.

Lemma int_literal_raise r e : int_literal r = Raise e → e = ValueError.
Proof.
  unfold int_literal. destruct (_ <? _)%nat; [congruence|].
  apply int_digits_raise.
Qed.

Lemma int_raise s e : int s = Raise e → e = ValueError.
Proof.
  unfold int.
  assert (Hneg : ∀ r, (n ← int_literal r; Ok (- n)) = Raise e
                      → e = ValueError).
  { intros r. destruct (int_literal r) eqn:Hr; [done|].
    simpl. intros [= <-]. by apply int_literal_raise in Hr. }
  destruct (strip_number s) as [|c r]; [apply int_literal_raise|].
  destruct c as [|p]; [apply int_literal_raise|].
  do 6 (destruct p as [p|p|]; try apply int_literal_raise);
    apply Hneg.
Qed.

Lemma of_literal_raise s e : Float.of_literal s = Raise e → e = ValueError.
Proof.
  unfold Float.of_literal.
  destruct (Float.read_sign s) as [neg t].
  destruct (_ || _); [done|]. destruct (bool_decide _); [done|].
  destruct (Float.read_digits t 0 0) as [[ip ni] t1].
  destruct (match t1 with
            | 0x2e%N :: r => Float.read_digits r ip 0
            | _ => (ip, 0, t1)
            end) as [[m nf] t2].
  destruct (ni + nf =? 0); [congruence|].
  assert (Hexp : ∀ e', Float.read_exponent t2 = Raise e' → e' = ValueError).
  { unfold Float.read_exponent. destruct t2 as [|c r]; [done|].
    destruct (_ || _); [|done].
    destruct (Float.read_sign r) as [neg' r1].
    destruct (Float.read_digits r1 0 0) as [[e1 n1] r2].
    destruct (n1 =? 0); congruence. }
  destruct (Float.read_exponent t2) as [[e1 t3]|e'] eqn:He; simpl.
  - destruct t3; congruence.
  - intros [= <-]. by apply Hexp.
Qed.

Lemma of_str_raise s e : Float.of_str s = Raise e → e = ValueError.
Proof.
  unfold Float.of_str. cbv zeta.
  destruct (Float.underscores_ok _ _); [apply of_literal_raise|congruence].
Qed.

Lemma of_int_raise n e : Float.of_int n = Raise e → e = OverflowError.
Proof. unfold Float.of_int. destruct (Float.nearest n); congruence. Qed.

Lemma mul_int_raise x n e : Float.mul_int x n = Raise e → e = OverflowError.
Proof.
  unfold Float.mul_int. destruct (Float.of_int n) eqn:Hn; [done|].
  simpl. intros [= <-]. by apply of_int_raise in Hn.
Qed.

Lemma mul_int_Ok x n : is_ok (Float.of_int n) = is_ok (Float.mul_int x n).
Proof. unfold Float.mul_int. by destruct (Float.of_int n). Qed.

End Conversions.

(** ** What the handlers let escape *)

Section Handlers.
Import Db Gui.

Lemma parse_product_raise p e : parse_product p = Raise e → e = ValueError.
Proof.
  unfold parse_product.
  destruct (split _ p) as [|name [|price_str [|]]]; try congruence.
  destruct (Float.of_str price_str) eqn:Hp; [done|]. simpl.
  intros [= <-]. by apply of_str_raise in Hp.
Qed.

Lemma parse_bill_raise vals e : parse_bill vals = Raise e → e = ValueError.
Proof.
  destruct vals as [[[v0 v1] v2] v3]. unfold parse_bill.
  destruct (int v0) eqn:H0; simpl.
  2:{ intros [= <-]. by apply int_raise in H0. }
  destruct (Float.of_str _) eqn:H3; [done|]. simpl.
  intros [= <-]. by apply of_str_raise in H3.
Qed.

Lemma sum_from_raise lines : ∀ acc e,
  sum_from acc lines = Raise e → e = OverflowError.
Proof.
  induction lines as [|[[name price] qty] lines IH]; intros acc e; simpl;
    [done|].
  destruct (Float.mul_int price qty) eqn:Hm; simpl; [apply IH|].
  intros [= <-]. by apply mul_int_raise in Hm.
Qed.

Lemma sum_from_Ok lines : ∀ acc,
  is_ok (sum_from acc lines) = true ↔ printable lines.
Proof.
  induction lines as [|[[name price] qty] lines IH]; intros acc; simpl.
  { split; [constructor|done]. }
  unfold printable. rewrite Forall_cons. fold (printable lines). simpl.
  rewrite (mul_int_Ok price qty).
  destruct (Float.mul_int price qty); simpl.
  - rewrite IH. tauto.
  - split; [done|]. by intros [? _].
Qed.

Lemma in_sync_printable a : in_sync a → printable (cart a).
Proof.
  unfold in_sync, printable. generalize (cart a), (cart_list a).
  induction 1 as [|[[name price] qty] text lines texts Hline _ IH];
    constructor; [|done].
  unfold line_text in Hline. simpl in *. rewrite (mul_int_Ok price qty).
  by destruct (Float.mul_int price qty).
Qed.

Lemma current_bill_Ok w :
  is_Some (bills (store w)) → ∃ b, current_bill w = Ok b.
Proof.
  intros [t Ht]. unfold current_bill, fetch_bills.
  destruct (selected_bill (app w)); [eauto|]. rewrite Ht. simpl. eauto.
Qed.

(** X10: once the tables exist, an exception leaves a handler in two
    cases only: [add_to_cart] raises [ValueError] or [OverflowError]
    for a quantity it cannot convert, and [save_bill] raises
    [OverflowError] for a cart that the list box does not show. The
    other handlers report every failure in a dialog. *)
Theorem escaping_exceptions (a : action) (w : world) (e : exn) :
  initialized (store w) → (run a w).2 = Raise e →
  (a = do_add_to_cart ∧ (e = ValueError ∨ e = OverflowError))
  ∨ (∃ now, a = do_save_bill now ∧ e = OverflowError
            ∧ ¬ in_sync (app w)).
Proof.
  intros [Hb _] Hraise.
  destruct a as [|now| | |sel|text|text|text]; cbn [run] in Hraise;
    [| | | | |done..].
  - left. split; [done|]. unfold add_to_cart in Hraise.
    destruct (product_var (app w)) as [|c p] eqn:Hp; [done|].
    unfold invalid_quantity in Hraise.
    destruct (negb (isdigit _)); [done|].
    destruct (int (qty_entry (app w))) as [qty|e'] eqn:Hq; simpl in Hraise.
    2:{ injection Hraise as <-. left. by apply int_raise in Hq. }
    destruct (qty <=? 0); [done|].
    destruct (parse_product (c :: p)) as [[name price]|e'] eqn:Hparse.
    2:{ apply parse_product_raise in Hparse as ->. done. }
    destruct (Float.mul_int price qty) eqn:Hm; [done|].
    injection Hraise as <-. right. by apply mul_int_raise in Hm.
  - right. exists now. split; [done|]. unfold save_bill in Hraise.
    destruct (strip _) as [|c name]; [done|].
    destruct (cart (app w)) as [|line lines] eqn:Hcart; [done|].
    unfold cart_total in Hraise.
    destruct (sum_from _ _) as [total|e'] eqn:Hsum.
    { by destruct (add_bill _ _ _ _ _) as [file [bid|e']]. }
    injection Hraise as <-. split; [by apply sum_from_raise in Hsum|].
    intros Hsync%in_sync_printable. rewrite Hcart in Hsync.
    apply sum_from_Ok with (acc := S754_zero false) in Hsync.
    by rewrite Hsum in Hsync.
  - exfalso. unfold export_invoice in Hraise.
    destruct (current_bill_Ok w Hb) as [[b|] Hcur]; rewrite Hcur in Hraise;
      [|done].
    by destruct (export w b) as [w' [p|e']].
  - exfalso. unfold open_invoice_external in Hraise.
    destruct (current_bill_Ok w Hb) as [[b|] Hcur]; rewrite Hcur in Hraise;
      [|done].
    cbn zeta in Hraise.
    destruct (if Os.exists_ _ _ then _ else _) as [w' [p|e']]; [|done].
    by destruct (Os.exists_ _ _).
  - exfalso. unfold on_bill_select in Hraise.
    destruct sel as [|vals sel]; [done|].
    destruct (parse_bill vals) as [b|e'] eqn:Hparse; [done|].
    by apply parse_bill_raise in Hparse as ->.
Qed.

Lemma escaping_exceptions_witness :
  let w := Sample.world [] (str "Ann") [0xb2%N] in
  (run do_add_to_cart w).2 = Raise ValueError
  ∧ ((do_add_to_cart = do_add_to_cart
      ∧ (ValueError = ValueError ∨ ValueError = OverflowError))
     ∨ ∃ now, do_add_to_cart = do_save_bill now ∧ ValueError = OverflowError
              ∧ ¬ in_sync (app w)).
Proof.
  intros w.
  assert (Hinit : initialized (store w)) by (split; simpl; eauto).
  assert (Hraise : (run do_add_to_cart w).2 = Raise ValueError)
    by (vm_compute; reflexivity).
  split; [exact Hraise|].
  exact (escaping_exceptions do_add_to_cart w ValueError Hinit Hraise).
Defined.
End Handlers.

(** ** The cart and the list box *)

Section Cart_list.
Import Db Gui.

Lemma export_frame w b :
  app (export w b).1 = app w ∧ store (export w b).1 = store w
  ∧ shown (export w b).1 = shown w.
Proof.
  destruct b as [[[bid customer] date_str] total]. unfold export.
  destruct (fetch_bill_items _ _); [|done].
  by destruct (Invoice.generate_invoice _ _ _ _ _ _).
Qed.

Lemma load_bills_cart w :
  cart (app (load_bills w)) = cart (app w)
  ∧ cart_list (app (load_bills w)) = cart_list (app w)
  ∧ selected_bill (app (load_bills w)) = selected_bill (app w)
  ∧ customer_entry (app (load_bills w)) = customer_entry (app w)
  ∧ product_var (app (load_bills w)) = product_var (app w)
  ∧ qty_entry (app (load_bills w)) = qty_entry (app w)
  ∧ disk (load_bills w) = disk w.
Proof. unfold load_bills. by destruct (fetch_bills _). Qed.

(** X11: as long as no exception leaves a handler, the list box shows
    the cart: one text per cart line, in the order of the cart. *)
Theorem cart_list_in_sync (a : action) (w : world) :
  in_sync (app w) → (run a w).2 = Ok () → in_sync (app (run a w).1).
Proof.
  intros Hsync Hok.
  destruct a as [|now| | |sel|text|text|text]; cbn [run] in *;
    [| | | | |exact Hsync..].
  - unfold add_to_cart in *.
    destruct (product_var (app w)) as [|c p]; [done|].
    destruct (invalid_quantity _) as [[|]|]; [done| |done].
    destruct (int _) as [qty|]; [|done].
    destruct (parse_product _) as [[name price]|[| | | |]]; try done.
    destruct (Float.mul_int price qty) as [subtotal|] eqn:Hm; [|done].
    unfold in_sync in *. simpl. apply Forall2_app; [done|].
    constructor; [|constructor]. unfold line_text. simpl. by rewrite Hm.
  - unfold save_bill in *.
    destruct (strip _) as [|c name]; [done|].
    destruct (cart (app w)) as [|line lines] eqn:Hcart; [done|].
    destruct (cart_total _) as [total|]; [|done].
    destruct (add_bill _ _ _ _ _) as [file [bid|e]]; cbn [fst].
    + match goal with
      | |- context [load_bills ?x] =>
          destruct (load_bills_cart x) as (H1 & H2 & _)
      end.
      unfold in_sync. rewrite H1, H2. constructor.
    + exact Hsync.
  - unfold export_invoice.
    destruct (current_bill w) as [[b|]|]; [|done..].
    destruct (export_frame w b) as (Happ & _).
    destruct (export w b) as [w' [p|e]]; simpl in *; by rewrite Happ.
  - unfold open_invoice_external.
    destruct (current_bill w) as [[b|]|]; [|done..]. cbn zeta.
    destruct (export_frame w b) as (Happ & _).
    destruct (Os.exists_ (disk w) _).
    + by destruct (Os.exists_ (disk w) _).
    + destruct (export w b) as [w' [p|e]]; simpl in *; [|by rewrite Happ].
      destruct (Os.exists_ _ _); simpl; by rewrite Happ.
  - unfold on_bill_select. destruct sel as [|vals sel]; [done|].
    by destruct (parse_bill vals) as [b|[| | | |]].
Qed.

Lemma cart_list_in_sync_witness :
  let w := Sample.world [] (str "Ann") (str "2") in
  in_sync (app w) ∧ in_sync (app (run do_add_to_cart w).1).
Proof.
  intros w.
  assert (Hsync : in_sync (app w)) by constructor.
  split; [exact Hsync|].
  exact (cart_list_in_sync do_add_to_cart w Hsync eq_refl).
Defined.

Lemma sum_from_last lines name price qty e : ∀ acc,
  Float.mul_int price qty = Raise e →
  sum_from acc (lines ++ [(name, price, qty)]) = Raise OverflowError.
Proof.
  intros acc Hm.
  destruct (sum_from acc (lines ++ [(name, price, qty)])) as [total|e']
    eqn:Hsum.
  - assert (Hp : printable (lines ++ [(name, price, qty)])).
    { apply (sum_from_Ok _ acc). by rewrite Hsum. }
    apply Forall_app in Hp as [_ Hp]. apply Forall_cons in Hp as [Hp _].
    simpl in Hp. rewrite (mul_int_Ok price qty), Hm in Hp. done.
  - by apply sum_from_raise in Hsum as ->.
Qed.

(** X12: a quantity of digits that is too large for a float passes the
    check of [add_to_cart]; the line is put in the cart, then the
    product of price and quantity raises [OverflowError] before the list
    box is filled. From then on [save_bill] raises [OverflowError] for
    every customer name, and saves nothing. *)
Theorem add_to_cart_overflow (w : world) (name : pystr) (price : float)
    (qty : Z) :
  parse_product (product_var (app w)) = Ok (name, price) →
  isdigit (qty_entry (app w)) = true →
  int (qty_entry (app w)) = Ok qty → 0 < qty →
  Float.of_int qty = Raise OverflowError →
  let w' := (add_to_cart w).1 in
  (add_to_cart w).2 = Raise OverflowError
  ∧ cart (app w') = cart (app w) ++ [(name, price, qty)]
  ∧ cart_list (app w') = cart_list (app w)
  ∧ ∀ now, customer_name w' ≠ [] →
      save_bill now w' = (w', Raise OverflowError).
Proof.
  intros Hparse Hdigit Hint Hpos Hover.
  assert (Hm : Float.mul_int price qty = Raise OverflowError).
  { unfold Float.mul_int. by rewrite Hover. }
  unfold add_to_cart, invalid_quantity.
  destruct (product_var (app w)) as [|c p] eqn:Hp.
  { by vm_compute in Hparse. }
  rewrite Hdigit, Hint. simpl.
  assert ((qty <=? 0) = false) as -> by lia.
  rewrite Hparse, Hm. simpl. split_and!; [done..|].
  intros now Hname. unfold save_bill, customer_name in *. simpl in *.
  destruct (strip (customer_entry (app w))) as [|ch customer]; [done|].
  unfold cart_total. rewrite (sum_from_last _ _ _ _ _ _ Hm).
  by destruct (cart (app w)).
Qed.

Lemma add_to_cart_overflow_witness :
  let w := Sample.world [] (str "Ann") (0x31%N :: replicate 309 0x30%N) in
  let w' := (add_to_cart w).1 in
  (add_to_cart w).2 = Raise OverflowError
  ∧ cart (app w') = [(str "Laptop", Float.lit "800.00", 10 ^ 309)]
  ∧ cart_list (app w') = []
  ∧ ∀ now, customer_name w' ≠ [] →
      save_bill now w' = (w', Raise OverflowError).
Proof.
  intros w.
  apply (add_to_cart_overflow w (str "Laptop") (Float.lit "800.00")
           (10 ^ 309)).
  - vm_compute. reflexivity.
  - vm_compute. reflexivity.
  - vm_compute. reflexivity.
  - vm_compute. reflexivity.
  - vm_compute. reflexivity.
Defined.
End Cart_list.

(** ** What each handler touches *)

Section Frames.
Import Db Gui.

Lemma add_bill_tables file customer date total items file' bid :
  add_bill file customer date total items = (file', Ok bid) →
  is_Some (bills file').
Proof.
  intros (rest & Hfetch)%add_bill_newest_first. unfold fetch_bills in Hfetch.
  by destruct (bills file').
Qed.

(** The store after a handler: as before, or as [add_bill] left it. *)
Lemma run_store (a : action) (w : world) :
  store (run a w).1 = store w
  ∨ ∃ now customer total,
      a = do_save_bill now
      ∧ store (run a w).1
        = (add_bill (store w) customer now total (cart (app w))).1.
Proof.
  destruct a as [|now| | |sel|text|text|text]; cbn [run];
    [| | | | |by left..].
  - left. unfold add_to_cart.
    destruct (product_var (app w)) as [|c p]; [done|].
    destruct (invalid_quantity _) as [[|]|]; [done| |done].
    destruct (int _) as [qty|]; [|done].
    destruct (parse_product _) as [[name price]|[| | | |]]; try done.
    by destruct (Float.mul_int price qty).
  - unfold save_bill.
    destruct (strip _) as [|c name]; [by left|].
    destruct (cart (app w)) as [|line lines]; [by left|].
    destruct (cart_total _) as [total|]; [|by left].
    right. exists now, (c :: name), total. split; [done|].
    destruct (add_bill _ _ _ _ _) as [file [bid|e]]; cbn [fst]; [|done].
    by rewrite load_bills_store.
  - left. unfold export_invoice.
    destruct (current_bill w) as [[b|]|]; [|done..].
    destruct (export_frame w b) as (_ & Hstore & _).
    by destruct (export w b) as [w' [p|e]].
  - left. unfold open_invoice_external.
    destruct (current_bill w) as [[b|]|]; [|done..]. cbn zeta.
    destruct (export_frame w b) as (_ & Hstore & _).
    destruct (Os.exists_ (disk w) _).
    + by destruct (Os.exists_ (disk w) _).
    + destruct (export w b) as [w' [p|e]]; simpl in *; [|done].
      by destruct (Os.exists_ _ _).
  - left. unfold on_bill_select. destruct sel as [|vals sel]; [done|].
    by destruct (parse_bill vals) as [b|[| | | |]].
Qed.

(** X13: the store is written by [save_bill] only and the files by the
    two invoice handlers only; these two leave the cart, the entries, the
    selection and the history alone. Each event shows at most one dialog
    or viewer. *)
Theorem handlers_frame (a : action) (w : world) :
  let w' := (run a w).1 in
  match a with
  | do_save_bill _ => disk w' = disk w
  | do_export_invoice | do_open_invoice_external =>
      store w' = store w ∧ app w' = app w
  | _ => store w' = store w ∧ disk w' = disk w
  end
  ∧ ∃ new, shown w' = shown w ++ new ∧ (length new ≤ 1)%nat.
Proof.
  cbn zeta. split.
  - destruct a as [|now| | |sel|text|text|text]; cbn [run]; [| | | | |done..].
    + unfold add_to_cart.
      destruct (product_var (app w)) as [|c p]; [done|].
      destruct (invalid_quantity _) as [[|]|]; [done| |done].
      destruct (int _) as [qty|]; [|done].
      destruct (parse_product _) as [[name price]|[| | | |]]; try done.
      by destruct (Float.mul_int price qty).
    + unfold save_bill.
      destruct (strip _) as [|c name]; [done|].
      destruct (cart (app w)) as [|line lines]; [done|].
      destruct (cart_total _) as [total|]; [|done].
      destruct (add_bill _ _ _ _ _) as [file [bid|e]]; cbn [fst]; [|done].
      match goal with
      | |- context [load_bills ?x] =>
          destruct (load_bills_cart x) as (_ & _ & _ & _ & _ & _ & ->)
      end.
      done.
    + unfold export_invoice.
      destruct (current_bill w) as [[b|]|]; [|done..].
      destruct (export_frame w b) as (Happ & Hstore & _).
      by destruct (export w b) as [w' [p|e]].
    + unfold open_invoice_external.
      destruct (current_bill w) as [[b|]|]; [|done..]. cbn zeta.
      destruct (export_frame w b) as (Happ & Hstore & _).
      destruct (Os.exists_ (disk w) _).
      * by destruct (Os.exists_ (disk w) _).
      * destruct (export w b) as [w' [p|e]]; simpl in *; [|done].
        by destruct (Os.exists_ _ _).
    + unfold on_bill_select. destruct sel as [|vals sel]; [done|].
      by destruct (parse_bill vals) as [b|[| | | |]].
  - assert (Hnone : ∃ new, shown w = shown w ++ new ∧ (length new ≤ 1)%nat).
    { exists []. rewrite app_nil_r. simpl. auto with lia. }
    assert (Hone : ∀ w0 e, shown w0 = shown w →
              ∃ new, shown (show w0 e) = shown w ++ new
                     ∧ (length new ≤ 1)%nat).
    { intros w0 e Hw0. exists [e]. simpl. by rewrite Hw0. }
    destruct a as [|now| | |sel|text|text|text]; cbn [run];
      [| | | | |exact Hnone..].
    + unfold add_to_cart.
      destruct (product_var (app w)) as [|c p]; [by apply Hone|].
      destruct (invalid_quantity _) as [[|]|]; [by apply Hone| |done].
      destruct (int _) as [qty|]; [|done].
      destruct (parse_product _) as [[name price]|[| | | |]]; try done;
        [|by apply Hone].
      by destruct (Float.mul_int price qty).
    + unfold save_bill.
      destruct (strip _) as [|c name]; [by apply Hone|].
      destruct (cart (app w)) as [|line lines]; [by apply Hone|].
      destruct (cart_total _) as [total|]; [|done].
      destruct (add_bill _ _ _ _ _) as [file [bid|e]] eqn:Hadd; cbn [fst];
        [|by apply Hone].
      apply add_bill_tables in Hadd as [t Ht].
      unfold load_bills, fetch_bills. cbn [store set_app show set_store].
      rewrite Ht. by apply Hone.
    + unfold export_invoice.
      destruct (current_bill w) as [[b|]|]; [|by apply Hone|done].
      destruct (export_frame w b) as (_ & _ & Hshown).
      destruct (export w b) as [w' [p|e]]; by apply Hone.
    + unfold open_invoice_external.
      destruct (current_bill w) as [[b|]|]; [|by apply Hone|done]. cbn zeta.
      destruct (export_frame w b) as (_ & _ & Hshown).
      destruct (Os.exists_ (disk w) _).
      * destruct (Os.exists_ (disk w) _); by apply Hone.
      * destruct (export w b) as [w' [p|e]]; simpl in *; [|by apply Hone].
        destruct (Os.exists_ _ _); by apply Hone.
    + unfold on_bill_select. destruct sel as [|vals sel]; [done|].
      destruct (parse_bill vals) as [b|[| | | |]]; try done.
      by apply Hone.
Qed.
End Frames.

(** ** Every state the application reaches *)

Section Sessions.
Import Db Gui.

Lemma session_ind (P : world → Prop) :
  (∀ a w, P w → P (run a w).1) →
  ∀ events w, P w → P (session w events).
Proof.
  intros Hstep events. induction events as [|a events IH]; intros w Hw;
    [done|].
  cbn [session foldl]. apply IH. by apply Hstep.
Qed.

Lemma history_shown_init file fs : history_shown (init file fs).
Proof.
  unfold init, history_shown.
  destruct (init_db_tables file) as [[t Ht] _].
  destruct (init_db file) as [file' r]. simpl in Ht.
  unfold load_bills, fetch_bills. simpl. rewrite Ht. simpl.
  rewrite Ht. eauto.
Qed.

Lemma history_shown_run a w : history_shown w → history_shown (run a w).1.
Proof.
  intros (rows & Hrows & Htree).
  assert (Hsame : ∀ w', store w' = store w →
                        bills_tree (app w') = bills_tree (app w) →
                        history_shown w').
  { intros w' Hs Ht. exists rows. by rewrite Hs, Ht. }
  destruct a as [|now| | |sel|text|text|text]; cbn [run];
    [| | | | |by apply Hsame..].
  - unfold add_to_cart.
    destruct (product_var (app w)) as [|c p]; [by apply Hsame|].
    destruct (invalid_quantity _) as [[|]|]; [by apply Hsame| |by apply Hsame].
    destruct (int _) as [qty|]; [|by apply Hsame].
    destruct (parse_product _) as [[name price]|[| | | |]]; try by apply Hsame.
    by destruct (Float.mul_int price qty); apply Hsame.
  - unfold save_bill.
    destruct (strip _) as [|c name]; [by apply Hsame|].
    destruct (cart (app w)) as [|line lines]; [by apply Hsame|].
    destruct (cart_total _) as [total|]; [|by apply Hsame].
    destruct (add_bill _ _ _ _ _) as [file [bid|e]] eqn:Hadd; cbn [fst].
    + apply add_bill_tables in Hadd as [t Ht].
      unfold history_shown, load_bills, fetch_bills.
      cbn [store set_app show set_store]. rewrite Ht. simpl.
      rewrite Ht. eauto.
    + apply add_bill_Raise in Hadd as ->. by apply Hsame.
  - unfold export_invoice.
    destruct (current_bill w) as [[b|]|]; [|by apply Hsame..].
    destruct (export_frame w b) as (Happ & Hstore & _).
    destruct (export w b) as [w' [p|e]]; simpl in *; apply Hsame; simpl;
      congruence.
  - unfold open_invoice_external.
    destruct (current_bill w) as [[b|]|]; [|by apply Hsame..]. cbn zeta.
    destruct (export_frame w b) as (Happ & Hstore & _).
    destruct (Os.exists_ (disk w) _).
    + by destruct (Os.exists_ (disk w) _); apply Hsame.
    + destruct (export w b) as [w' [p|e]]; simpl in *;
        [|apply Hsame; simpl; congruence].
      destruct (Os.exists_ _ _); apply Hsame; simpl; congruence.
  - unfold on_bill_select. destruct sel as [|vals sel]; [by apply Hsame|].
    by destruct (parse_bill vals) as [b|[| | | |]]; apply Hsame.
Qed.

(** X14: whatever file the application starts on and whatever the user
    does, the history lists the bills of the store, all of them and
    newest first; starting and refreshing never fail. *)
Theorem main_history_shown (file : database) (fs : Invoice.filesystem)
    (events : list action) :
  history_shown (main file fs events).
Proof.
  unfold main. apply (session_ind history_shown).
  - apply history_shown_run.
  - apply history_shown_init.
Qed.

Lemma run_well_formed a w :
  well_formed (store w) → well_formed (store (run a w).1).
Proof.
  intros Hwf. destruct (run_store a w) as [->|(? & ? & ? & _ & ->)];
    [done|by apply well_formed_add_bill].
Qed.

Lemma run_referential a w :
  referential (store w) → referential (store (run a w).1).
Proof.
  intros Href. destruct (run_store a w) as [->|(? & ? & ? & _ & ->)];
    [done|by apply referential_add_bill].
Qed.

Lemma run_stored a w row :
  stored (store w) row → stored (store (run a w).1) row.
Proof.
  intros Hrow. destruct (run_store a w) as [->|(? & ? & ? & _ & ->)];
    [done|].
  destruct row; [by apply add_bill_keeps_bill|by apply add_bill_keeps_item].
Qed.

(** X15: started on a new file, the application keeps the store well
    formed in every state it reaches: both tables exist, the keys of the
    bills and the quantities are 64-bit integers, and every item belongs
    to a stored bill. *)
Theorem main_store_sound (fs : Invoice.filesystem) (events : list action) :
  well_formed (store (main no_tables fs events))
  ∧ referential (store (main no_tables fs events)).
Proof.
  unfold main. split.
  - apply (session_ind (λ w, well_formed (store w))).
    + apply run_well_formed.
    + apply init_well_formed.
  - apply (session_ind (λ w, referential (store w))).
    + apply run_referential.
    + unfold init. cbn [init_db no_tables bills bill_items
                        create_if_not_exists].
      rewrite load_bills_store. simpl. intros k r (t & [= <-] & Hk).
      simpl in Hk. by rewrite lookup_empty in Hk.
Qed.

(** X16: no event takes a row out of the store or changes one: a row
    stored before a list of events is stored after it, under the same
    key. *)
Theorem session_append_only (events : list action) (w : world)
    (row : stored_row) :
  stored (store w) row → stored (store (session w events)) row.
Proof.
  revert w. apply (session_ind (λ w, stored (store w) row)).
  intros a w. apply run_stored.
Qed.

Lemma session_append_only_witness :
  let w := Sample.world [] (str "") (str "1") in
  let events := [ do_edit_customer (str "Eve"); do_edit_quantity (str "3");
                  do_add_to_cart; do_save_bill (str "2024-03-01 09:00:00");
                  do_export_invoice ] in
  stored (store w) (bill_at 2 Sample.bob)
  ∧ stored (store (session w events)) (bill_at 2 Sample.bob).
Proof.
  intros w events.
  assert (H : stored (store w) (bill_at 2 Sample.bob)).
  { eexists. split; [reflexivity|]. vm_compute. reflexivity. }
  split; [exact H|]. exact (session_append_only events w _ H).
Defined.
End Sessions.

(** ** From the cart to the invoice *)

Section Save_and_export.
Import Db Gui.

Lemma add_bill_items_table file customer date total items file' bid :
  add_bill file customer date total items = (file', Ok bid) → items ≠ [] →
  is_Some (bill_items file).
Proof.
  intros (conn & H1 & H2)%add_bill_Ok Hne.
  apply insert_bill_Ok in H1 as (tb & tb' & Htb & Htb' & Hci & Hins).
  destruct items as [|[[p pr] q] items]; [done|].
  cbn [insert_items] in H2. unfold insert_item in H2.
  rewrite <- Hci. destruct (bill_items conn); [eauto|done].
Qed.

(** The state a save that succeeded leaves. *)
Lemma save_bill_saved now w w' r :
  save_bill now w = (w', r) → bill_saved w w' →
  ∃ total bid rest,
    cart (app w) ≠ []
    ∧ cart_total (cart (app w)) = Ok total
    ∧ add_bill (store w) (customer_name w) now total (cart (app w))
      = (store w', Ok bid)
    ∧ fetch_bills (store w')
      = Ok ((bid, customer_name w, now, total) :: rest)
    ∧ app w'
      = {| cart := [];
           selected_bill := Some (bid, customer_name w, now, total);
           customer_entry := [];
           product_var := product_var (app w);
           qty_entry := qty_entry (app w);
           cart_list := [];
           bills_tree :=
             tree_row <$> (bid, customer_name w, now, total) :: rest |}
    ∧ disk w' = disk w
    ∧ shown w'
      = shown w ++ [showinfo (str "Bill Saved")
                      (str "Bill #" ++ str_of_int bid
                         ++ str " saved successfully. Total: $"
                         ++ Float.format_2f total)]
    ∧ r = Ok ().
Proof.
  unfold save_bill, customer_name, bill_saved. intros Hsave [msg Hmsg].
  destruct (strip _) as [|c name] eqn:Hname.
  { injection Hsave as <- <-. simpl in Hmsg.
    by apply app_inj_tail in Hmsg as [_ ?]. }
  destruct (cart (app w)) as [|line lines] eqn:Hcart.
  { injection Hsave as <- <-. simpl in Hmsg.
    by apply app_inj_tail in Hmsg as [_ ?]. }
  destruct (cart_total _) as [total|e] eqn:Htotal.
  2:{ injection Hsave as <- <-. by apply not_saved_unchanged in Hmsg. }
  destruct (add_bill _ _ _ _ _) as [file [bid|e]] eqn:Hadd.
  2:{ injection Hsave as <- <-. simpl in Hmsg.
      by apply app_inj_tail in Hmsg as [_ ?]. }
  injection Hsave as <- <-.
  destruct (add_bill_newest_first _ _ _ _ _ _ _ Hadd) as [rest Hfetch].
  exists total, bid, rest. rewrite load_bills_store.
  unfold load_bills. cbn [store set_app show set_store]. rewrite Hfetch.
  by split_and!.
Qed.

(** X17: after a save that succeeded the form is ready for the next
    bill: the cart, the list box and the customer entry are empty, the
    product and the quantity are as they were; the saved bill is the
    selected one and the first row of the refreshed history; no file is
    touched. *)
Theorem save_bill_resets_form (now : pystr) (w w' : world) (r : result ()) :
  save_bill now w = (w', r) → bill_saved w w' →
  ∃ bid total rest,
    cart_total (cart (app w)) = Ok total
    ∧ fetch_bills (store w')
      = Ok ((bid, customer_name w, now, total) :: rest)
    ∧ app w'
      = {| cart := [];
           selected_bill := Some (bid, customer_name w, now, total);
           customer_entry := [];
           product_var := product_var (app w);
           qty_entry := qty_entry (app w);
           cart_list := [];
           bills_tree :=
             tree_row <$> (bid, customer_name w, now, total) :: rest |}
    ∧ disk w' = disk w.
Proof.
  intros Hsave Hsaved.
  destruct (save_bill_saved now w w' r Hsave Hsaved)
    as (total & bid & rest & _ & Htotal & _ & Hfetch & Happ & Hdisk & _).
  by exists bid, total, rest.
Qed.

Lemma save_bill_resets_form_witness :
  let w := Sample.world [Sample.laptop; Sample.mouse] (str " Ann ") (str "4") in
  let w' := (save_bill (str "2024-03-01 09:00:00") w).1 in
  bill_saved w w'
  ∧ ∃ bid total rest,
      cart_total (cart (app w)) = Ok total
      ∧ fetch_bills (store w')
        = Ok ((bid, customer_name w, str "2024-03-01 09:00:00", total)
                :: rest)
      ∧ app w'
        = {| cart := [];
             selected_bill :=
               Some (bid, customer_name w, str "2024-03-01 09:00:00", total);
             customer_entry := [];
             product_var := product_var (app w);
             qty_entry := qty_entry (app w);
             cart_list := [];
             bills_tree :=
               tree_row <$> (bid, customer_name w,
                             str "2024-03-01 09:00:00", total) :: rest |}
      ∧ disk w' = disk w.
Proof.
  intros w w'.
  assert (Hs : bill_saved w w') by (eexists; vm_compute; reflexivity).
  split; [exact Hs|].
  exact (save_bill_resets_form (str "2024-03-01 09:00:00") w w' (Ok ())
           eq_refl Hs).
Defined.

Lemma sample_referential : referential Sample.store.
Proof.
  intros k r (t & [= <-] & Hk). simpl in Hk.
  apply lookup_insert_Some in Hk as [[_ <-]|[_ Hk]];
    [eexists; eexists; split; [reflexivity|reflexivity]|].
  apply lookup_insert_Some in Hk as [[_ <-]|[_ Hk]];
    [eexists; eexists; split; [reflexivity|reflexivity]|].
  apply lookup_singleton_Some in Hk as [_ <-].
  eexists; eexists; split; [reflexivity|reflexivity].
Qed.

(** X18: the invoice exported right after a save is the invoice of the
    bill just saved: it is drawn from the customer name as trimmed, the
    time of the save, the total of the cart and the lines of the cart in
    their order, and written to the file of the new bill. The store is
    one where each item belongs to a stored bill. *)
Theorem save_bill_then_export (now : pystr) (w w' : world) (r : result ()) :
  referential (store w) →
  save_bill now w = (w', r) → bill_saved w w' →
  ∃ bid total doc,
    cart_total (cart (app w)) = Ok total
    ∧ Invoice.render bid (customer_name w) now total (cart (app w)) = Ok doc
    ∧ export_invoice w'
      = (World (app w') (store w')
           (invoice_written (disk w) (bid, customer_name w, now, total) doc)
           (shown w'
              ++ [showinfo (str "Export Successful")
                    (str "Invoice saved as:" ++ [0xa%N]
                       ++ str "invoices/invoice_" ++ str_of_int bid
                       ++ str ".pdf")]),
         Ok ()).
Proof.
  intros Href Hsave Hsaved.
  destruct (save_bill_saved now w w' r Hsave Hsaved)
    as (total & bid & rest & Hcart & Htotal & Hadd & _ & Happ & Hdisk & _).
  assert (Hp : printable (cart (app w))).
  { apply (sum_from_Ok _ (S754_zero false)).
    unfold cart_total in Htotal. by rewrite Htotal. }
  destruct (render_printable bid (customer_name w) now total _ Hp)
    as [doc Hdoc].
  exists bid, total, doc. split_and!; [done..|].
  pose proof (add_bill_items_table _ _ _ _ _ _ _ Hadd Hcart) as Hti.
  destruct (fetch_bill_items_added _ _ _ _ _ _ _ Href Hti Hadd)
    as (ti & _ & Hitems).
  rewrite item_row_imap in Hitems.
  unfold export_invoice, current_bill. rewrite Happ. cbn [selected_bill].
  rewrite (export_Ok w' (bid, customer_name w, now, total) _ doc Hitems Hdoc).
  rewrite Hdisk. by rewrite <- Happ.
Qed.

Lemma save_bill_then_export_witness :
  let now := str "2024-03-01 09:00:00" in
  let w := Sample.world [Sample.laptop; Sample.mouse] (str " Ann ") (str "4") in
  let w' := (save_bill now w).1 in
  ∃ bid total doc,
    cart_total (cart (app w)) = Ok total
    ∧ Invoice.render bid (customer_name w) now total (cart (app w)) = Ok doc
    ∧ export_invoice w'
      = (World (app w') (store w')
           (invoice_written (disk w) (bid, customer_name w, now, total) doc)
           (shown w'
              ++ [showinfo (str "Export Successful")
                    (str "Invoice saved as:" ++ [0xa%N]
                       ++ str "invoices/invoice_" ++ str_of_int bid
                       ++ str ".pdf")]),
         Ok ()).
Proof.
  intros now w w'.
  assert (Hs : bill_saved w w') by (eexists; vm_compute; reflexivity).
  exact (save_bill_then_export now w w' (Ok ()) sample_referential
           eq_refl Hs).
Defined.

(** X19: after [export_invoice] wrote the invoice of a bill,
    [open_invoice_external] opens that file as it is: it reads no item
    and writes nothing. *)
Theorem export_then_open (w : world) (b : bill_tuple)
    (items : list Invoice.item) (doc : Invoice.document) :
  current_bill w = Ok (Some b) →
  fetch_bill_items (store w) (id_of b) = Ok items →
  Invoice.render (id_of b) b.1.1.2 b.1.2 b.2 items = Ok doc →
  let w' := (export_invoice w).1 in
  Os.files (disk w') !! Invoice.invoice_path (id_of b) = Some doc
  ∧ open_invoice_external w'
    = (show w' (open_viewer (Invoice.invoice_path (id_of b))), Ok ()).
Proof.
  intros Hcur Hitems Hdoc. cbn zeta.
  unfold export_invoice. rewrite Hcur, (export_Ok w b items doc Hitems Hdoc).
  cbn [fst]. split.
  { unfold invoice_written. simpl. apply lookup_insert_eq. }
  unfold open_invoice_external.
  assert (current_bill
            (show (set_disk w (invoice_written (disk w) b doc))
               (showinfo (str "Export Successful")
                  (str "Invoice saved as:" ++ [0xa%N]
                     ++ Os.show_path (Invoice.invoice_path (id_of b)))))
          = Ok (Some b)) as -> by exact Hcur.
  cbn zeta. cbn [disk show set_disk]. change (b.1.1.1) with (id_of b).
  rewrite invoice_written_exists. cbn [disk show set_disk].
  by rewrite invoice_written_exists.
Qed.

Lemma export_then_open_witness :
  let w := Sample.world [] (str "") (str "1") in
  let b := (2, str "Bob", str "2024-01-02 11:30:00", Float.lit "800.0") in
  let items := [(str "Laptop", Float.lit "800.00", 1)] in
  let w' := (export_invoice w).1 in
  ∃ doc,
    Invoice.render 2 (str "Bob") (str "2024-01-02 11:30:00")
                   (Float.lit "800.0") items = Ok doc
    ∧ Os.files (disk w') !! Invoice.invoice_path 2 = Some doc
    ∧ open_invoice_external w'
      = (show w' (open_viewer (Invoice.invoice_path 2)), Ok ()).
Proof.
  intros w b items w'. eexists. split; [vm_compute; reflexivity|].
  apply (export_then_open w b items).
  - reflexivity.
  - reflexivity.
  - vm_compute. reflexivity.
Defined.
End Save_and_export.


(** ** Selecting a bill in the history *)

Section History_selection.
Import Db Gui.

(** X20: from a row of the history as [load_bills] writes it, the
    identifier as [str] gives it and the total as the text
    [f"${total:.2f}"], [on_bill_select] selects the bill of that
    identifier with the total rounded to cents; the customer and the date
    are taken as the widget holds them. Only the first selected row
    counts. This holds for every identifier of at most 4300 digits, the
    keys of the store among them; a longer one is refused by [int], and
    the handler reports it and selects nothing. *)
Theorem on_bill_select_reads_row (w : world) (bid : Z)
    (customer date_str : pystr) (total : float)
    (sel : list (pystr * pystr * pystr * pystr)) :
  let out :=
    on_bill_select
      ((str_of_int bid, customer, date_str,
        str "$" ++ Float.format_2f total) :: sel) w in
  (if (digits_of bid <=? max_str_digits)%nat
   then out = (set_selected w
                 (Some (bid, customer, date_str, to_cents total)), Ok ())
   else ∃ msg,
          out = (set_selected (show w (showerror (str "Error") msg)) None,
                 Ok ()))
  ∧ (min_int64 ≤ bid ≤ max_int64 →
     (digits_of bid <=? max_str_digits)%nat = true).
Proof.
  cbn zeta. split; [|by intros ?%digits_of_int64%Nat.leb_le].
  unfold on_bill_select, parse_bill. rewrite int_str_of_int.
  destruct (digits_of bid <=? max_str_digits)%nat;
    cbn [mbind result_bind]; [|eauto].
  by rewrite of_str_format_2f.
Qed.

(** The total of a bill of whole cents is read back as it is; a total
    with a fraction of a cent is not. *)
Example to_cents_samples :
  to_cents (Float.lit "1720.0") = Float.lit "1720.0"
  ∧ to_cents (Float.lit "0.125") = Float.lit "0.12"
  ∧ to_cents (Float.lit "1e22") = Float.lit "1e22".
Proof. vm_compute. done. Qed.
End History_selection.

(** ** What the handlers report *)

Section Reports.
Import Db Gui.

Lemma add_bill_Ok_quantities file customer date total items file' bid :
  add_bill file customer date total items = (file', Ok bid) →
  Forall (λ it : pystr * float * Z, min_int64 ≤ it.2 ≤ max_int64) items.
Proof.
  intros Hadd. destruct items as [|it items]; [constructor|].
  destruct (add_bill_items_table _ _ _ _ _ _ _ Hadd) as [ti Hti]; [done|].
  apply add_bill_Ok in Hadd as (conn & H1 & H2).
  apply insert_bill_Ok in H1 as (tb & tb' & Htb & Htb' & Hci & Hins).
  rewrite Hti in Hci.
  by destruct (insert_items_seq _ conn bid file' ti H2 Hci)
    as (_ & _ & _ & _ & _ & Hqs & _).
Qed.

(** X21: a cart line whose quantity is not a 64-bit integer, though small
    enough for a float, cannot be stored: [save_bill] reports a database
    error and leaves everything as it was: nothing of the bill is in the
    store, and the cart keeps its lines. *)
Theorem save_bill_database_error (now : pystr) (w : world) :
  customer_name w ≠ [] → printable (cart (app w)) →
  ¬ Forall (λ it : cart_line, min_int64 ≤ it.2 ≤ max_int64) (cart (app w)) →
  ∃ msg,
    save_bill now w
    = (show w (showerror (str "Database Error") msg), Ok ()).
Proof.
  intros Hname Hp Hq. unfold save_bill, customer_name in *.
  destruct (strip _) as [|c name]; [done|].
  destruct (cart (app w)) as [|line lines] eqn:Hcart.
  { destruct Hq. constructor. }
  apply (sum_from_Ok _ (S754_zero false)) in Hp. unfold cart_total.
  destruct (sum_from _ _) as [total|]; [|done].
  destruct (add_bill _ _ _ _ _) as [file [bid|e]] eqn:Hadd.
  { by apply add_bill_Ok_quantities in Hadd. }
  apply add_bill_Raise in Hadd as ->. eexists. reflexivity.
Qed.

Lemma save_bill_database_error_witness :
  let w := Sample.world [(str "Laptop", Float.lit "800.00", 2 ^ 63)]
                        (str "Ann") (str "1") in
  ∃ msg,
    save_bill (str "2024-03-01 09:00:00") w
    = (show w (showerror (str "Database Error") msg), Ok ()).
Proof.
  intros w. apply (save_bill_database_error (str "2024-03-01 09:00:00") w).
  - vm_compute. discriminate.
  - repeat constructor.
  - intros [Hq _]%Forall_cons. vm_compute in Hq. by destruct Hq as [_ []].
Defined.

(** X22: [open_invoice_external], for the bill it works on, either starts
    the viewer, and then on a path that exists, or reports that the
    invoice could not be generated, and then has written no file. It
    never reports a missing file: its second test of the path cannot
    fail once [generate_invoice] returned. *)
Theorem open_invoice_external_outcome (w : world) (b : bill_tuple) :
  current_bill w = Ok (Some b) →
  let out := open_invoice_external w in
  let p := Invoice.invoice_path (id_of b) in
  out.2 = Ok () ∧ store out.1 = store w ∧ app out.1 = app w
  ∧ ((shown out.1 = shown w ++ [open_viewer p]
      ∧ Os.exists_ (disk out.1) p = true)
     ∨ (∃ detail,
          shown out.1
          = shown w ++ [showerror (str "Error")
                          (str "Failed to generate invoice: " ++ detail)])
       ∧ Os.exists_ (disk w) p = false
       ∧ Os.files (disk out.1) = Os.files (disk w)).
Proof.
  intros Hcur. cbn zeta. unfold open_invoice_external. rewrite Hcur.
  cbn zeta. change (b.1.1.1) with (id_of b).
  destruct (Os.exists_ (disk w) (Invoice.invoice_path (id_of b))) eqn:Hex.
  { rewrite Hex. split_and!; [done..|]. left. by split. }
  destruct (export_frame w b) as (Happ & Hstore & Hshown).
  destruct b as [[[bid customer] date_str] total]. unfold id_of in *.
  cbn [fst snd] in *. unfold export in *.
  destruct (fetch_bill_items (store w) bid) as [items|e].
  2:{ split_and!; [done..|]. right. split_and!; [eauto|done..]. }
  unfold Invoice.generate_invoice in *.
  destruct (Invoice.render bid customer date_str total items) as [doc|e].
  - cbn [fst snd disk set_disk].
    assert (Hw : Os.exists_
                   (Os.write (Os.makedirs (disk w) (str "invoices"))
                      (Invoice.invoice_path bid) doc)
                   (Invoice.invoice_path bid) = true).
    { unfold Os.exists_. simpl. rewrite lookup_insert_eq.
      rewrite bool_decide_eq_true_2; eauto. }
    rewrite Hw. split_and!; [done..|]. left. by split.
  - split_and!; [done..|]. right. split_and!; [eauto|done..].
Qed.

Lemma open_invoice_external_outcome_witness :
  let w := Sample.world [] (str "") (str "1") in
  let out := open_invoice_external w in
  let p := Invoice.invoice_path 2 in
  out.2 = Ok () ∧ store out.1 = store w ∧ app out.1 = app w
  ∧ ((shown out.1 = shown w ++ [open_viewer p]
      ∧ Os.exists_ (disk out.1) p = true)
     ∨ (∃ detail,
          shown out.1
          = shown w ++ [showerror (str "Error")
                          (str "Failed to generate invoice: " ++ detail)])
       ∧ Os.exists_ (disk w) p = false
       ∧ Os.files (disk out.1) = Os.files (disk w)).
Proof.
  intros w.
  exact (open_invoice_external_outcome w
           (2, str "Bob", str "2024-01-02 11:30:00", Float.lit "800.0")
           eq_refl).
Defined.
End Reports.
